(** * Aura: archive safety layer, AST node model, call-signature binding
      and the crypto key-generation rule

    A shallow embedding of
      - [aura/analyzers/python/nodes.py]  (taints, AST nodes, [Call.bind]),
      - [aura/analyzers/python/crypto.py] (the [CryptoGenKey] analyzer),
      - [aura/analyzers/archive.py]       (archive filtering and unpacking),
    together with the properties of these modules that the specification
    states.  Python values are modelled by inductive types, raised
    exceptions by an error monad, generators by the trace of the events they
    produce, and dictionaries used as plain maps by [gmap]. *)

From Stdlib Require Import ZArith String Ascii DecimalString.
From stdpp Require Import base option list strings gmap.

Local Open Scope string_scope.
#[local] Set Warnings "-register-all".

(** ** [nodes.py]: taints and AST nodes *)

Inductive Taints := SAFE | UNKNOWN | TAINTED.

Definition Taints_eqb (a b : Taints) : bool :=
  match a, b with
  | SAFE, SAFE | UNKNOWN, UNKNOWN | TAINTED, TAINTED => true
  | _, _ => false
  end.

(** [Taints.__add__] *)
Definition Taints_add (self other : Taints) : Taints :=
  if Taints_eqb self TAINTED || Taints_eqb other TAINTED then TAINTED
  else if Taints_eqb self UNKNOWN || Taints_eqb other UNKNOWN then UNKNOWN
  else self.

(** The attributes that [ASTNode.__post_init__] attaches to every node
    ([_original], [_docs] and [_hash] are never read by the modelled code). *)
Record meta := Meta {
  _full_name : option string;
  line_no : option Z;
  tags : gset string;
  _taint_class : Taints;
}.

(** [ASTNode.__post_init__] *)
Definition post_init : meta :=
  {| _full_name := None; line_no := None; tags := ∅; _taint_class := UNKNOWN |}.

(** [NodeType]: an [ASTNode], or a plain Python value ([None], [int], [str],
    a [list], a [dict] in insertion order).  The union that the source
    declares has no tuple, and the model has none. *)
Inductive NodeType :=
| PyNone
| PyInt (z : Z)
| PyStr (s : string)
| PyList (l : list NodeType)
| PyDict (items : list (NodeType * NodeType))
| Dictionary (m : meta) (keys values : list NodeType)
| Number (m : meta) (value : Z)
| String (m : meta) (value : string)
| Var (m : meta) (var_name : string) (value : NodeType) (var_type : string)
| Attribute (m : meta) (source : NodeType) (attr action : string)
| Compare (m : meta) (left : NodeType) (ops comparators : list NodeType)
| FunctionDef (m : meta) (name : string) (args body decorator_list : list NodeType)
    (returns : NodeType)
| Call (m : meta) (func : NodeType) (args : list NodeType) (kwargs : NodeType)
| Arguments (m : meta) (args : list string) (vararg : NodeType)
    (kwonlyargs : list NodeType) (kwarg : NodeType) (defaults kw_defaults : list NodeType)
| Import (m : meta) (module alias import_type : string)
| BinOp (m : meta) (op : string) (left right : NodeType)
| Print (m : meta) (values : list NodeType) (dest : NodeType).

(** [isinstance(x, ASTNode)] *)
Definition is_ASTNode (x : NodeType) : bool :=
  match x with
  | PyNone | PyInt _ | PyStr _ | PyList _ | PyDict _ => false
  | _ => true
  end.

(** [isinstance(x, BASIC_ELEMENTS)] *)
Definition is_basic (x : NodeType) : bool :=
  match x with
  | PyStr _ | PyInt _ => true
  | _ => false
  end.

(** [x is None] *)
Definition is_None (x : NodeType) : bool :=
  match x with PyNone => true | _ => false end.

(** The metadata of a node; plain values carry none. *)
Definition node_meta (x : NodeType) : option meta :=
  match x with
  | PyNone | PyInt _ | PyStr _ | PyList _ | PyDict _ => None
  | Dictionary m _ _ | Number m _ | String m _ | Var m _ _ _
  | Attribute m _ _ _ | Compare m _ _ _ | FunctionDef m _ _ _ _ _
  | Call m _ _ _ | Arguments m _ _ _ _ _ _ | Import m _ _ _
  | BinOp m _ _ _ | Print m _ _ => Some m
  end.

(** An optional string as a Python value. *)
Definition of_opt_str (o : option string) : NodeType :=
  match o with Some s => PyStr s | None => PyNone end.

(** The [full_name] property.  [ASTNode.full_name] returns the cached
    [_full_name]; [Var], [Attribute], [Call] and [Import] override it.
    A plain value has no such attribute: [Call.full_name] reads it with
    [getattr(self.func, 'full_name', None)] and gets [None], and so does
    this function. *)
Fixpoint full_name (n : NodeType) : NodeType :=
  match n with
  | Var m _ value _ =>
      match _full_name m with
      | Some s => if String.eqb s "" then value else PyStr s
      | None => value    (* no value has an attribute [fullname] *)
      end
  | Attribute _ source attr _ =>
      match source with
      | Import _ module _ _ => PyStr (module +:+ "." +:+ attr)
      | _ => PyNone
      end
  | Call m func _ _ =>
      match _full_name m with
      | Some s => PyStr s
      | None =>
          let f_name :=
            match func with
            | PyNone | PyInt _ | PyStr _ | PyList _ | PyDict _ => PyNone
            | _ => full_name func
            end in
          if is_None f_name then func else f_name
      end
  | Import _ module _ _ => PyStr module
  | PyNone | PyInt _ | PyStr _ | PyList _ | PyDict _ => PyNone
  | Dictionary m _ _ | Number m _ | String m _ | Compare m _ _ _
  | FunctionDef m _ _ _ _ _ | Arguments m _ _ _ _ _ _ | BinOp m _ _ _
  | Print m _ _ => of_opt_str (_full_name m)
  end.


(** ** Python exceptions and the error monad *)

(** The exception classes that the modelled code raises or catches. *)
Inductive exc_class :=
| TypeError | ValueError | AttributeError | IndexError | KeyError
| ReadError          (* tarfile.ReadError *)
| BadZipFile         (* zipfile.BadZipFile *)
| OSError
| EOFError.          (* gzip, bz2 and lzma on a stream that ends early *)

Definition exc_class_eqb (a b : exc_class) : bool :=
  match a, b with
  | TypeError, TypeError | ValueError, ValueError
  | AttributeError, AttributeError | IndexError, IndexError
  | KeyError, KeyError | ReadError, ReadError | BadZipFile, BadZipFile
  | OSError, OSError | EOFError, EOFError => true
  | _, _ => false
  end.

(** [exc.__class__.__name__] *)
Definition class_name (c : exc_class) : string :=
  match c with
  | TypeError => "TypeError"
  | ValueError => "ValueError"
  | AttributeError => "AttributeError"
  | IndexError => "IndexError"
  | KeyError => "KeyError"
  | ReadError => "ReadError"
  | BadZipFile => "BadZipFile"
  | OSError => "OSError"
  | EOFError => "EOFError"
  end.

(** An exception object: its class and its [args]. *)
Record exn := Exn { exc_cls : exc_class; exc_args : list NodeType }.

(** The outcome of a call: a value, or a raised exception. *)
Inductive result (A : Type) :=
| Ok (a : A)
| Raise (e : exn).
Arguments Ok {A} a.
Arguments Raise {A} e.

Definition bind {A B} (r : result A) (k : A -> result B) : result B :=
  match r with
  | Ok a => k a
  | Raise e => Raise e
  end.

Notation "'let*' p ':=' c 'in' k" := (bind c (fun p => k))
  (at level 10, p pattern, c at level 100, k at level 200, only parsing).

(** [raise cls(msg)] *)
Definition raise {A} (c : exc_class) (msg : string) : result A :=
  Raise (Exn c [PyStr msg]).

(** [repr] of an identifier-like string. *)
Definition repr_str (s : string) : string := "'" +:+ s +:+ "'".

(** The [is_static] property: [ASTNode.is_static] is [False]; [Dictionary]
    and [BinOp] override it.  Reading it on a plain value raises
    [AttributeError]. *)
Fixpoint is_static (n : NodeType) : result bool :=
  match n with
  | PyNone | PyInt _ | PyStr _ | PyList _ | PyDict _ =>
      raise AttributeError "object has no attribute 'is_static'"
  | Dictionary _ keys values =>
      let fix all_static (l : list NodeType) : result bool :=
        match l with
        | [] => Ok true
        | x :: l' =>
            if is_basic x then all_static l'
            else let* b := is_static x in if b then all_static l' else Ok false
        end in
      let* b := all_static keys in if b then all_static values else Ok false
  | BinOp _ _ l r =>
      let* b := is_static l in if b then is_static r else Ok false
  | _ => Ok false
  end.

(** ** Python dictionaries *)

(** [a == b] on the values of the model.  A dataclass compares the class and
    the declared fields, not the attributes of [__post_init__]; plain values
    compare by value ([dict]s are compared in insertion order here). *)
Fixpoint py_eqb (a b : NodeType) {struct a} : bool :=
  let fix list_eqb (l1 l2 : list NodeType) {struct l1} : bool :=
    match l1, l2 with
    | [], [] => true
    | x :: l1', y :: l2' => py_eqb x y && list_eqb l1' l2'
    | _, _ => false
    end in
  let fix items_eqb (l1 l2 : list (NodeType * NodeType)) {struct l1} : bool :=
    match l1, l2 with
    | [], [] => true
    | (k1, v1) :: l1', (k2, v2) :: l2' =>
        py_eqb k1 k2 && py_eqb v1 v2 && items_eqb l1' l2'
    | _, _ => false
    end in
  let strs_eqb (l1 l2 : list string) : bool := bool_decide (l1 = l2) in
  match a, b with
  | PyNone, PyNone => true
  | PyInt x, PyInt y => Z.eqb x y
  | PyStr x, PyStr y => String.eqb x y
  | PyList x, PyList y => list_eqb x y
  | PyDict x, PyDict y => items_eqb x y
  | Dictionary _ k1 v1, Dictionary _ k2 v2 => list_eqb k1 k2 && list_eqb v1 v2
  | Number _ x, Number _ y => Z.eqb x y
  | String _ x, String _ y => String.eqb x y
  | Var _ n1 v1 t1, Var _ n2 v2 t2 =>
      String.eqb n1 n2 && py_eqb v1 v2 && String.eqb t1 t2
  | Attribute _ s1 a1 c1, Attribute _ s2 a2 c2 =>
      py_eqb s1 s2 && String.eqb a1 a2 && String.eqb c1 c2
  | Compare _ l1 o1 c1, Compare _ l2 o2 c2 =>
      py_eqb l1 l2 && list_eqb o1 o2 && list_eqb c1 c2
  | FunctionDef _ n1 a1 b1 d1 r1, FunctionDef _ n2 a2 b2 d2 r2 =>
      String.eqb n1 n2 && list_eqb a1 a2 && list_eqb b1 b2 && list_eqb d1 d2
      && py_eqb r1 r2
  | Call _ f1 a1 k1, Call _ f2 a2 k2 =>
      py_eqb f1 f2 && list_eqb a1 a2 && py_eqb k1 k2
  | Arguments _ a1 v1 ko1 k1 d1 kd1, Arguments _ a2 v2 ko2 k2 d2 kd2 =>
      strs_eqb a1 a2 && py_eqb v1 v2 && list_eqb ko1 ko2 && py_eqb k1 k2
      && list_eqb d1 d2 && list_eqb kd1 kd2
  | Import _ m1 a1 t1, Import _ m2 a2 t2 =>
      String.eqb m1 m2 && String.eqb a1 a2 && String.eqb t1 t2
  | BinOp _ o1 l1 r1, BinOp _ o2 l2 r2 =>
      String.eqb o1 o2 && py_eqb l1 l2 && py_eqb r1 r2
  | Print _ v1 d1, Print _ v2 d2 => list_eqb v1 v2 && py_eqb d1 d2
  | _, _ => false
  end.

(** [hash(x)] succeeds on [None], [int], [str] and on [Var], which defines
    [__hash__]; the other dataclasses define [__eq__] only and are, like
    a [list] and a [dict], unhashable. *)
Definition hashable (x : NodeType) : bool :=
  match x with
  | PyNone | PyInt _ | PyStr _ | Var _ _ _ _ => true
  | _ => false
  end.

(** [d[k] = v] on a dict kept in insertion order. *)
Fixpoint dict_setitem (d : list (NodeType * NodeType)) (k v : NodeType) : list (NodeType * NodeType) :=
  match d with
  | [] => [(k, v)]
  | (k', v') :: d' =>
      if py_eqb k' k then (k', v) :: d' else (k', v') :: dict_setitem d' k v
  end.

(** [dict(pairs)] *)
Fixpoint dict_of_pairs (pairs : list (NodeType * NodeType)) (acc : list (NodeType * NodeType))
  : result (list (NodeType * NodeType)) :=
  match pairs with
  | [] => Ok acc
  | (k, v) :: rest =>
      if hashable k then dict_of_pairs rest (dict_setitem acc k v)
      else raise TypeError "unhashable type"
  end.

(** [Dictionary.to_dict] *)
Definition to_dict (keys values : list NodeType) : result NodeType :=
  let* d := dict_of_pairs (zip keys values) [] in Ok (PyDict d).

(** ** The standard library's [inspect.Signature]

    [Call.get_signature] builds an [inspect.Signature] and [Call.bind] calls
    its [bind]; both are modelled after CPython 3.7 ([Lib/inspect.py]), the
    interpreter the repository is tested with.  Identifiers are modelled for
    ASCII names. *)

Module inspect.

Inductive _ParameterKind :=
| POSITIONAL_ONLY | POSITIONAL_OR_KEYWORD | VAR_POSITIONAL | KEYWORD_ONLY
| VAR_KEYWORD.

(** The kinds are an [IntEnum]. *)
Definition kind_value (k : _ParameterKind) : nat :=
  match k with
  | POSITIONAL_ONLY => 0
  | POSITIONAL_OR_KEYWORD => 1
  | VAR_POSITIONAL => 2
  | KEYWORD_ONLY => 3
  | VAR_KEYWORD => 4
  end.

Definition kind_eqb (a b : _ParameterKind) : bool :=
  Nat.eqb (kind_value a) (kind_value b).

(** [inspect.Parameter]; [default = None] stands for [Parameter.empty]. *)
Record Param := mkParam {
  name : string;
  kind : _ParameterKind;
  default : option NodeType;
}.

Definition between (lo hi : nat) (c : ascii) : bool :=
  Nat.leb lo (nat_of_ascii c) && Nat.leb (nat_of_ascii c) hi.

Definition is_digit (c : ascii) : bool := between 48 57 c.

Definition is_ident_start (c : ascii) : bool :=
  between 65 90 c || between 97 122 c || Nat.eqb (nat_of_ascii c) 95.

Fixpoint all_chars (p : ascii -> bool) (s : string) : bool :=
  match s with
  | EmptyString => true
  | String.String c r => p c && all_chars p r
  end.

(** [str.isdigit] *)
Definition isdigit (s : string) : bool :=
  match s with
  | EmptyString => false
  | _ => all_chars is_digit s
  end.

(** [str.isidentifier] *)
Definition isidentifier (s : string) : bool :=
  match s with
  | EmptyString => false
  | String.String c r =>
      is_ident_start c && all_chars (fun c => is_ident_start c || is_digit c) r
  end.

(** [Parameter.__init__(name, kind, default=default)] *)
Definition Parameter_init (name : string) (kind : _ParameterKind)
    (default : option NodeType) : result Param :=
  let finish (name : string) (kind : _ParameterKind) : result Param :=
    if isidentifier name then Ok (mkParam name kind default)
    else raise ValueError (repr_str name +:+ " is not a valid parameter name") in
  if bool_decide (default <> None)
     && (kind_eqb kind VAR_POSITIONAL || kind_eqb kind VAR_KEYWORD)
  then raise ValueError "parameters cannot have default values"
  else
    match name with
    | EmptyString => raise IndexError "string index out of range"
    | String.String c rest =>
        if Ascii.eqb c "." && isdigit rest then
          if negb (kind_eqb kind POSITIONAL_OR_KEYWORD)
          then raise ValueError
                 "implicit arguments must be passed as positional or keyword arguments"
          else finish ("implicit" +:+ rest) POSITIONAL_ONLY
        else finish name kind
    end.

(** The ordered mapping [Signature.parameters]. *)
Record Signature := mkSignature { parameters : list Param }.

(** The validation loop of [Signature.__init__]. *)
Fixpoint validate (ps : list Param) (top_kind : _ParameterKind)
    (kind_defaults : bool) (params : list Param) : result (list Param) :=
  match ps with
  | [] => Ok params
  | param :: rest =>
      if Nat.ltb (kind_value (kind param)) (kind_value top_kind)
      then raise ValueError "wrong parameter order"
      else
        let '(kind_defaults, top_kind) :=
          if Nat.ltb (kind_value top_kind) (kind_value (kind param))
          then (false, kind param) else (kind_defaults, top_kind) in
        let* kind_defaults :=
          (if kind_eqb (kind param) POSITIONAL_ONLY
              || kind_eqb (kind param) POSITIONAL_OR_KEYWORD
           then match default param with
                | None =>
                    if kind_defaults
                    then raise ValueError "non-default argument follows default argument"
                    else Ok kind_defaults
                | Some _ => Ok true
                end
           else Ok kind_defaults) in
        if bool_decide (name param ∈ map name params)
        then raise ValueError ("duplicate parameter name: " +:+ repr_str (name param))
        else validate rest top_kind kind_defaults (params ++ [param])
  end.

(** [Signature(parameters=params)] *)
Definition Signature_init (params : list Param) : result Signature :=
  let* ps := validate params POSITIONAL_ONLY false [] in Ok (mkSignature ps).

(** Keyword arguments and the [arguments] of a binding: ordered mappings
    from names to values. *)
Definition lookup_name (k : string) (d : list (string * NodeType)) : option NodeType :=
  snd <$> List.find (fun kv => String.eqb (fst kv) k) d.

Definition has_name (k : string) (d : list (string * NodeType)) : bool :=
  bool_decide (lookup_name k d <> None).

Definition remove_name (k : string) (d : list (string * NodeType))
  : list (string * NodeType) :=
  List.filter (fun kv => negb (String.eqb (fst kv) k)) d.

Fixpoint set_name (d : list (string * NodeType)) (k : string) (v : NodeType)
  : list (string * NodeType) :=
  match d with
  | [] => [(k, v)]
  | (k', v') :: d' =>
      if String.eqb k' k then (k', v) :: d' else (k', v') :: set_name d' k v
  end.

(** [BoundArguments] *)
Record BoundArguments := mkBound {
  signature : Signature;
  arguments : list (string * NodeType);
}.

(** The first loop of [Signature._bind]: the positional arguments are
    matched with the parameters from the left.  It returns the [arguments]
    bound so far and the parameters left for the second loop
    ([parameters_ex] followed by the rest of the iterator). *)
Fixpoint bind_positional (params : list Param) (args : list NodeType)
    (kwargs arguments : list (string * NodeType))
  : result (list (string * NodeType) * list Param) :=
  match args with
  | [] =>
      match params with
      | [] => Ok (arguments, [])
      | param :: rest =>
          if kind_eqb (kind param) VAR_POSITIONAL then Ok (arguments, rest)
          else if has_name (name param) kwargs then
            if kind_eqb (kind param) POSITIONAL_ONLY
            then raise TypeError
                   (repr_str (name param) +:+
                    " parameter is positional only, but was passed as a keyword")
            else Ok (arguments, param :: rest)
          else if kind_eqb (kind param) VAR_KEYWORD
                  || bool_decide (default param <> None)
          then Ok (arguments, param :: rest)
          else raise TypeError
                 ("missing a required argument: " +:+ repr_str (name param))
      end
  | arg_val :: args' =>
      match params with
      | [] => raise TypeError "too many positional arguments"
      | param :: rest =>
          if kind_eqb (kind param) VAR_KEYWORD
             || kind_eqb (kind param) KEYWORD_ONLY
          then raise TypeError "too many positional arguments"
          else if kind_eqb (kind param) VAR_POSITIONAL
          then Ok (set_name arguments (name param) (PyList (arg_val :: args')),
                   rest)
          else if has_name (name param) kwargs
          then raise TypeError
                 ("multiple values for argument " +:+ repr_str (name param))
          else bind_positional rest args' kwargs
                 (set_name arguments (name param) arg_val)
      end
  end.

(** The second loop of [Signature._bind]: the remaining parameters take
    their values from the keyword arguments. *)
Fixpoint bind_keywords (params : list Param)
    (kwargs arguments : list (string * NodeType)) (kwargs_param : option Param)
  : result (list (string * NodeType) * list (string * NodeType) * option Param) :=
  match params with
  | [] => Ok (arguments, kwargs, kwargs_param)
  | param :: rest =>
      if kind_eqb (kind param) VAR_KEYWORD
      then bind_keywords rest kwargs arguments (Some param)
      else if kind_eqb (kind param) VAR_POSITIONAL
      then bind_keywords rest kwargs arguments kwargs_param
      else
        match lookup_name (name param) kwargs with
        | None =>
            if bool_decide (default param = None)
            then raise TypeError
                   ("missing a required argument: " +:+ repr_str (name param))
            else bind_keywords rest kwargs arguments kwargs_param
        | Some arg_val =>
            if kind_eqb (kind param) POSITIONAL_ONLY
            then raise TypeError
                   (repr_str (name param) +:+
                    " parameter is positional only, but was passed as a keyword")
            else bind_keywords rest (remove_name (name param) kwargs)
                   (set_name arguments (name param) arg_val) kwargs_param
        end
  end.

(** A keyword mapping as a [dict] value. *)
Definition dict_of_kwargs (kwargs : list (string * NodeType)) : NodeType :=
  PyDict (map (fun kv => (PyStr (fst kv), snd kv)) kwargs).

(** [Signature.bind], called with positional and keyword arguments *)
Definition Signature_bind (sig : Signature) (args : list NodeType)
    (kwargs : list (string * NodeType)) : result BoundArguments :=
  let* (arguments, params) := bind_positional (parameters sig) args kwargs [] in
  let* (arguments, kwargs, kwargs_param) :=
    bind_keywords params kwargs arguments None in
  match kwargs with
  | [] => Ok (mkBound sig arguments)
  | (k, _) :: _ =>
      match kwargs_param with
      | Some p =>
          Ok (mkBound sig (set_name arguments (name p) (dict_of_kwargs kwargs)))
      | None =>
          raise TypeError ("got an unexpected keyword argument " +:+ repr_str k)
      end
  end.

(** The loop of the property [BoundArguments.args]. *)
Fixpoint args_loop (params : list Param) (arguments : list (string * NodeType))
  : list NodeType :=
  match params with
  | [] => []
  | param :: rest =>
      if kind_eqb (kind param) VAR_KEYWORD || kind_eqb (kind param) KEYWORD_ONLY
      then []
      else
        match lookup_name (name param) arguments with
        | None => []
        | Some arg =>
            if kind_eqb (kind param) VAR_POSITIONAL
            then match arg with
                 | PyList l => l ++ args_loop rest arguments
                 | _ => args_loop rest arguments
                 end
            else arg :: args_loop rest arguments
        end
  end.

(** [BoundArguments.args] *)
Definition BoundArguments_args (b : BoundArguments) : list NodeType :=
  args_loop (parameters (signature b)) (arguments b).

End inspect.

(** Unpacking a mapping into keyword arguments: the keys must be strings. *)
Fixpoint keyword_items (items : list (NodeType * NodeType))
  : result (list (string * NodeType)) :=
  match items with
  | [] => Ok []
  | (PyStr k, v) :: rest => let* r := keyword_items rest in Ok ((k, v) :: r)
  | _ => raise TypeError "keywords must be strings"
  end.

Definition unpack_kwargs (kw : NodeType) : result (list (string * NodeType)) :=
  match kw with
  | PyDict items => keyword_items items
  | _ => raise TypeError "argument after ** must be a mapping"
  end.

(** [t[i]] on a tuple *)
Definition getitem (t : list NodeType) (i : nat) : result NodeType :=
  match t !! i with
  | Some x => Ok x
  | None => raise IndexError "tuple index out of range"
  end.

(** [for x in l: acc.append(f(x))] with [f] that may raise *)
Fixpoint mapM {A B} (f : A -> result B) (l : list A) : result (list B) :=
  match l with
  | [] => Ok []
  | x :: l' => let* y := f x in let* r := mapM f l' in Ok (y :: r)
  end.

(** ** [nodes.py]: the signature methods of [Call] *)

(** [Call.get_signature]: [sig_args] are its positional arguments and
    [sig_kwargs] its extra keyword arguments, in call order;
    [aura_capture_args] is accepted and not used. *)
Definition get_signature (sig_args : list string)
    (aura_capture_args aura_capture_kwargs : option string)
    (sig_kwargs : list (string * NodeType)) : result inspect.Signature :=
  let* p1 := mapM (fun x => inspect.Parameter_init x inspect.POSITIONAL_ONLY None)
          sig_args in
  let* p2 := mapM (fun kv => inspect.Parameter_init (fst kv)
                          inspect.POSITIONAL_OR_KEYWORD (Some (snd kv)))
          sig_kwargs in
  let* p3 := match aura_capture_kwargs with
        | Some n =>
            if String.eqb n "" then Ok []
            else let* p := inspect.Parameter_init n inspect.VAR_KEYWORD None in Ok [p]
        | None => Ok []
        end in
  inspect.Signature_init (p1 ++ p2 ++ p3).

(** [Call.bind(signature)] *)
Definition Call_bind (self : NodeType) (signature : inspect.Signature)
  : result inspect.BoundArguments :=
  match self with
  | Call _ _ args kwargs =>
      let* kw := match kwargs with
            | Dictionary _ keys values => to_dict keys values
            | _ => Ok kwargs
            end in
      let* kwd := unpack_kwargs kw in
      inspect.Signature_bind signature args kwd
  | _ => raise AttributeError "object has no attribute 'bind'"
  end.

(** [Call.apply_signature], with the arguments of [get_signature] *)
Definition apply_signature (self : NodeType) (sig_args : list string)
    (aura_capture_args aura_capture_kwargs : option string)
    (sig_kwargs : list (string * NodeType)) : result inspect.BoundArguments :=
  match self with
  | Call _ _ _ _ =>
      let* sig := get_signature sig_args aura_capture_args aura_capture_kwargs
               sig_kwargs in
      Call_bind self sig
  | _ => raise AttributeError "object has no attribute 'apply_signature'"
  end.

(** [str(z)] and the formatting of an optional integer in an f-string *)
Definition str_of_Z (z : Z) : string := NilZero.string_of_int (Z.to_int z).

Definition str_of_opt_Z (o : option Z) : string :=
  match o with Some z => str_of_Z z | None => "None" end.

Definition of_opt_Z (o : option Z) : NodeType :=
  match o with Some z => PyInt z | None => PyNone end.

(** [nodes.Context], as far as the analyzers read it: the node and the
    visitor, of which only [path] is used. *)
Record Visitor := mkVisitor { path : string }.

Record Context := mkContext {
  node : NodeType;
  visitor : Visitor;
  depth : nat;
  modified : bool;
}.

(** ** Detections and configuration *)

Module rules.

Inductive RuleClass :=
| SuspiciousArchiveEntry | ArchiveAnomaly | CryptoKeyGeneration.

(** Modelled from the spec: the base class [rules.Rule] is not among the
    sources; a Finding is a record of [location], [message], [signature],
    [score] and [extra].  The constructor is always called with keywords:
    [location], [message] and [score] are [None] here when the call does
    not pass them, which leaves whatever default the base class declares. *)
Record Rule := mkRule {
  cls : RuleClass;
  location : option string;
  message : option string;
  signature : string;
  score : option Z;
  extra : list (string * NodeType);
}.

(** [hit.score = s] *)
Definition set_score (s : Z) (hit : Rule) : Rule :=
  mkRule (cls hit) (location hit) (message hit) (signature hit) (Some s)
    (extra hit).

(** [hit.extra[k]] *)
Definition extra_get (k : string) (hit : Rule) : option NodeType :=
  inspect.lookup_name k (extra hit).

(** Modelled from the spec: the default that [rules.Rule] declares for
    [score] is not among the sources.  The spec gives the severity of the
    oversized-entry finding of the general case, which the code builds
    without a score, as 10. *)
Definition default_score : Z := 10.

(** The severity of a finding: the score it was built with or was
    assigned, else the default of the class. *)
Definition severity (hit : Rule) : Z := default default_score (score hit).

End rules.

Module config.

(** The configuration file, as far as the modelled code reads it: the
    maximum archive size and the per-rule score overrides. *)
Record Config := mkConfig {
  max_archive_size : option Z;
  scores : gmap string Z;
}.

(** Modelled from the spec: [config.get_maximum_archive_size] is not among
    the sources; it is a side-effect-free read of the configuration that
    returns an integer or none. *)
Definition get_maximum_archive_size (cfg : Config) : option Z :=
  max_archive_size cfg.

(** Modelled from the spec: [config.get_score_or_default] is not among the
    sources; it is a side-effect-free read that returns the score
    configured for the rule, or the given default. *)
Definition get_score_or_default (cfg : Config) (rule_name : string)
    (fallback : Z) : Z :=
  default fallback (scores cfg !! rule_name).

End config.

(** ** [crypto.py]: the key-generation analyzer *)

Module crypto.

Record key_info := mkInfo { type : string; lib : string }.

Definition CRYPTO_GEN_KEYS : gmap string key_info :=
  list_to_map [
    ("cryptography.hazmat.primitives.asymmetric.dsa.generate_private_key",
     mkInfo "dsa" "cryptography");
    ("cryptography.hazmat.primitives.asymmetric.dsa.generate_parameters",
     mkInfo "dsa" "cryptography");
    ("cryptography.hazmat.primitives.asymmetric.rsa.generate_private_key",
     mkInfo "rsa" "cryptography");
    ("cryptography.hazmat.primitives.asymmetric.rsa.generate_parameters",
     mkInfo "rsa" "cryptography");
    ("Crypto.PublicKey.DSA.generate", mkInfo "dsa" "crypto");
    ("Crypto.PublicKey.RSA.generate", mkInfo "rsa" "crypto");
    ("Cryptodome.PublicKey.DSA.generate", mkInfo "dsa" "crypto");
    ("Cryptodome.PublicKey.RSA.generate", mkInfo "rsa" "crypto")
  ].

Definition MIN_KEY_SIZES : gmap string Z :=
  list_to_map [("rsa", 2048%Z); ("dsa", 2048%Z)].

(** [CryptoGenKey._gen_hit(context, info, key_size)] *)
Definition _gen_hit (context : Context) (info : key_info)
    (key_size : option Z) : result rules.Rule :=
  match node_meta (node context) with
  | None => raise AttributeError "object has no attribute 'line_no'"
  | Some m =>
      let hit :=
        rules.mkRule rules.CryptoKeyGeneration None
          (Some "Generation of cryptography key detected")
          ("crypto#gen_key#" +:+ path (visitor context) +:+ "#"
             +:+ str_of_opt_Z (line_no m))
          None
          [("function", full_name (node context));
           ("key_type", PyStr (type info));
           ("key_size", of_opt_Z key_size)] in
      match key_size with
      | Some k =>
          if (k <? default 0 (MIN_KEY_SIZES !! type info))%Z
          then Ok (rules.set_score 100 hit) else Ok hit
      | None => Ok hit
      end
  end.

(** [CryptoGenKey._lib_cryptography(context, info)]: the hits it yields *)
Definition _lib_cryptography (context : Context) (info : key_info)
  : result (list rules.Rule) :=
  match apply_signature (node context) ["key_size"] None None
          [("backend", PyNone)] with
  | Raise e =>
      (* Signature call doesn't match parameters/kws *)
      if exc_class_eqb (exc_cls e) TypeError then Ok [] else Raise e
  | Ok signature =>
      let* key_size := getitem (inspect.BoundArguments_args signature) 0 in
      match key_size with
      | Number _ value =>
          let* hit := _gen_hit context info (Some value) in Ok [hit]
      | PyInt z => let* hit := _gen_hit context info (Some z) in Ok [hit]
      | _ => Ok []
      end
  end.

(** [CryptoGenKey._lib_crypto(context, info)]: the hits it yields *)
Definition _lib_crypto (context : Context) (info : key_info)
  : result (list rules.Rule) :=
  match apply_signature (node context) ["bits"] None None
          [("randfunc", PyNone); ("domain", PyNone)] with
  | Raise e =>
      if exc_class_eqb (exc_cls e) TypeError then Ok [] else Raise e
  | Ok signature =>
      let* key_size := getitem (inspect.BoundArguments_args signature) 0 in
      match key_size with
      | Number _ value =>
          let* hit := _gen_hit context info (Some value) in Ok [hit]
      | PyInt z => let* hit := _gen_hit context info (Some z) in Ok [hit]
      | _ => Ok []
      end
  end.

(** [CryptoGenKey.node_Call(context)]: the hits it yields *)
Definition node_Call (context : Context) : result (list rules.Rule) :=
  if negb (is_ASTNode (node context))
  then raise AttributeError "object has no attribute 'full_name'"
  else
    match full_name (node context) with
    | PyStr f_name =>
        match CRYPTO_GEN_KEYS !! f_name with
        | Some target =>
            if String.eqb (lib target) "cryptography"
            then _lib_cryptography context target
            else if String.eqb (lib target) "crypto"
            then _lib_crypto context target
            else raise AttributeError "object has no attribute '_lib_'"
        | None => Ok []
        end
    | _ => Ok []
    end.

End crypto.

(** ** Paths ([str.startswith], [str.split], [pathlib], [os.path]) *)

(** [s.startswith(prefix)] *)
Definition startswith (s prefix : string) : bool := String.prefix prefix s.

(** [s.split(sep)] for a one-character separator *)
Fixpoint split (sep : ascii) (s : string) : list string :=
  match s with
  | EmptyString => [EmptyString]
  | String.String c r =>
      if Ascii.eqb c sep then EmptyString :: split sep r
      else match split sep r with
           | [] => [String.String c EmptyString]
           | h :: t => String.String c h :: t
           end
  end.

(** [s.lstrip('/')] *)
Fixpoint lstrip_sep (s : string) : string :=
  match s with
  | String.String c r => if Ascii.eqb c "/" then lstrip_sep r else s
  | EmptyString => EmptyString
  end.

(** [_PosixFlavour.splitroot]: the root and the rest of a path *)
Definition splitroot (part : string) : string * string :=
  if startswith part "/" then
    let stripped_part := lstrip_sep part in
    if Nat.eqb (String.length part - String.length stripped_part) 2
    then ("//", stripped_part) else ("/", stripped_part)
  else ("", part).

(** [Path(pth).parts] on a POSIX system: the root, if any, followed by the
    components that are neither empty nor ["."]. *)
Definition parts (pth : string) : list string :=
  if String.eqb pth "" then []
  else
    let '(root, rel) := splitroot pth in
    (if String.eqb root "" then [] else [root])
    ++ List.filter (fun x => negb (String.eqb x "") && negb (String.eqb x "."))
         (split "/" rel).

(** [os.path.basename] *)
Definition basename (p : string) : string := List.last (split "/" p) "".

(** ** [archive.py]: the archive safety layer *)

Module archive.

Import rules.

Definition SUPPORTED_MIME : list string :=
  ["application/x-gzip"; "application/gzip"; "application/x-bzip2";
   "application/zip"].

(** [zipfile.ZipInfo] *)
Record ZipInfo := mkZipInfo { filename : string; file_size : Z }.

(** [tarfile.TarInfo] and the member types of [tarfile] *)
Inductive tar_type :=
| REGTYPE | AREGTYPE | LNKTYPE | SYMTYPE | CHRTYPE | BLKTYPE | DIRTYPE
| FIFOTYPE | CONTTYPE | GNUTYPE_SPARSE.

Record TarInfo := mkTarInfo { name : string; size : Z; type : tar_type }.

Definition isdir (member : TarInfo) : bool :=
  match type member with DIRTYPE => true | _ => false end.

Definition issym (member : TarInfo) : bool :=
  match type member with SYMTYPE => true | _ => false end.

Definition islnk (member : TarInfo) : bool :=
  match type member with LNKTYPE => true | _ => false end.

(** [TarInfo.isfile]: the type is one of [tarfile.REGULAR_TYPES] *)
Definition isfile (member : TarInfo) : bool :=
  match type member with
  | REGTYPE | AREGTYPE | CONTTYPE | GNUTYPE_SPARSE => true
  | _ => false
  end.

(** Modelled from the spec: [uri_handlers.base.ScanLocation] is not among
    the sources; a Scan Location is a path, a metadata mapping that holds
    the detected content-type under ["mime"], an optional parent and the
    [cleanup] flag. *)
Inductive ScanLocation := mkLocation {
  location : string;
  metadata : gmap string NodeType;
  parent : option ScanLocation;
  cleanup : bool;
}.

(** What one run of the analyzer finds in its environment: the
    configuration, the file system, the archive libraries, and two helpers
    of the repository that are not among the sources
    ([utils.normalize_path] and the metadata that
    [ScanLocation.create_child] derives for a child).  [mkdtemp] is the
    outcome of the call of [tempfile.mkdtemp] in this run: the directory it
    creates, or the [OSError] it raises (a name that is too long, no space
    left); a later run finds another environment, and gets another
    directory. *)
Record World := mkWorld {
  cfg : config.Config;
  normalize_path : string -> string;
  is_dir : string -> bool;
  mkdtemp : string -> string -> result string;         (* prefix, suffix *)
  ZipFile : string -> result (list ZipInfo);           (* open + infolist *)
  tarfile_open : string -> result (list TarInfo);      (* open + getmembers *)
  zip_extract : ZipInfo -> string -> option exn;
  tar_extract : TarInfo -> string -> option exn;
  child_metadata : ScanLocation -> string -> gmap string NodeType;
}.

(** Modelled from the spec: [ScanLocation.create_child] creates a child
    location that derives its metadata from the parent and records the
    parent relation. *)
Definition create_child (w : World) (self : ScanLocation)
    (new_location : string) (cleanup : bool) : ScanLocation :=
  mkLocation new_location (child_metadata w self new_location) (Some self)
    cleanup.

(** [metadata["mime"]] *)
Definition metadata_mime (loc : ScanLocation) : result NodeType :=
  match metadata loc !! "mime" with
  | Some v => Ok v
  | None => raise KeyError "mime"
  end.

(** [ArchiveAnomaly.from_generic_exception(location, exc)] *)
Definition from_generic_exception (w : World) (loc : ScanLocation) (exc : exn)
  : result Rule :=
  let score := config.get_score_or_default (cfg w) "corrupted-archive" 10 in
  let* exc_message := getitem (exc_args exc) 0 in
  let* mime := metadata_mime loc in
  Ok (mkRule ArchiveAnomaly
        (Some (location loc))
        (Some "Could not open the archive for analysis")
        ("archive_anomaly#read_error#" +:+ location loc)
        (Some score)
        [("reason", PyStr "archive_read_error");
         ("exc_message", exc_message);
         ("exc_type", PyStr (class_name (exc_cls exc)));
         ("mime", mime)]).

(** [is_suspicious(pth, location)] *)
Definition is_suspicious (w : World) (pth location : string) : option Rule :=
  let norm := normalize_path w pth in
  if startswith pth "/" then
    Some (mkRule SuspiciousArchiveEntry
            (Some (normalize_path w location))
            None
            ("suspicious_archive_entry#absolute_path#" +:+ norm +:+ "#"
               +:+ location)
            (Some (config.get_score_or_default (cfg w)
                     "suspicious-archive-entry-absolute-path" 50))
            [("entry_type", PyStr "absolute_path"); ("entry_path", PyStr norm)])
  else if existsb (fun x => String.eqb x "..") (parts pth) then
    Some (mkRule SuspiciousArchiveEntry
            (Some (normalize_path w location))
            None
            ("suspicious_archive_entry#parent_reference#" +:+ norm +:+ "#"
               +:+ location)
            (Some (config.get_score_or_default (cfg w)
                     "suspicious-archive-entry-parent-reference" 50))
            [("entry_type", PyStr "parent_reference"); ("entry_path", PyStr norm)])
  else None.

(** The hit that [filter_zip] builds for an oversized entry; no [score] is
    passed to the constructor. *)
Definition zip_size_hit (path pth : string) (file_size max_size : Z) : Rule :=
  mkRule ArchiveAnomaly
    (Some path)
    (Some "Archive contain a file that exceed the configured maximum size")
    ("archive_anomaly#size#" +:+ path +:+ "#" +:+ pth)
    None
    [("archive_path", PyStr pth);
     ("reason", PyStr "file_size_exceeded");
     ("size", PyInt file_size);
     ("limit", PyInt max_size)].

(** The hit that [filter_tar] builds for an oversized regular file. *)
Definition tar_size_hit (w : World) (path pth : string) (size max_size : Z)
  : Rule :=
  mkRule ArchiveAnomaly
    (Some path)
    (Some "Archive contain a file that exceed the configured maximum size")
    ("archive_anomaly#size#" +:+ path +:+ "#" +:+ pth)
    (Some (config.get_score_or_default (cfg w) "archive-file-size-exceeded" 100))
    [("archive_path", PyStr pth);
     ("reason", PyStr "file_size_exceeded");
     ("size", PyInt size);
     ("limit", PyInt max_size)].

(** The body of the loop of [filter_zip]: what it yields for one entry. *)
Definition zip_entry (w : World) (path : string) (max_size : option Z)
    (x : ZipInfo) : list (ZipInfo + Rule) :=
  let pth := filename x in
  match is_suspicious w (filename x) path with
  | Some res => [inr res]
  | None =>
      match max_size with
      | Some m =>
          if (m <? file_size x)%Z
          then [inr (zip_size_hit path pth (file_size x) m)]
          else [inl x]
      | None => [inl x]
      end
  end.

(** [filter_zip(arch, path, max_size)]: the items it yields, in order.  A
    missing [max_size] is replaced by the configured maximum. *)
Definition filter_zip (w : World) (arch : list ZipInfo) (path : string)
    (max_size : option Z) : list (ZipInfo + Rule) :=
  let max_size :=
    match max_size with
    | None => config.get_maximum_archive_size (cfg w)
    | Some m => Some m
    end in
  concat (map (zip_entry w path max_size) arch).

(** The body of the loop of [filter_tar]: what it yields for one member. *)
Definition tar_member (w : World) (path : string) (max_size : option Z)
    (member : TarInfo) : list (TarInfo + Rule) :=
  let pth := name member in
  match is_suspicious w pth path with
  | Some res => [inr res]
  | None =>
      if isdir member then [inl member]
      else if issym member || islnk member then []
      else if isfile member then
        match max_size with
        | Some m =>
            if (m <? size member)%Z
            then [inr (tar_size_hit w path pth (size member) m)]
            else [inl member]
        | None => [inl member]
        end
      else []
  end.

(** [filter_tar(arch, path, max_size)]: the items it yields, in order.  When
    [max_size] is missing the configured maximum is read and the result of
    the call is dropped: [max_size] stays [None]. *)
Definition filter_tar (w : World) (arch : list TarInfo) (path : string)
    (max_size : option Z) : list (TarInfo + Rule) :=
  let _ :=
    match max_size with
    | None => config.get_maximum_archive_size (cfg w)
    | Some m => Some m
    end in
  concat (map (tar_member w path max_size) arch).

(** *** Generators as traces

    A generator that also calls [extract] is modelled by the sequence of
    its observable steps, in order, and by the exception that ends it, if
    one does.  A consumer that stops early sees a prefix of the trace. *)

Inductive item :=
| Location (l : ScanLocation)
| Hit (r : Rule).

Inductive event :=
| Mkdtemp (dir : string)                       (* tempfile.mkdtemp returned *)
| Yield (x : item)                             (* the generator yields *)
| ExtractZip (member : ZipInfo) (dir : string) (* fd.extract is called *)
| ExtractTar (member : TarInfo) (dir : string).

Definition run : Type := list event * option exn.

Definition done : run := ([], None).
Definition fail (e : exn) : run := ([], Some e).

(** One step followed by the rest of the run. *)
Definition step (e : event) (r : run) : run := (e :: fst r, snd r).

(** The loop of [process_zipfile] over the items of [filter_zip]. *)
Fixpoint extract_zip (w : World) (tmp_dir : string)
    (items : list (ZipInfo + Rule)) : run :=
  match items with
  | [] => done
  | inl x :: rest =>
      step (ExtractZip x tmp_dir)
        match zip_extract w x tmp_dir with
        | Some e => fail e
        | None => extract_zip w tmp_dir rest
        end
  | inr x :: rest => step (Yield (Hit x)) (extract_zip w tmp_dir rest)
  end.

(** [process_zipfile(path, tmp_dir)] *)
Definition process_zipfile (w : World) (path tmp_dir : string) : run :=
  match ZipFile w path with
  | Raise e => fail e
  | Ok fd => extract_zip w tmp_dir (filter_zip w fd path None)
  end.

(** The loop of [process_tarfile] over the items of [filter_tar]. *)
Fixpoint extract_tar (w : World) (tmp_dir : string)
    (items : list (TarInfo + Rule)) : run :=
  match items with
  | [] => done
  | inl x :: rest =>
      step (ExtractTar x tmp_dir)
        match tar_extract w x tmp_dir with
        | Some e => fail e
        | None => extract_tar w tmp_dir rest
        end
  | inr x :: rest => step (Yield (Hit x)) (extract_tar w tmp_dir rest)
  end.

(** [process_tarfile(path, tmp_dir)] *)
Definition process_tarfile (w : World) (path tmp_dir : string) : run :=
  match tarfile_open w path with
  | Raise e => fail e
  | Ok fd => extract_tar w tmp_dir (filter_tar w fd path None)
  end.

(** [mime in SUPPORTED_MIME] *)
Definition supported (mime : NodeType) : bool :=
  match mime with
  | PyStr s => bool_decide (s ∈ SUPPORTED_MIME)
  | _ => false
  end.

(** [except (tarfile.ReadError, zipfile.BadZipFile)] *)
Definition is_read_error (e : exn) : bool :=
  exc_class_eqb (exc_cls e) ReadError || exc_class_eqb (exc_cls e) BadZipFile.

(** [tempfile.mkdtemp(prefix="aura_pkg__sandbox",
    suffix=os.path.basename(location.location))] *)
Definition make_tmp_dir (w : World) (loc : ScanLocation) : result string :=
  mkdtemp w "aura_pkg__sandbox" (basename (location loc)).

(** The temporary directory of a run in which [mkdtemp] returns; the
    empty path when it raises and there is none. *)
Definition extraction_dir (w : World) (loc : ScanLocation) : string :=
  match make_tmp_dir w loc with
  | Ok tmp_dir => tmp_dir
  | Raise _ => ""
  end.

(** The body of the [try] block of [archive_analyzer]. *)
Definition unpack (w : World) (loc : ScanLocation) (mime : NodeType)
    (tmp_dir : string) : run :=
  if py_eqb mime (PyStr "application/zip")
  then process_zipfile w (location loc) tmp_dir
  else if supported mime
  then process_tarfile w (location loc) tmp_dir
  else done.

(** The [except] clause of [archive_analyzer], applied to the run of the
    [try] block. *)
Definition except_read_error (w : World) (loc : ScanLocation) (body : run)
  : run :=
  match snd body with
  | Some exc =>
      if is_read_error exc then
        match from_generic_exception w loc exc with
        | Ok hit => ((fst body ++ [Yield (Hit hit)])%list, None)
        | Raise e => (fst body, Some e)
        end
      else body
  | None => body
  end.

(** [archive_analyzer(location=location)] *)
Definition archive_analyzer (w : World) (loc : ScanLocation) : run :=
  if is_dir w (location loc) then done
  else
    match metadata_mime loc with
    | Raise e => fail e
    | Ok mime =>
        if negb (supported mime) then done
        else
          match make_tmp_dir w loc with
          | Raise e => fail e
          | Ok tmp_dir =>
              step (Mkdtemp tmp_dir)
                (step (Yield (Location (create_child w loc tmp_dir true)))
                   (except_read_error w loc (unpack w loc mime tmp_dir)))
          end
    end.

End archive.

(** ** Definitions used in the statements *)

(** Whether an entry is suspicious depends on its path only. *)
Definition suspicious_path (pth : string) : bool :=
  startswith pth "/" || existsb (fun x => String.eqb x "..") (parts pth).

(** The signature that [get_signature] builds for the shape [(a, b=dflt)]. *)
Definition shape_a_b (a b : string) (dflt : NodeType) : inspect.Signature :=
  inspect.mkSignature
    [inspect.mkParam a inspect.POSITIONAL_ONLY None;
     inspect.mkParam b inspect.POSITIONAL_OR_KEYWORD (Some dflt)].

(** The callee of [Crypto.PublicKey.RSA.generate(...)] after [import Crypto]. *)
Definition Crypto_PublicKey_RSA : NodeType :=
  Attribute post_init
    (Attribute post_init (Import post_init "Crypto" "Crypto" "import")
       "PublicKey" "load")
    "RSA" "load".

Definition deep_attribute : NodeType :=
  Attribute post_init Crypto_PublicKey_RSA "generate" "load".

(** [rsa.generate_private_key(...)] after
    [from cryptography.hazmat.primitives.asymmetric import rsa] *)
Definition rsa_generate_private_key : NodeType :=
  Attribute post_init
    (Import post_init "cryptography.hazmat.primitives.asymmetric.rsa" "rsa"
       "from")
    "generate_private_key" "load".

(** A world without score overrides, with the given maximum archive size
    and archive contents, in which every extraction succeeds. *)
Definition world (max_size : option Z) (zip : list archive.ZipInfo)
    (tar : list archive.TarInfo) : archive.World :=
  archive.mkWorld (config.mkConfig max_size ∅)
    (fun p => p)
    (fun _ => false)
    (fun prefix suffix => Ok ("/tmp/" +:+ prefix +:+ suffix))
    (fun _ => Ok zip)
    (fun _ => Ok tar)
    (fun _ _ => None)
    (fun _ _ => None)
    (fun parent _ => archive.metadata parent).

(** A world in which no archive can be opened. *)
Definition corrupt_world : archive.World :=
  archive.mkWorld (config.mkConfig None ∅)
    (fun p => p)
    (fun _ => false)
    (fun prefix suffix => Ok ("/tmp/" +:+ prefix +:+ suffix))
    (fun _ => raise BadZipFile "File is not a zip file")
    (fun _ => raise ReadError "file could not be opened successfully")
    (fun _ _ => None)
    (fun _ _ => None)
    (fun parent _ => archive.metadata parent).

Definition file_location (path mime : string) : archive.ScanLocation :=
  archive.mkLocation path {[ "mime" := PyStr mime ]} None false.

Definition zip_location : archive.ScanLocation :=
  file_location "pkg.zip" "application/zip".

Definition tar_location : archive.ScanLocation :=
  file_location "pkg.tar.gz" "application/gzip".

Definition big_member : archive.TarInfo :=
  archive.mkTarInfo "data.bin" 10 archive.REGTYPE.

Definition big_entry : archive.ZipInfo := archive.mkZipInfo "data.bin" 10.

(** A world with a maximum archive size of 5 and one entry of size 10 in
    each archive, and a world with no maximum and empty archives. *)
Definition limit_world : archive.World :=
  world (Some 5%Z) [big_entry] [big_member].

Definition plain_world : archive.World := world None [] [].

(** [generate_private_key(key_size=1024)] *)
Definition keyword_call : NodeType :=
  Call post_init rsa_generate_private_key []
    (PyDict [(PyStr "key_size", Number post_init 1024)]).

(** A world in which the archive opens and every extraction fails. *)
Definition failing_world : archive.World :=
  archive.mkWorld (config.mkConfig None ∅)
    (fun p => p)
    (fun _ => false)
    (fun prefix suffix => Ok ("/tmp/" +:+ prefix +:+ suffix))
    (fun _ => Ok [archive.mkZipInfo "a.txt" 1; archive.mkZipInfo "b.txt" 2])
    (fun _ => Ok [])
    (fun _ _ => Some (Exn OSError [PyStr "No space left on device"]))
    (fun _ _ => None)
    (fun parent _ => archive.metadata parent).

(** A world in which the compressed stream of the tar archive ends early:
    the decompressor raises [EOFError] while [tarfile] reads the headers. *)
Definition truncated_world : archive.World :=
  archive.mkWorld (config.mkConfig None ∅)
    (fun p => p)
    (fun _ => false)
    (fun prefix suffix => Ok ("/tmp/" +:+ prefix +:+ suffix))
    (fun _ => Ok [])
    (fun _ => raise EOFError
                "Compressed file ended before the end-of-stream marker was reached")
    (fun _ _ => None)
    (fun _ _ => None)
    (fun parent _ => archive.metadata parent).

(** A world in which [mkdtemp] cannot create the directory. *)
Definition no_directory_world : archive.World :=
  archive.mkWorld (config.mkConfig None ∅)
    (fun p => p)
    (fun _ => false)
    (fun _ _ => Raise (Exn OSError [PyInt 36; PyStr "File name too long"]))
    (fun _ => Ok [archive.mkZipInfo "a.txt" 1])
    (fun _ => Ok [])
    (fun _ _ => None)
    (fun _ _ => None)
    (fun parent _ => archive.metadata parent).

(** * Further definitions *)

(** ** [nodes.py]: the operators of [String] *)

(** The outcome of a rewrite operator: the new node, or the exception
    [exceptions.ASTNodeRewrite], whose message names the type of [other],
    or an exception of the [str] operation underneath. *)
Inductive rewrite_result :=
| Rewritten (n : NodeType)
| ASTNodeRewrite (other : NodeType)
| OverflowError          (* the count or the repeated length is too large *)
| MemoryError.           (* the repeated string cannot be allocated *)

(** The limits of the interpreter that runs the code: [sys.maxsize], the
    largest index and the largest length of an object, and whether a [str]
    of a given length can be allocated when the operator is called. *)
Record Limits := mkLimits { maxsize : Z; allocates : Z -> bool }.

(** The repetition of a [str]: [n] copies of [s], none for [n <= 0].
    It is what [s * n] evaluates to when the operator does not raise. *)
Fixpoint str_repeat (s : string) (n : nat) : string :=
  match n with
  | O => ""
  | S n' => s +:+ str_repeat s n'
  end.

Definition str_mul (s : string) (n : Z) : string := str_repeat s (Z.to_nat n).

(** [String.__add__(self, other)], with [value] for [self.value]; the new
    node is built by the constructor and so starts from [post_init]. *)
Definition String_add (value : string) (other : NodeType) : rewrite_result :=
  match other with
  | String _ other_value => Rewritten (String post_init (value +:+ other_value))
  | _ => ASTNodeRewrite other
  end.

(** [String.__mul__(self, other)], with [value] for [self.value].  The
    product [self.value*other] is the repetition of [str]: the count must
    fit an index ([OverflowError] otherwise); a count below one gives the
    empty string and the count one the string itself; else the repeated
    length must not exceed [sys.maxsize] ([OverflowError]) and the result
    must be allocated ([MemoryError]). *)
Definition String_mul (lim : Limits) (value : string) (other : NodeType)
  : rewrite_result :=
  match other with
  | PyInt n =>
      if (n <? - maxsize lim - 1)%Z || (maxsize lim <? n)%Z then OverflowError
      else if (n <? 1)%Z then Rewritten (String post_init "")
      else if (n =? 1)%Z then Rewritten (String post_init value)
      else
        let len := Z.of_nat (String.length value) in
        if (maxsize lim / n <? len)%Z then OverflowError
        else if (n * len =? 0)%Z || allocates lim (n * len)
        then Rewritten (String post_init (str_mul value n))
        else MemoryError
  | _ => ASTNodeRewrite other
  end.

(** A 64-bit interpreter that can allocate a [str] of up to [2^32]
    characters. *)
Definition limits_64 : Limits :=
  mkLimits (2 ^ 63 - 1) (fun n => (n <=? 2 ^ 32)%Z).

(** ** [nodes.py]: the child enumeration of the traversal *)

Module traversal.

(** The [replace] capability that [_visit_node] hands out with a child: the
    bound method together with the index or key that [partial] fixes. *)
Inductive Slot :=
| Value                    (* Var.__replace_value *)
| Source                   (* Attribute.__replace_source *)
| Args (idx : nat)         (* FunctionDef.__replace_args *)
| Body (idx : nat)         (* FunctionDef.__replace_body *)
| Decorator (idx : nat)    (* FunctionDef.__replace_decorator *)
| Arg (idx : nat)          (* Call.__replace_arg *)
| Kwarg (key : NodeType)   (* Call.__replace_kwargs *)
| Func.                    (* Call.__replace_func *)

Inductive Capability :=
| ReplaceName              (* Var.__replace_name *)
| Replace (s : Slot).

(** An element of [visitor.queue]: the new [Context], with the two fields
    that the record [Context] leaves out. *)
Record Entry := mkEntry {
  context : Context;
  parent : Context;
  replace_ : Capability;
}.

(** [Context.as_child(node, replace)]: [modified] takes its default. *)
Definition as_child (self : Context) (n : NodeType) : Context :=
  mkContext n (visitor self) (depth self + 1) false.

(** [Context.visit_child(node=n, replace=cap)]: the queue afterwards *)
Definition visit_child (self : Context) (queue : list Entry) (n : NodeType)
    (cap : Capability) : list Entry :=
  (queue ++ [mkEntry (as_child self n) self cap])%list.

(** [for idx, x in enumerate(l): context.visit_child(x, replace(idx))] *)
Fixpoint visit_list (self : Context) (queue : list Entry) (slot : nat -> Slot)
    (idx : nat) (l : list NodeType) : list Entry :=
  match l with
  | [] => queue
  | x :: l' =>
      visit_list self (visit_child self queue x (Replace (slot idx))) slot
        (S idx) l'
  end.

(** [list(kwargs.keys())]: a [dict] has keys; on a [Dictionary] node [keys]
    is the list field, which is not callable; nothing else has [keys]. *)
Definition dict_keys (kwargs : NodeType) : result (list NodeType) :=
  match kwargs with
  | PyDict items => Ok (map fst items)
  | Dictionary _ _ _ => raise TypeError "'list' object is not callable"
  | _ => raise AttributeError "object has no attribute 'keys'"
  end.

(** [d[key]] on a [dict] *)
Fixpoint dict_getitem (d : list (NodeType * NodeType)) (key : NodeType)
  : result NodeType :=
  match d with
  | [] => raise KeyError "key"
  | (k, v) :: d' => if py_eqb k key then Ok v else dict_getitem d' key
  end.

(** [kwargs[key]] *)
Definition getitem_kwargs (kwargs key : NodeType) : result NodeType :=
  match kwargs with
  | PyDict items => dict_getitem items key
  | _ => raise TypeError "object is not subscriptable"
  end.

(** The loop of [Call._visit_node] over the keys of [kwargs]. *)
Fixpoint visit_kwargs (self : Context) (queue : list Entry)
    (kwargs : NodeType) (keys : list NodeType) : list Entry * option exn :=
  match keys with
  | [] => (queue, None)
  | key :: rest =>
      match getitem_kwargs kwargs key with
      | Ok v =>
          visit_kwargs self (visit_child self queue v (Replace (Kwarg key)))
            kwargs rest
      | Raise e => (queue, Some e)
      end
  end.

(** [context.node._visit_node(context)]: the queue afterwards, and the
    exception that ended the call, if any.  [ASTNode._visit_node] does
    nothing; [Var], [Attribute], [FunctionDef] and [Call] override it. *)
Definition _visit_node (context : Context) (queue : list Entry)
  : list Entry * option exn :=
  match node context with
  | Var _ var_name value _ =>
      (visit_child context
         (visit_child context queue (PyStr var_name) ReplaceName)
         value (Replace Value), None)
  | Attribute _ source _ _ =>
      (visit_child context queue source (Replace Source), None)
  | FunctionDef _ _ args body decorator_list _ =>
      (visit_list context
         (visit_list context
            (visit_list context queue Args 0 args)
            Body 0 body)
         Decorator 0 decorator_list, None)
  | Call _ func args kwargs =>
      let queue := visit_list context queue Arg 0 args in
      match dict_keys kwargs with
      | Raise e => (queue, Some e)
      | Ok keys =>
          match visit_kwargs context queue kwargs keys with
          | (queue, Some e) => (queue, Some e)
          | (queue, None) =>
              (visit_child context queue func (Replace Func), None)
          end
      end
  | PyNone | PyInt _ | PyStr _ | PyList _ | PyDict _ =>
      (queue, Some (Exn AttributeError
                      [PyStr "object has no attribute '_visit_node'"]))
  | _ => (queue, None)
  end.

(** [l[idx] = value] for an index that [enumerate] or [range] produced *)
Definition list_setitem (l : list NodeType) (idx : nat) (value : NodeType)
  : result (list NodeType) :=
  if Nat.ltb idx (length l) then Ok (<[idx := value]> l)
  else raise IndexError "list assignment index out of range".

(** [obj[key] = value] on whatever [Call.kwargs] holds *)
Definition setitem (obj key value : NodeType) : result NodeType :=
  match obj with
  | PyDict items =>
      if hashable key then Ok (PyDict (dict_setitem items key value))
      else raise TypeError "unhashable type"
  | PyList l =>
      match key with
      | PyInt z =>
          let i := if (z <? 0)%Z then (Z.of_nat (length l) + z)%Z else z in
          if (0 <=? i)%Z && (i <? Z.of_nat (length l))%Z
          then Ok (PyList (<[Z.to_nat i := value]> l))
          else raise IndexError "list assignment index out of range"
      | _ => raise TypeError "list indices must be integers or slices"
      end
  | _ => raise TypeError "object does not support item assignment"
  end.

(** The assignment that the capability [Replace s] of the node [self]
    makes when called with [value]: the node afterwards.  A method called
    on a node of another class finds no such attribute. *)
Definition assign (self : NodeType) (s : Slot) (value : NodeType)
  : result NodeType :=
  match s, self with
  | Value, Var m var_name _ var_type => Ok (Var m var_name value var_type)
  | Source, Attribute m _ attr action => Ok (Attribute m value attr action)
  | Args idx, FunctionDef m name args body decorator_list returns =>
      let* args := list_setitem args idx value in
      Ok (FunctionDef m name args body decorator_list returns)
  | Body idx, FunctionDef m name args body decorator_list returns =>
      let* body := list_setitem body idx value in
      Ok (FunctionDef m name args body decorator_list returns)
  | Decorator idx, FunctionDef m name args body decorator_list returns =>
      let* decorator_list := list_setitem decorator_list idx value in
      Ok (FunctionDef m name args body decorator_list returns)
  | Arg idx, Call m func args kwargs =>
      let* args := list_setitem args idx value in
      Ok (Call m func args kwargs)
  | Kwarg key, Call m func args kwargs =>
      let* kwargs := setitem kwargs key value in
      Ok (Call m func args kwargs)
  | Func, Call m _ args kwargs => Ok (Call m value args kwargs)
  | _, _ => raise AttributeError "object has no such attribute"
  end.

(** Calling the capability: every [__replace_*] method first sets
    [visitor.modified = True] and then assigns.  The result is the flag
    afterwards and the outcome of the assignment. *)
Definition replace (self : NodeType) (s : Slot) (value : NodeType)
  : bool * result NodeType :=
  (true, assign self s value).

(** [Var.__replace_name], for a new name that is a [str] *)
Definition replace_name (self : NodeType) (value : string)
  : bool * result NodeType :=
  (true,
   match self with
   | Var m _ v var_type => Ok (Var m value v var_type)
   | _ => raise AttributeError "object has no such attribute"
   end).

(** The child that a slot of a node holds. *)
Definition child (self : NodeType) (s : Slot) : option NodeType :=
  match s, self with
  | Value, Var _ _ value _ => Some value
  | Source, Attribute _ source _ _ => Some source
  | Args idx, FunctionDef _ _ args _ _ _ => args !! idx
  | Body idx, FunctionDef _ _ _ body _ _ => body !! idx
  | Decorator idx, FunctionDef _ _ _ _ decorator_list _ => decorator_list !! idx
  | Arg idx, Call _ _ args _ => args !! idx
  | Kwarg key, Call _ _ _ (PyDict items) =>
      match dict_getitem items key with Ok v => Some v | Raise _ => None end
  | Func, Call _ func _ _ => Some func
  | _, _ => None
  end.

End traversal.

(** ** [nodes.py]: [Arguments.to_parameters] and [to_signature] *)

(** [Parameter(name=name, kind=kind, default=default)] for a name that may
    be any value: a default on a var-parameter is refused first, then a
    name that is not a [str]. *)
Definition Parameter_of (name : NodeType) (kind : inspect._ParameterKind)
    (default : option NodeType) : result inspect.Param :=
  if bool_decide (default <> None)
     && (inspect.kind_eqb kind inspect.VAR_POSITIONAL
         || inspect.kind_eqb kind inspect.VAR_KEYWORD)
  then raise ValueError "parameters cannot have default values"
  else
    match name with
    | PyStr s => inspect.Parameter_init s kind default
    | _ => raise TypeError "name must be a str"
    end.

(** The default of the parameter at [idx] among [n] names: none below
    [offset = n - len(defaults)], else [defaults[idx - offset]]. *)
Definition default_at (defaults : list NodeType) (n idx : nat)
  : result (option NodeType) :=
  let offset := (Z.of_nat n - Z.of_nat (length defaults))%Z in
  if (offset <=? Z.of_nat idx)%Z then
    match defaults !! Z.to_nat (Z.of_nat idx - offset) with
    | Some d => Ok (Some d)
    | None => raise IndexError "list index out of range"
    end
  else Ok None.

(** The two loops of [to_parameters], over [enumerate(names)]. *)
Fixpoint parameters_from (names defaults : list NodeType) (n idx : nat)
    (kind : inspect._ParameterKind) : result (list inspect.Param) :=
  match names with
  | [] => Ok []
  | arg :: rest =>
      let* default := default_at defaults n idx in
      let* p := Parameter_of arg kind default in
      let* ps := parameters_from rest defaults n (S idx) kind in
      Ok (p :: ps)
  end.

(** The optional [*vararg] and [**kwarg] parameters. *)
Definition var_parameter (name : NodeType) (kind : inspect._ParameterKind)
  : result (list inspect.Param) :=
  if is_None name then Ok []
  else let* p := Parameter_of name kind None in Ok [p].

(** [Arguments.to_parameters] *)
Definition to_parameters (self : NodeType) : result (list inspect.Param) :=
  match self with
  | Arguments _ args vararg kwonlyargs kwarg defaults kw_defaults =>
      let* p1 := parameters_from (map PyStr args) defaults (length args) 0
                   inspect.POSITIONAL_OR_KEYWORD in
      let* p2 := var_parameter vararg inspect.VAR_POSITIONAL in
      let* p3 := parameters_from kwonlyargs kw_defaults (length kwonlyargs) 0
                   inspect.KEYWORD_ONLY in
      let* p4 := var_parameter kwarg inspect.VAR_KEYWORD in
      Ok (p1 ++ p2 ++ p3 ++ p4)%list
  | _ => raise AttributeError "object has no attribute 'to_parameters'"
  end.

(** [Arguments.to_signature] *)
Definition to_signature (self : NodeType) : result inspect.Signature :=
  let* params := to_parameters self in inspect.Signature_init params.

(** ** [archive.py]: [diff_archive] *)

Module diff.

Import rules archive.

(** The diff object, as far as [diff_archive] reads it. *)
Record Diff := mkDiff {
  operation : string;
  a_md5 : option string;
  b_md5 : option string;
  a_scan : ScanLocation;
  b_scan : ScanLocation;
  a_path : string;
  b_path : string;
}.

(** [needle in hay] on strings *)
Fixpoint contains (needle hay : string) : bool :=
  String.prefix needle hay
  || match hay with
     | EmptyString => false
     | String.String _ rest => contains needle rest
     end.

(** What [diff_archive] does, in order: the steps of the two analyzer runs
    that are not yields, then its own yields.  The location it yields is
    [a] with [metadata["b_scan_location"]] set to [b]. *)
Inductive event :=
| Effect (e : archive.event)
| YieldHit (r : Rule)
| YieldLocation (a b : ScanLocation).

Definition is_effect (e : archive.event) : bool :=
  match e with Yield _ => false | _ => true end.

(** The steps of a run that are not yields. *)
Definition effects (r : run) : list event :=
  map Effect (List.filter is_effect (fst r)).

(** [[x for x in items if type(x) == ScanLocation]] *)
Fixpoint locations (l : list archive.event) : list ScanLocation :=
  match l with
  | [] => []
  | Yield (Location x) :: l' => x :: locations l'
  | _ :: l' => locations l'
  end.

(** [[x for x in items if type(x) != ScanLocation]] *)
Fixpoint hits (l : list archive.event) : list Rule :=
  match l with
  | [] => []
  | Yield (Hit x) :: l' => x :: hits l'
  | _ :: l' => hits l'
  end.

(** [diff_archive(diff)].  [cleanup] is the value that
    [ScanLocation.create_child] gives to a child when the argument is left
    out; the method is not among the sources.  [wa] and [wb] are what the
    analysis of the first and of the second version find: the two calls of
    [mkdtemp] are different calls. *)
Definition diff_archive (cleanup : bool) (wa wb : World) (d : Diff)
  : list event * option exn :=
  if negb (contains (operation d) "RM") then ([], None)
  else if bool_decide (a_md5 d = b_md5 d) then ([], None)
  else
    let a_scan_loc := create_child wa (a_scan d) (a_path d) cleanup in
    let b_scan_loc := create_child wb (b_scan d) (b_path d) cleanup in
    let a_run := archive_analyzer wa a_scan_loc in
    match snd a_run with
    | Some e => (effects a_run, Some e)
    | None =>
        let b_run := archive_analyzer wb b_scan_loc in
        match snd b_run with
        | Some e => ((effects a_run ++ effects b_run)%list, Some e)
        | None =>
            let a_locations := locations (fst a_run) in
            let b_locations := locations (fst b_run) in
            ((effects a_run ++ effects b_run
              ++ map YieldHit (hits (fst a_run))
              ++ map YieldHit (hits (fst b_run))
              ++ match a_locations, b_locations with
                 | [], [] => []
                 | _, _ =>
                     [YieldLocation (List.hd a_scan_loc a_locations)
                        (List.hd b_scan_loc b_locations)]
                 end)%list, None)
        end
    end.

End diff.

(** ** Definitions used in the further statements *)

(** The values of the [Taints] enumeration. *)
Definition Taints_value (t : Taints) : Z :=
  match t with SAFE => 1 | UNKNOWN => 2 | TAINTED => 3 end.

(** The nodes built from [Dictionary] and [BinOp] only, in which every
    entry of a dictionary is a plain [str] or [int] or such a node again,
    and every operand is such a node. *)
Fixpoint static_shape (n : NodeType) : bool :=
  match n with
  | Dictionary _ keys values =>
      forallb (fun x => is_basic x || static_shape x) keys
      && forallb (fun x => is_basic x || static_shape x) values
  | BinOp _ _ l r => static_shape l && static_shape r
  | _ => false
  end.

(** The integer that a size argument stands for: an [int], or the value
    of a [Number] node. *)
Definition literal_size (a : NodeType) : option Z :=
  match a with
  | PyInt z => Some z
  | Number _ value => Some value
  | _ => None
  end.

(** The kinds of parameter that a positional argument can fill. *)
Definition positional (p : inspect.Param) : Prop :=
  inspect.kind p = inspect.POSITIONAL_ONLY \/
  inspect.kind p = inspect.POSITIONAL_OR_KEYWORD.

(** The name of the var-keyword parameter that [get_signature] declares:
    [aura_capture_kwargs] when it is given and not empty. *)
Definition capture_names (aura_capture_kwargs : option string) : list string :=
  match aura_capture_kwargs with
  | Some n => if String.eqb n "" then [] else [n]
  | None => []
  end.

(** The parameters that [get_signature] declares. *)
Definition declared_parameters (sig_args : list string)
    (aura_capture_kwargs : option string) (sig_kwargs : list (string * NodeType))
  : list inspect.Param :=
  (map (fun n => inspect.mkParam n inspect.POSITIONAL_ONLY None) sig_args
   ++ map (fun kv => inspect.mkParam (fst kv) inspect.POSITIONAL_OR_KEYWORD
                       (Some (snd kv))) sig_kwargs
   ++ map (fun n => inspect.mkParam n inspect.VAR_KEYWORD None)
        (capture_names aura_capture_kwargs))%list.

(** The keys of a dict are pairwise different: no key equals a later one. *)
Fixpoint distinct_keys (d : list (NodeType * NodeType)) : Prop :=
  match d with
  | [] => True
  | (k, _) :: d' =>
      Forall (fun kv => py_eqb k (fst kv) = false) d' /\ distinct_keys d'
  end.


(** The entry that [visit_child] appends for a child. *)
Definition entry_for (self : Context) (n : NodeType)
    (cap : traversal.Capability) : traversal.Entry :=
  traversal.mkEntry (traversal.as_child self n) self cap.

(** The number of children of a node that the traversal enumerates. *)
Definition child_count (n : NodeType) : nat :=
  match n with
  | Var _ _ _ _ => 2
  | Attribute _ _ _ _ => 1
  | FunctionDef _ _ args body decorator_list _ =>
      length args + length body + length decorator_list
  | Call _ _ args (PyDict items) => length args + length items + 1
  | _ => 0
  end.

(** A slot that is not a keyword slot, or whose key is a [str]. *)
Definition string_key (s : traversal.Slot) : Prop :=
  match s with
  | traversal.Kwarg (PyStr _) => True
  | traversal.Kwarg _ => False
  | _ => True
  end.

(** A zip entry that [filter_zip] hands over when no [max_size] is passed:
    its path is not suspicious and its size is within the configured
    maximum, if there is one. *)
Definition approved_zip (w : archive.World) (x : archive.ZipInfo) : bool :=
  negb (suspicious_path (archive.filename x))
  && match config.get_maximum_archive_size (archive.cfg w) with
     | Some m => (archive.file_size x <=? m)%Z
     | None => true
     end.

(** A file with a supported content type: what [archive_analyzer] unpacks. *)
Definition unpacked (w : archive.World) (loc : archive.ScanLocation) : bool :=
  negb (archive.is_dir w (archive.location loc))
  && match archive.metadata loc !! "mime" with
     | Some mime => archive.supported mime
     | None => false
     end.

(** A world in which the second entry of the zip archive fails its
    checksum on extraction. *)
Definition crc_world : archive.World :=
  archive.mkWorld (config.mkConfig (Some 5%Z) ∅)
    (fun p => p)
    (fun _ => false)
    (fun prefix suffix => Ok ("/tmp/" +:+ prefix +:+ suffix))
    (fun _ => Ok [archive.mkZipInfo "a.txt" 1; archive.mkZipInfo "b.txt" 2;
                  archive.mkZipInfo "../c.txt" 3])
    (fun _ => Ok [archive.mkTarInfo "d" 0 archive.DIRTYPE;
                  archive.mkTarInfo "d/link" 0 archive.SYMTYPE;
                  archive.mkTarInfo "d/dev" 0 archive.CHRTYPE])
    (fun x _ => if String.eqb (archive.filename x) "b.txt"
                then Some (Exn BadZipFile [PyStr "Bad CRC-32 for file 'b.txt'"])
                else None)
    (fun _ _ => None)
    (fun parent _ => archive.metadata parent).

(** The events of [diff_archive] that are yields. *)
Definition is_yield (ev : diff.event) : bool :=
  match ev with diff.Effect _ => false | _ => true end.

(** The world of [limit_world] a moment later: [mkdtemp] makes another
    directory. *)
Definition second_world : archive.World :=
  archive.mkWorld (config.mkConfig (Some 5%Z) ∅)
    (fun p => p)
    (fun _ => false)
    (fun prefix suffix => Ok ("/tmp/" +:+ prefix +:+ "_1" +:+ suffix))
    (fun _ => Ok [big_entry])
    (fun _ => Ok [big_member])
    (fun _ _ => None)
    (fun _ _ => None)
    (fun parent _ => archive.metadata parent).

(** A modified file whose two versions are zip archives. *)
Definition modified_zip : diff.Diff :=
  diff.mkDiff "M" (Some "0cc1") (Some "92eb")
    (archive.mkLocation "a" {[ "mime" := PyStr "application/zip" ]} None false)
    (archive.mkLocation "b" {[ "mime" := PyStr "application/zip" ]} None false)
    "a/pkg.zip" "b/pkg.zip".

(** The parameters of positional names among which the defaults are
    aligned to the right: the names that are left over come first and
    have no default; when there are more defaults than names the first
    defaults are left out. *)
Definition right_aligned (args : list string) (defaults : list NodeType)
  : list inspect.Param :=
  (map (fun a => inspect.mkParam a inspect.POSITIONAL_OR_KEYWORD None)
     (take (length args - length defaults) args)
   ++ zip_with (fun a d => inspect.mkParam a inspect.POSITIONAL_OR_KEYWORD
                             (Some d))
        (drop (length args - length defaults) args)
        (drop (length defaults - length args) defaults))%list.

(** ** Induction on nodes *)

Section NodeType_induction.

Variable P : NodeType -> Prop.

Hypothesis H_PyNone : P PyNone.
Hypothesis H_PyInt : forall z, P (PyInt z).
Hypothesis H_PyStr : forall s, P (PyStr s).
Hypothesis H_PyList : forall l, Forall P l -> P (PyList l).
Hypothesis H_PyDict :
  forall items, Forall (fun kv => P (fst kv) /\ P (snd kv)) items ->
                P (PyDict items).
Hypothesis H_Dictionary :
  forall m ks vs, Forall P ks -> Forall P vs -> P (Dictionary m ks vs).
Hypothesis H_Number : forall m v, P (Number m v).
Hypothesis H_String : forall m v, P (String m v).
Hypothesis H_Var : forall m n v t, P v -> P (Var m n v t).
Hypothesis H_Attribute : forall m s a c, P s -> P (Attribute m s a c).
Hypothesis H_Compare :
  forall m l ops cs, P l -> Forall P ops -> Forall P cs ->
                     P (Compare m l ops cs).
Hypothesis H_FunctionDef :
  forall m n a b d r, Forall P a -> Forall P b -> Forall P d -> P r ->
                      P (FunctionDef m n a b d r).
Hypothesis H_Call :
  forall m f a k, P f -> Forall P a -> P k -> P (Call m f a k).
Hypothesis H_Arguments :
  forall m a va ko kw d kd, P va -> Forall P ko -> P kw -> Forall P d ->
                            Forall P kd -> P (Arguments m a va ko kw d kd).
Hypothesis H_Import : forall m a b c, P (Import m a b c).
Hypothesis H_BinOp : forall m op l r, P l -> P r -> P (BinOp m op l r).
Hypothesis H_Print : forall m vs d, Forall P vs -> P d -> P (Print m vs d).

Fixpoint NodeType_nested_ind (n : NodeType) : P n :=
  let all :=
    fix all (l : list NodeType) : Forall P l :=
      match l with
      | [] => @List.Forall_nil _ P
      | x :: l' => @List.Forall_cons _ P x l' (NodeType_nested_ind x) (all l')
      end in
  let all_items :=
    fix all_items (l : list (NodeType * NodeType))
      : Forall (fun kv => P (fst kv) /\ P (snd kv)) l :=
      match l with
      | [] => @List.Forall_nil _ _
      | (k, v) :: l' =>
          @List.Forall_cons _ (fun kv => P (fst kv) /\ P (snd kv)) (k, v) l'
            (conj (NodeType_nested_ind k) (NodeType_nested_ind v))
            (all_items l')
      end in
  match n with
  | PyNone => H_PyNone
  | PyInt z => H_PyInt z
  | PyStr s => H_PyStr s
  | PyList l => H_PyList l (all l)
  | PyDict items => H_PyDict items (all_items items)
  | Dictionary m ks vs => H_Dictionary m ks vs (all ks) (all vs)
  | Number m v => H_Number m v
  | String m v => H_String m v
  | Var m n v t => H_Var m n v t (NodeType_nested_ind v)
  | Attribute m s a c => H_Attribute m s a c (NodeType_nested_ind s)
  | Compare m l ops cs =>
      H_Compare m l ops cs (NodeType_nested_ind l) (all ops) (all cs)
  | FunctionDef m n a b d r =>
      H_FunctionDef m n a b d r (all a) (all b) (all d) (NodeType_nested_ind r)
  | Call m f a k =>
      H_Call m f a k (NodeType_nested_ind f) (all a) (NodeType_nested_ind k)
  | Arguments m a va ko kw d kd =>
      H_Arguments m a va ko kw d kd (NodeType_nested_ind va) (all ko)
        (NodeType_nested_ind kw) (all d) (all kd)
  | Import m a b c => H_Import m a b c
  | BinOp m op l r =>
      H_BinOp m op l r (NodeType_nested_ind l) (NodeType_nested_ind r)
  | Print m vs d => H_Print m vs d (all vs) (NodeType_nested_ind d)
  end.

End NodeType_induction.

(** * Properties *)

(** ** Taints *)

(** C4. The taint combine operator [Taints.__add__] is associative and
    commutative; [TAINTED] is absorbing, [UNKNOWN] absorbs [SAFE], and
    combining [SAFE] with [SAFE] gives [SAFE]. *)
Theorem Taints_add_lattice :
  (forall a b c, Taints_add a (Taints_add b c) = Taints_add (Taints_add a b) c) /\
  (forall a b, Taints_add a b = Taints_add b a) /\
  (forall x, Taints_add TAINTED x = TAINTED /\ Taints_add x TAINTED = TAINTED) /\
  (Taints_add UNKNOWN SAFE = UNKNOWN /\ Taints_add SAFE UNKNOWN = UNKNOWN) /\
  Taints_add SAFE SAFE = SAFE.
Proof.
  split; [| split; [| split; [| split]]].
  - intros [] [] []; reflexivity.
  - intros [] []; reflexivity.
  - intros []; split; reflexivity.
  - split; reflexivity.
  - reflexivity.
Qed.

(** ** Static nodes *)

(** Only [Dictionary] and [BinOp] override [is_static]: every other node
    class inherits the constant [False] of [ASTNode]. *)
Lemma is_static_inherited (n : NodeType) :
  is_ASTNode n = true ->
  (forall m k v, n <> Dictionary m k v) ->
  (forall m op l r, n <> BinOp m op l r) ->
  is_static n = Ok false.
Proof.
  intros Hn Hd Hb.
  destruct n; simpl in Hn; try discriminate; try reflexivity.
  - exfalso; eapply Hd; reflexivity.
  - exfalso; eapply Hb; reflexivity.
Qed.

(** C9 (the code departs from the claim).  [Number] and [String] do not
    override [is_static], so a literal is reported as not static, although
    the docstring of [ASTNode.is_static] gives numbers and strings as its
    examples of static nodes; a [Dictionary] or [BinOp] of literal nodes is
    then not static either. *)
Theorem Number_is_not_static :
  is_static (Number post_init 5) = Ok false /\
  is_static (String post_init "five") = Ok false /\
  is_static (Dictionary post_init [String post_init "k"] [Number post_init 5])
    = Ok false /\
  is_static (BinOp post_init "+" (Number post_init 2) (Number post_init 3))
    = Ok false.
Proof. repeat split; reflexivity. Qed.

(** ** Resolved names *)

(** [Attribute.full_name] does not look at the cached name. *)
Lemma Attribute_full_name_Import m m' module alias import_type attr action :
  full_name (Attribute m (Import m' module alias import_type) attr action)
  = PyStr (module +:+ "." +:+ attr).
Proof. reflexivity. Qed.

Lemma Attribute_full_name_other m source attr action :
  (forall m' module alias import_type,
      source <> Import m' module alias import_type) ->
  full_name (Attribute m source attr action) = PyNone.
Proof.
  intros Hsrc. destruct source; try reflexivity.
  exfalso; eapply Hsrc; reflexivity.
Qed.

(** A call whose own name is not cached and whose callee has no resolved
    name has the callee itself as its [full_name]. *)
Lemma Call_full_name_unresolved m func args kwargs :
  _full_name m = None ->
  is_ASTNode func = true ->
  full_name func = PyNone ->
  full_name (Call m func args kwargs) = func.
Proof.
  intros Hm Hf Hn. simpl. rewrite Hm.
  destruct func; simpl in Hf; try discriminate; rewrite Hn; reflexivity.
Qed.

(** C10 (as amended).  An [Attribute] whose source is not an [Import] has
    no [full_name]; a call to it whose own cached [_full_name] is unset
    then has the attribute node, not a string, as its [full_name], and
    [node_Call] yields no hit for it. *)
Theorem Attribute_chain_no_hit m source attr action :
  (forall m' module alias import_type,
      source <> Import m' module alias import_type) ->
  full_name (Attribute m source attr action) = PyNone /\
  forall mc args kwargs v d md,
    _full_name mc = None ->
    crypto.node_Call
      (mkContext (Call mc (Attribute m source attr action) args kwargs) v d md)
    = Ok [].
Proof.
  intros Hsrc.
  pose proof (Attribute_full_name_other m source attr action Hsrc) as Hnone.
  split; [exact Hnone |].
  intros mc args kwargs v d md Hmc.
  unfold crypto.node_Call. cbn [node is_ASTNode negb].
  rewrite Call_full_name_unresolved; auto.
Qed.

Lemma Attribute_chain_no_hit_witness :
  full_name deep_attribute = PyNone /\
  crypto.node_Call
    (mkContext (Call post_init deep_attribute [Number post_init 1024] (PyDict []))
       (mkVisitor "setup.py") 0 false)
  = Ok [].
Proof.
  destruct (Attribute_chain_no_hit post_init Crypto_PublicKey_RSA
              "generate" "load") as [H1 H2].
  - intros; discriminate.
  - split; [exact H1 | apply H2; reflexivity].
Defined.

(** C10 (counterexample to the claim as stated).  [Call.full_name] returns
    the call's own cached [_full_name] before it looks at the callee: with
    the cache set to a catalogue name, a call to an attribute chain that
    resolves to no name is still reported. *)
Lemma Attribute_chain_cached_name_hit :
  full_name deep_attribute = PyNone /\
  exists hit,
    crypto.node_Call
      (mkContext
         (Call (Meta (Some "Crypto.PublicKey.RSA.generate") None ∅ UNKNOWN)
            deep_attribute [Number post_init 1024] (PyDict []))
         (mkVisitor "setup.py") 0 false)
    = Ok [hit].
Proof. split; [reflexivity |]. eexists. vm_compute. reflexivity. Qed.

(** ** Signature binding *)

Lemma Parameter_init_identifier name kind default :
  inspect.isidentifier name = true ->
  (default = None \/
   (kind <> inspect.VAR_POSITIONAL /\ kind <> inspect.VAR_KEYWORD)) ->
  inspect.Parameter_init name kind default
  = Ok (inspect.mkParam name kind default).
Proof.
  intros Hid Hdef. unfold inspect.Parameter_init.
  assert (bool_decide (default <> None)
          && (inspect.kind_eqb kind inspect.VAR_POSITIONAL
              || inspect.kind_eqb kind inspect.VAR_KEYWORD) = false) as ->.
  { destruct Hdef as [-> | [H1 H2]].
    - rewrite bool_decide_eq_false_2; [reflexivity | intros H; apply H; reflexivity].
    - destruct kind; try congruence; apply andb_false_r. }
  destruct name as [| c rest]; [discriminate |].
  assert (Ascii.eqb c "." = false) as ->.
  { destruct (Ascii.eqb_spec c "."); [| reflexivity].
    subst c. discriminate. }
  cbn [andb]. rewrite Hid. reflexivity.
Qed.

Lemma has_name_cons_eq k v d : inspect.has_name k ((k, v) :: d) = true.
Proof.
  unfold inspect.has_name, inspect.lookup_name. cbn.
  rewrite String.eqb_refl. reflexivity.
Qed.

Lemma has_name_singleton_ne k k' v :
  k <> k' -> inspect.has_name k [(k', v)] = false.
Proof.
  intros Hne. unfold inspect.has_name, inspect.lookup_name. cbn.
  assert (String.eqb k' k = false) as ->
    by (apply String.eqb_neq; congruence).
  reflexivity.
Qed.

Lemma get_signature_a_b a b dflt :
  inspect.isidentifier a = true ->
  inspect.isidentifier b = true ->
  a <> b ->
  get_signature [a] None None [(b, dflt)] = Ok (shape_a_b a b dflt).
Proof.
  intros Ha Hb Hne. unfold get_signature. cbn [mapM fst snd].
  rewrite !Parameter_init_identifier by (auto; right; split; discriminate).
  cbn [bind app]. unfold inspect.Signature_init. cbn.
  rewrite (bool_decide_eq_false_2 (b ∈ [a])); [reflexivity |].
  intros Hin. apply list_elem_of_singleton in Hin. congruence.
Qed.

Lemma Signature_bind_a_b a b dflt x y :
  a <> b ->
  inspect.Signature_bind (shape_a_b a b dflt) [x] [(b, y)]
  = Ok (inspect.mkBound (shape_a_b a b dflt) [(a, x); (b, y)]).
Proof.
  intros Hne. unfold inspect.Signature_bind, shape_a_b.
  cbn [inspect.parameters inspect.bind_positional inspect.kind inspect.name
       inspect.default inspect.kind_eqb inspect.kind_value Nat.eqb orb].
  rewrite has_name_singleton_ne by assumption.
  rewrite has_name_cons_eq.
  cbn [bind inspect.set_name inspect.bind_keywords inspect.kind inspect.name
       inspect.default inspect.kind_eqb inspect.kind_value Nat.eqb].
  unfold inspect.lookup_name, inspect.remove_name. cbn.
  rewrite String.eqb_refl. cbn.
  assert (String.eqb a b = false) as -> by (apply String.eqb_neq; assumption).
  reflexivity.
Qed.

(** Every failure of the two loops of [Signature._bind] is a [TypeError],
    and the second loop only sees parameters of the signature. *)
Lemma bind_positional_inv params args kwargs arguments :
  match inspect.bind_positional params args kwargs arguments with
  | Ok r => forall p, p ∈ snd r -> p ∈ params
  | Raise e => exc_cls e = TypeError
  end.
Proof.
  revert params arguments.
  induction args as [| arg_val args IH]; intros [| param rest] arguments;
    cbn [inspect.bind_positional].
  - intros p Hp. exact Hp.
  - unfold raise.
    destruct (inspect.kind_eqb (inspect.kind param) inspect.VAR_POSITIONAL).
    { intros p Hp. right. exact Hp. }
    destruct (inspect.has_name (inspect.name param) kwargs).
    { destruct (inspect.kind_eqb (inspect.kind param) inspect.POSITIONAL_ONLY);
        [reflexivity | intros p Hp; exact Hp]. }
    destruct (inspect.kind_eqb (inspect.kind param) inspect.VAR_KEYWORD
              || bool_decide (inspect.default param <> None));
      [intros p Hp; exact Hp | reflexivity].
  - reflexivity.
  - destruct (inspect.kind_eqb (inspect.kind param) inspect.VAR_KEYWORD
              || inspect.kind_eqb (inspect.kind param) inspect.KEYWORD_ONLY);
      [reflexivity |].
    destruct (inspect.kind_eqb (inspect.kind param) inspect.VAR_POSITIONAL).
    { intros p Hp. right. exact Hp. }
    destruct (inspect.has_name (inspect.name param) kwargs); [reflexivity |].
    specialize (IH rest (inspect.set_name arguments (inspect.name param) arg_val)).
    destruct (inspect.bind_positional rest args kwargs _) as [r | e];
      [| exact IH].
    intros p Hp. right. apply IH. exact Hp.
Qed.

Lemma lookup_remove_name k k' d :
  k <> k' ->
  inspect.lookup_name k (inspect.remove_name k' d) = inspect.lookup_name k d.
Proof.
  intros Hne. unfold inspect.lookup_name, inspect.remove_name.
  induction d as [| [k0 v0] d IH]; [reflexivity |].
  cbn [List.filter List.find fst].
  destruct (String.eqb_spec k0 k') as [-> | Hk0]; cbn [negb].
  - assert (String.eqb k' k = false) as ->
      by (apply String.eqb_neq; congruence).
    exact IH.
  - cbn [List.find fst]. destruct (String.eqb k0 k); [reflexivity | exact IH].
Qed.

(** A keyword that names no parameter stays in [kwargs] through the second
    loop. *)
Lemma bind_keywords_leftover k params kwargs arguments :
  inspect.has_name k kwargs = true ->
  (forall p, p ∈ params ->
             inspect.name p <> k /\ inspect.kind p <> inspect.VAR_KEYWORD) ->
  match inspect.bind_keywords params kwargs arguments None with
  | Ok r => inspect.has_name k (snd (fst r)) = true /\ snd r = None
  | Raise e => exc_cls e = TypeError
  end.
Proof.
  revert kwargs arguments.
  induction params as [| param rest IH]; intros kwargs arguments Hk Hps;
    cbn [inspect.bind_keywords]; [auto |].
  assert (inspect.name param <> k /\ inspect.kind param <> inspect.VAR_KEYWORD)
    as [Hname Hkind] by (apply Hps; left).
  assert (forall p, p ∈ rest ->
                    inspect.name p <> k /\ inspect.kind p <> inspect.VAR_KEYWORD)
    as Hrest by (intros p Hp; apply Hps; right; exact Hp).
  destruct (inspect.kind_eqb (inspect.kind param) inspect.VAR_KEYWORD) eqn:Hvk.
  { destruct (inspect.kind param); try discriminate. congruence. }
  destruct (inspect.kind_eqb (inspect.kind param) inspect.VAR_POSITIONAL);
    [apply IH; assumption |].
  destruct (inspect.lookup_name (inspect.name param) kwargs) as [arg_val |].
  - destruct (inspect.kind_eqb (inspect.kind param) inspect.POSITIONAL_ONLY);
      [reflexivity |].
    apply IH; [| assumption].
    unfold inspect.has_name in *.
    rewrite lookup_remove_name by congruence. exact Hk.
  - destruct (bool_decide (inspect.default param = None)); [reflexivity |].
    apply IH; assumption.
Qed.

(** Unknown keyword names make the binding fail when the signature has no
    var-keyword parameter, whatever the positional arguments are. *)
Lemma Signature_bind_unexpected_keyword sig args kwargs k :
  inspect.has_name k kwargs = true ->
  (forall p, p ∈ inspect.parameters sig ->
             inspect.name p <> k /\ inspect.kind p <> inspect.VAR_KEYWORD) ->
  exists e,
    inspect.Signature_bind sig args kwargs = Raise e /\ exc_cls e = TypeError.
Proof.
  intros Hk Hps. unfold inspect.Signature_bind.
  pose proof (bind_positional_inv (inspect.parameters sig) args kwargs []) as H1.
  destruct (inspect.bind_positional (inspect.parameters sig) args kwargs [])
    as [[arguments params] | e]; cbn [bind snd] in *; [| eauto].
  pose proof (bind_keywords_leftover k params kwargs arguments Hk) as H2.
  destruct (inspect.bind_keywords params kwargs arguments None)
    as [[[arguments' kwargs'] kp] | e]; cbn [bind fst snd] in *.
  - destruct H2 as [Hleft ->]; [intros p Hp; apply Hps, H1, Hp |].
    destruct kwargs' as [| [k0 v0] kwargs']; [discriminate |].
    eexists. split; reflexivity.
  - eexists. split; [reflexivity |]. apply H2. intros p Hp. apply Hps, H1, Hp.
Qed.

(** [Call.bind] turns a [Dictionary] of keyword arguments into a plain dict
    with [to_dict] and then binds as for a plain dict. *)
Lemma Call_bind_Dictionary m func args m' keys values sig :
  Call_bind (Call m func args (Dictionary m' keys values)) sig
  = let* kw := to_dict keys values in Call_bind (Call m func args kw) sig.
Proof.
  unfold Call_bind, to_dict.
  destruct (dict_of_pairs (zip keys values) []); reflexivity.
Qed.

(** C7. For the formal shape [(a, b=dflt)] and a call that passes [a]
    positionally and [b] by keyword, binding succeeds and [b] is bound to
    the keyword value, not to the default; a [Dictionary] node in the place
    of the keyword arguments is first materialized by [to_dict] into a plain
    keyword mapping, and binding then gives the same result. *)
Theorem bind_keyword_overrides_default a b dflt x y m func m' :
  inspect.isidentifier a = true ->
  inspect.isidentifier b = true ->
  a <> b ->
  get_signature [a] None None [(b, dflt)] = Ok (shape_a_b a b dflt) /\
  apply_signature (Call m func [x] (PyDict [(PyStr b, y)]))
    [a] None None [(b, dflt)]
  = Ok (inspect.mkBound (shape_a_b a b dflt) [(a, x); (b, y)]) /\
  to_dict [PyStr b] [y] = Ok (PyDict [(PyStr b, y)]) /\
  apply_signature (Call m func [x] (Dictionary m' [PyStr b] [y]))
    [a] None None [(b, dflt)]
  = Ok (inspect.mkBound (shape_a_b a b dflt) [(a, x); (b, y)]) /\
  forall sig args keys values,
    Call_bind (Call m func args (Dictionary m' keys values)) sig
    = let* kw := to_dict keys values in Call_bind (Call m func args kw) sig.
Proof.
  intros Ha Hb Hne.
  pose proof (get_signature_a_b a b dflt Ha Hb Hne) as Hsig.
  pose proof (Signature_bind_a_b a b dflt x y Hne) as Hbind.
  split; [exact Hsig |].
  split.
  { unfold apply_signature. rewrite Hsig. cbn. exact Hbind. }
  split; [reflexivity |].
  split.
  { unfold apply_signature. rewrite Hsig. cbn [bind].
    rewrite Call_bind_Dictionary. cbn. exact Hbind. }
  intros. apply Call_bind_Dictionary.
Qed.

Lemma bind_keyword_overrides_default_witness :
  apply_signature
    (Call post_init (PyStr "f") [PyInt 1]
       (Dictionary post_init [PyStr "b"] [PyInt 2]))
    ["a"] None None [("b", PyNone)]
  = Ok (inspect.mkBound (shape_a_b "a" "b" PyNone)
          [("a", PyInt 1); ("b", PyInt 2)]).
Proof.
  apply (bind_keyword_overrides_default "a" "b" PyNone (PyInt 1) (PyInt 2)
           post_init (PyStr "f") post_init);
    [reflexivity | reflexivity | discriminate].
Defined.

(** ** The key-generation rule *)

Lemma CRYPTO_GEN_KEYS_lib f info :
  crypto.CRYPTO_GEN_KEYS !! f = Some info ->
  crypto.lib info = "cryptography" \/ crypto.lib info = "crypto".
Proof.
  intros H. unfold crypto.CRYPTO_GEN_KEYS in H.
  apply elem_of_list_to_map_2 in H.
  repeat (apply elem_of_cons in H as [H | H]; [injection H as -> ->; auto |]).
  apply elem_of_nil in H. destruct H.
Qed.

Lemma MIN_KEY_SIZES_rsa : crypto.MIN_KEY_SIZES !! "rsa" = Some 2048%Z.
Proof. reflexivity. Qed.

(** With one positional argument and no keywords, both library handlers
    bind the argument to the size parameter. *)
Lemma _lib_cryptography_positional m func size_arg v d md info :
  let context := mkContext (Call m func [size_arg] (PyDict [])) v d md in
  crypto._lib_cryptography context info
  = match size_arg with
    | Number _ value =>
        let* hit := crypto._gen_hit context info (Some value) in Ok [hit]
    | PyInt z => let* hit := crypto._gen_hit context info (Some z) in Ok [hit]
    | _ => Ok []
    end.
Proof. reflexivity. Qed.

Lemma _lib_crypto_positional m func size_arg v d md info :
  let context := mkContext (Call m func [size_arg] (PyDict [])) v d md in
  crypto._lib_crypto context info
  = match size_arg with
    | Number _ value =>
        let* hit := crypto._gen_hit context info (Some value) in Ok [hit]
    | PyInt z => let* hit := crypto._gen_hit context info (Some z) in Ok [hit]
    | _ => Ok []
    end.
Proof. reflexivity. Qed.

(** A key of a family with a minimum size, smaller than that minimum, is
    reported with score 100. *)
Lemma _gen_hit_weak m func args kwargs v d md info k f_name min :
  let context := mkContext (Call m func args kwargs) v d md in
  full_name (Call m func args kwargs) = PyStr f_name ->
  crypto.MIN_KEY_SIZES !! crypto.type info = Some min ->
  (k < min)%Z ->
  exists hit,
    crypto._gen_hit context info (Some k) = Ok hit /\
    rules.cls hit = rules.CryptoKeyGeneration /\
    rules.extra hit = [("function", PyStr f_name);
                       ("key_type", PyStr (crypto.type info));
                       ("key_size", PyInt k)] /\
    rules.score hit = Some 100%Z.
Proof.
  intros context Hname Hmin Hlt. unfold crypto._gen_hit.
  cbn [node context node_meta]. rewrite Hmin, Hname. cbn [default id].
  assert ((k <? min)%Z = true) as -> by (apply Z.ltb_lt; assumption).
  eexists. split; [reflexivity |]. repeat split.
Qed.

(** A size passed by keyword cannot be bound to the positional-only
    parameter [key_size]: [_lib_cryptography] yields nothing. *)
Lemma _lib_cryptography_keyword m func args items kwd v d md info :
  keyword_items items = Ok kwd ->
  inspect.has_name "key_size" kwd = true ->
  crypto._lib_cryptography (mkContext (Call m func args (PyDict items)) v d md)
    info
  = Ok [].
Proof.
  intros Hitems Hkw. unfold crypto._lib_cryptography, apply_signature.
  cbn [node].
  change (get_signature ["key_size"] None None [("backend", PyNone)])
    with (Ok (shape_a_b "key_size" "backend" PyNone)).
  cbn [bind Call_bind unpack_kwargs]. rewrite Hitems. cbn [bind].
  unfold inspect.Signature_bind, shape_a_b.
  destruct args as [| arg_val args'];
    cbn [inspect.parameters inspect.bind_positional inspect.kind inspect.name
         inspect.kind_eqb inspect.kind_value Nat.eqb orb];
    rewrite Hkw; reflexivity.
Qed.

(** [_lib_crypto] has no parameter [key_size] and no var-keyword
    parameter: a keyword [key_size] makes its binding fail as well. *)
Lemma _lib_crypto_keyword m func args items kwd v d md info :
  keyword_items items = Ok kwd ->
  inspect.has_name "key_size" kwd = true ->
  crypto._lib_crypto (mkContext (Call m func args (PyDict items)) v d md) info
  = Ok [].
Proof.
  intros Hitems Hkw. unfold crypto._lib_crypto, apply_signature.
  cbn [node].
  change (get_signature ["bits"] None None
            [("randfunc", PyNone); ("domain", PyNone)])
    with (Ok (inspect.mkSignature
                [inspect.mkParam "bits" inspect.POSITIONAL_ONLY None;
                 inspect.mkParam "randfunc" inspect.POSITIONAL_OR_KEYWORD
                   (Some PyNone);
                 inspect.mkParam "domain" inspect.POSITIONAL_OR_KEYWORD
                   (Some PyNone)])).
  cbn [bind Call_bind unpack_kwargs]. rewrite Hitems. cbn [bind].
  edestruct (Signature_bind_unexpected_keyword) as (e & -> & He);
    [exact Hkw | | rewrite He; reflexivity].
  intros p Hp. cbn [inspect.parameters] in Hp.
  repeat (apply elem_of_cons in Hp as [-> | Hp];
          [split; discriminate |]).
  apply elem_of_nil in Hp. destruct Hp.
Qed.

(** For no entry of the catalogue does a call with a keyword [key_size]
    give a hit. *)
Lemma node_Call_keyword_key_size m func args items kwd v d md f_name info :
  full_name (Call m func args (PyDict items)) = PyStr f_name ->
  crypto.CRYPTO_GEN_KEYS !! f_name = Some info ->
  keyword_items items = Ok kwd ->
  inspect.has_name "key_size" kwd = true ->
  crypto.node_Call (mkContext (Call m func args (PyDict items)) v d md)
  = Ok [].
Proof.
  intros Hname Hcat Hitems Hkw.
  unfold crypto.node_Call. cbn [node is_ASTNode negb].
  rewrite Hname, Hcat.
  destruct (CRYPTO_GEN_KEYS_lib f_name info Hcat) as [-> | ->].
  - change (String.eqb "cryptography" "cryptography") with true. cbn iota.
    eapply _lib_cryptography_keyword; eassumption.
  - change (String.eqb "crypto" "cryptography") with false.
    change (String.eqb "crypto" "crypto") with true. cbn iota.
    eapply _lib_crypto_keyword; eassumption.
Qed.

(** C1 (as amended).  A call that resolves to a catalogue entry of family
    [rsa] and passes the key size 1024 as its one positional argument, as
    an [int] or as a [Number] node, gets exactly one hit, with the resolved
    function name, [key_type = 'rsa'], [key_size = 1024] and, as 1024 is
    below the minimum of 2048, score 100.  The same callee with a keyword
    argument [key_size] gets no hit, whatever else is passed: the size
    parameter is positional-only. *)
Theorem rsa_positional_key_size_hit m func size_arg v d md f_name info :
  full_name (Call m func [size_arg] (PyDict [])) = PyStr f_name ->
  crypto.CRYPTO_GEN_KEYS !! f_name = Some info ->
  crypto.type info = "rsa" ->
  (size_arg = PyInt 1024 \/ exists m', size_arg = Number m' 1024) ->
  (exists hit,
      crypto.node_Call (mkContext (Call m func [size_arg] (PyDict [])) v d md)
      = Ok [hit] /\
      rules.cls hit = rules.CryptoKeyGeneration /\
      rules.extra hit = [("function", PyStr f_name);
                         ("key_type", PyStr "rsa");
                         ("key_size", PyInt 1024)] /\
      rules.score hit = Some 100%Z) /\
  (forall args items kwd,
      keyword_items items = Ok kwd ->
      inspect.has_name "key_size" kwd = true ->
      crypto.node_Call (mkContext (Call m func args (PyDict items)) v d md)
      = Ok []).
Proof.
  intros Hname Hcat Htype Hsize. split.
  2: { intros args items kwd Hitems Hkw.
       apply (node_Call_keyword_key_size m func args items kwd v d md f_name
                info Hname Hcat Hitems Hkw). }
  destruct (_gen_hit_weak m func [size_arg] (PyDict []) v d md info 1024
              f_name 2048 Hname) as (hit & Hhit & Hcls & Hextra & Hscore).
  { rewrite Htype. exact MIN_KEY_SIZES_rsa. }
  { reflexivity. }
  exists hit. rewrite Htype in Hextra. repeat split; try assumption.
  unfold crypto.node_Call. cbn [node is_ASTNode negb].
  rewrite Hname, Hcat.
  destruct (CRYPTO_GEN_KEYS_lib f_name info Hcat) as [-> | ->]; cbn [String.eqb].
  - change (String.eqb "cryptography" "cryptography") with true. cbn iota.
    rewrite _lib_cryptography_positional.
    destruct Hsize as [-> | [m' ->]]; rewrite Hhit; reflexivity.
  - change (String.eqb "crypto" "cryptography") with false.
    change (String.eqb "crypto" "crypto") with true. cbn iota.
    rewrite _lib_crypto_positional.
    destruct Hsize as [-> | [m' ->]]; rewrite Hhit; reflexivity.
Qed.

Lemma rsa_positional_key_size_hit_witness :
  exists hit,
    crypto.node_Call
      (mkContext
         (Call post_init rsa_generate_private_key [Number post_init 1024]
            (PyDict []))
         (mkVisitor "setup.py") 0 false)
    = Ok [hit] /\
    rules.cls hit = rules.CryptoKeyGeneration /\
    rules.extra hit =
      [("function",
        PyStr "cryptography.hazmat.primitives.asymmetric.rsa.generate_private_key");
       ("key_type", PyStr "rsa");
       ("key_size", PyInt 1024)] /\
    rules.score hit = Some 100%Z.
Proof.
  eapply proj1.
  apply (rsa_positional_key_size_hit post_init rsa_generate_private_key
           (Number post_init 1024) (mkVisitor "setup.py") 0 false
           "cryptography.hazmat.primitives.asymmetric.rsa.generate_private_key"
           (crypto.mkInfo "rsa" "cryptography")).
  - reflexivity.
  - vm_compute. reflexivity.
  - reflexivity.
  - right. exists post_init. reflexivity.
Defined.

(** C1 (counterexample to the claim as stated).  For
    [generate_private_key(key_size=1024)], resolved to the [rsa] entry of
    the catalogue, the size parameter is positional-only, the binding raises
    [TypeError] and [node_Call] yields no hit. *)
Lemma rsa_keyword_key_size_no_hit :
  (exists info,
      full_name keyword_call
      = PyStr "cryptography.hazmat.primitives.asymmetric.rsa.generate_private_key"
      /\ crypto.CRYPTO_GEN_KEYS
           !! "cryptography.hazmat.primitives.asymmetric.rsa.generate_private_key"
         = Some info
      /\ crypto.type info = "rsa") /\
  (exists e,
      apply_signature keyword_call ["key_size"] None None
        [("backend", PyNone)]
      = Raise e /\ exc_cls e = TypeError) /\
  crypto.node_Call (mkContext keyword_call (mkVisitor "setup.py") 0 false)
  = Ok [].
Proof.
  split; [| split].
  - eexists. split; [reflexivity |]. split; vm_compute; reflexivity.
  - eexists. split; vm_compute; reflexivity.
  - vm_compute. reflexivity.
Qed.

(** ** Archive entries *)

Section Archive.

Import rules archive.

Variable w : World.

Lemma is_suspicious_None pth loc :
  is_suspicious w pth loc = None <-> suspicious_path pth = false.
Proof.
  unfold is_suspicious, suspicious_path.
  destruct (startswith pth "/"); cbn [orb]; [split; discriminate |].
  destruct (existsb _ (parts pth)); split; (discriminate || reflexivity).
Qed.

(** For a path that does not start at the root, the components that
    [pathlib] keeps contain [".."] exactly when the path, cut at the
    slashes, has a piece [".."]. *)
Lemma parts_parent_reference pth :
  startswith pth "/" = false ->
  existsb (fun x => String.eqb x "..") (parts pth) = true
  <-> ".." ∈ split "/" pth.
Proof.
  intros Hrel. unfold parts, splitroot. rewrite Hrel. cbn [app String.eqb].
  destruct (String.eqb_spec pth "") as [-> | Hne].
  - cbn. split; [discriminate |].
    intros H. apply list_elem_of_singleton in H. discriminate.
  - rewrite existsb_exists. split.
    + intros (x & Hin & Hx). apply String.eqb_eq in Hx. subst x.
      apply filter_In in Hin as [Hin _]. apply list_elem_of_In. exact Hin.
    + intros Hin. exists "..". split; [| reflexivity].
      apply filter_In. split; [apply list_elem_of_In; exact Hin | reflexivity].
Qed.

Lemma suspicious_path_spec pth :
  suspicious_path pth = true <->
  startswith pth "/" = true \/ ".." ∈ split "/" pth.
Proof.
  unfold suspicious_path. destruct (startswith pth "/") eqn:Hroot; cbn [orb].
  - split; auto.
  - rewrite (parts_parent_reference pth Hroot). split; auto.
    intros [H | H]; [discriminate | exact H].
Qed.

(** What [filter_zip] and [filter_tar] hand over for extraction is never
    suspicious. *)
Lemma filter_zip_approved arch path max_size x :
  inl x ∈ filter_zip w arch path max_size ->
  x ∈ arch /\ suspicious_path (filename x) = false.
Proof.
  unfold filter_zip. intros Hin.
  apply list_elem_of_In, in_concat in Hin as (l & Hl & Hx).
  apply in_map_iff in Hl as (y & <- & Hy).
  apply list_elem_of_In in Hy, Hx. unfold zip_entry in Hx.
  destruct (is_suspicious w (filename y) path) eqn:Hs.
  - apply list_elem_of_singleton in Hx. discriminate.
  - assert (x = y) as ->.
    { destruct (match max_size with
                | Some m => Some m
                | None => config.get_maximum_archive_size (cfg w)
                end) as [m |];
        [destruct (m <? file_size y)%Z |];
        apply list_elem_of_singleton in Hx; congruence. }
    split; [exact Hy | eapply is_suspicious_None; exact Hs].
Qed.

Lemma filter_tar_approved arch path max_size x :
  inl x ∈ filter_tar w arch path max_size ->
  x ∈ arch /\ suspicious_path (name x) = false.
Proof.
  unfold filter_tar. intros Hin.
  apply list_elem_of_In, in_concat in Hin as (l & Hl & Hx).
  apply in_map_iff in Hl as (y & <- & Hy).
  apply list_elem_of_In in Hy, Hx. unfold tar_member in Hx.
  destruct (is_suspicious w (name y) path) eqn:Hs.
  - apply list_elem_of_singleton in Hx. discriminate.
  - assert (x = y) as ->.
    { destruct (isdir y); [apply list_elem_of_singleton in Hx; congruence |].
      destruct (issym y || islnk y); [apply elem_of_nil in Hx; destruct Hx |].
      destruct (isfile y); [| apply elem_of_nil in Hx; destruct Hx].
      destruct max_size as [m |]; [destruct (m <? size y)%Z |];
        apply list_elem_of_singleton in Hx; congruence. }
    split; [exact Hy | eapply is_suspicious_None; exact Hs].
Qed.

(** [extract] is called on handed-over entries only. *)
Lemma extract_zip_called tmp_dir items x d :
  ExtractZip x d ∈ fst (extract_zip w tmp_dir items) -> inl x ∈ items.
Proof.
  induction items as [| [y | h] items IH]; cbn [extract_zip step done fst].
  - intros H. apply elem_of_nil in H. destruct H.
  - intros H. apply elem_of_cons in H as [H | H].
    + injection H as -> _. left.
    + right. destruct (zip_extract w y tmp_dir).
      * apply elem_of_nil in H. destruct H.
      * apply IH. exact H.
  - intros H. apply elem_of_cons in H as [H | H]; [discriminate |].
    right. apply IH. exact H.
Qed.

Lemma extract_tar_called tmp_dir items x d :
  ExtractTar x d ∈ fst (extract_tar w tmp_dir items) -> inl x ∈ items.
Proof.
  induction items as [| [y | h] items IH]; cbn [extract_tar step done fst].
  - intros H. apply elem_of_nil in H. destruct H.
  - intros H. apply elem_of_cons in H as [H | H].
    + injection H as -> _. left.
    + right. destruct (tar_extract w y tmp_dir).
      * apply elem_of_nil in H. destruct H.
      * apply IH. exact H.
  - intros H. apply elem_of_cons in H as [H | H]; [discriminate |].
    right. apply IH. exact H.
Qed.

Lemma extract_zip_no_tar tmp_dir items x d :
  ExtractTar x d ∉ fst (extract_zip w tmp_dir items).
Proof.
  induction items as [| [y | h] items IH]; cbn [extract_zip step done fst].
  - apply not_elem_of_nil.
  - apply not_elem_of_cons. split; [discriminate |].
    destruct (zip_extract w y tmp_dir); [apply not_elem_of_nil | exact IH].
  - apply not_elem_of_cons. split; [discriminate | exact IH].
Qed.

Lemma extract_tar_no_zip tmp_dir items x d :
  ExtractZip x d ∉ fst (extract_tar w tmp_dir items).
Proof.
  induction items as [| [y | h] items IH]; cbn [extract_tar step done fst].
  - apply not_elem_of_nil.
  - apply not_elem_of_cons. split; [discriminate |].
    destruct (tar_extract w y tmp_dir); [apply not_elem_of_nil | exact IH].
  - apply not_elem_of_cons. split; [discriminate | exact IH].
Qed.

Lemma process_zipfile_extracts path tmp_dir x d :
  ExtractZip x d ∈ fst (process_zipfile w path tmp_dir) ->
  suspicious_path (filename x) = false.
Proof.
  unfold process_zipfile. destruct (ZipFile w path) as [fd | e].
  - intros H. apply extract_zip_called, filter_zip_approved in H. tauto.
  - intros H. apply elem_of_nil in H. destruct H.
Qed.

Lemma process_tarfile_extracts path tmp_dir x d :
  ExtractTar x d ∈ fst (process_tarfile w path tmp_dir) ->
  suspicious_path (name x) = false.
Proof.
  unfold process_tarfile. destruct (tarfile_open w path) as [fd | e].
  - intros H. apply extract_tar_called, filter_tar_approved in H. tauto.
  - intros H. apply elem_of_nil in H. destruct H.
Qed.

End Archive.

(** ** The archive analyzer *)

Section Analyzer.

Import rules archive.

Variable w : World.

(** The run of the analyzer on a file with a supported content type,
    when [mkdtemp] returns the directory [d]. *)
Lemma archive_analyzer_supported loc mime d :
  is_dir w (location loc) = false ->
  metadata loc !! "mime" = Some (PyStr mime) ->
  mime ∈ SUPPORTED_MIME ->
  make_tmp_dir w loc = Ok d ->
  archive_analyzer w loc
  = step (Mkdtemp d)
      (step (Yield (Location (create_child w loc d true)))
         (except_read_error w loc (unpack w loc (PyStr mime) d))).
Proof.
  intros Hdir Hmime Hsup Hd. unfold archive_analyzer, metadata_mime.
  rewrite Hdir, Hmime. cbn [supported].
  rewrite bool_decide_eq_true_2 by exact Hsup. rewrite Hd. reflexivity.
Qed.

(** When [mkdtemp] raises, the analyzer raises the same exception before
    it yields anything. *)
Lemma archive_analyzer_no_directory loc mime e :
  is_dir w (location loc) = false ->
  metadata loc !! "mime" = Some (PyStr mime) ->
  mime ∈ SUPPORTED_MIME ->
  make_tmp_dir w loc = Raise e ->
  archive_analyzer w loc = fail e.
Proof.
  intros Hdir Hmime Hsup Hd. unfold archive_analyzer, metadata_mime.
  rewrite Hdir, Hmime. cbn [supported].
  rewrite bool_decide_eq_true_2 by exact Hsup. rewrite Hd. reflexivity.
Qed.

(** A location that is a directory, or whose content type is not
    supported, is skipped. *)
Lemma archive_analyzer_skipped loc :
  is_dir w (location loc) = true \/
  (exists mime, metadata loc !! "mime" = Some mime /\ supported mime = false) ->
  archive_analyzer w loc = done.
Proof.
  unfold archive_analyzer, metadata_mime.
  intros [-> | (mime & -> & ->)]; [reflexivity |].
  destruct (is_dir w (location loc)); reflexivity.
Qed.

Lemma except_read_error_events loc body ev :
  ev ∈ fst (except_read_error w loc body) ->
  ev ∈ fst body \/ exists hit, ev = Yield (Hit hit).
Proof.
  unfold except_read_error. destruct (snd body) as [exc |]; [| auto].
  destruct (is_read_error exc); [| auto].
  destruct (from_generic_exception w loc exc) as [hit | e]; cbn [fst]; [| auto].
  intros H. apply elem_of_app in H as [H | H]; [auto |].
  apply list_elem_of_singleton in H. eauto.
Qed.

Lemma archive_analyzer_events loc ev :
  ev ∈ fst (archive_analyzer w loc) ->
  (exists dir, ev = Mkdtemp dir) \/ (exists x, ev = Yield x) \/
  (exists tmp_dir, ev ∈ fst (process_zipfile w (location loc) tmp_dir)) \/
  (exists tmp_dir, ev ∈ fst (process_tarfile w (location loc) tmp_dir)).
Proof.
  unfold archive_analyzer.
  destruct (is_dir w (location loc)).
  { intros H. apply elem_of_nil in H. destruct H. }
  destruct (metadata_mime loc) as [mime | e].
  2: { intros H. apply elem_of_nil in H. destruct H. }
  destruct (negb (supported mime)).
  { intros H. apply elem_of_nil in H. destruct H. }
  destruct (make_tmp_dir w loc) as [tmp_dir | e].
  2: { intros H. apply elem_of_nil in H. destruct H. }
  cbn [step fst]. intros H.
  apply elem_of_cons in H as [-> | H]; [eauto |].
  apply elem_of_cons in H as [-> | H]; [eauto |].
  apply except_read_error_events in H as [H | [hit ->]]; [| eauto].
  unfold unpack in H.
  destruct (py_eqb mime (PyStr "application/zip")); [eauto |].
  destruct (supported mime); [eauto 6 |].
  apply elem_of_nil in H. destruct H.
Qed.

(** The analyzer never calls [extract] on a suspicious entry. *)
Lemma archive_analyzer_extracts loc :
  (forall x d, ExtractZip x d ∈ fst (archive_analyzer w loc) ->
               suspicious_path (filename x) = false) /\
  (forall x d, ExtractTar x d ∈ fst (archive_analyzer w loc) ->
               suspicious_path (name x) = false).
Proof.
  split; intros x d H;
    apply archive_analyzer_events in H
      as [[dir H] | [[y H] | [[tmp H] | [tmp H]]]]; try discriminate.
  - eapply process_zipfile_extracts; exact H.
  - unfold process_tarfile in H. destruct (tarfile_open w (location loc)).
    + exfalso. eapply extract_tar_no_zip; exact H.
    + apply elem_of_nil in H. destruct H.
  - unfold process_zipfile in H. destruct (ZipFile w (location loc)).
    + exfalso. eapply extract_zip_no_tar; exact H.
    + apply elem_of_nil in H. destruct H.
  - eapply process_tarfile_extracts; exact H.
Qed.

End Analyzer.

(** ** Suspicious entries *)

Section Claims.

Import rules archive.

(** C3. An entry whose path starts with ["/"] is classified
    [absolute_path]; otherwise an entry with a path component [".."] is
    classified [parent_reference]; either hit has the configured score, 50
    by default; the absolute-path check comes first; and the zip path, the
    tar path and the analyzer never call [extract] on such an entry. *)
Theorem suspicious_entry_rejected (w : World) (pth : string) :
  startswith pth "/" = true \/ ".." ∈ split "/" pth ->
  let entry_type :=
    if startswith pth "/" then "absolute_path" else "parent_reference" in
  let rule_name :=
    if startswith pth "/" then "suspicious-archive-entry-absolute-path"
    else "suspicious-archive-entry-parent-reference" in
  (forall loc, exists hit,
      is_suspicious w pth loc = Some hit /\
      cls hit = SuspiciousArchiveEntry /\
      extra hit = [("entry_type", PyStr entry_type);
                   ("entry_path", PyStr (normalize_path w pth))] /\
      score hit = Some (config.get_score_or_default (cfg w) rule_name 50) /\
      (config.scores (cfg w) !! rule_name = None -> score hit = Some 50%Z) /\
      (forall max_size x, filename x = pth ->
                          zip_entry w loc max_size x = [inr hit]) /\
      (forall max_size x, name x = pth ->
                          tar_member w loc max_size x = [inr hit])) /\
  (forall path tmp_dir x d,
      filename x = pth ->
      ExtractZip x d ∉ fst (process_zipfile w path tmp_dir)) /\
  (forall path tmp_dir x d,
      name x = pth ->
      ExtractTar x d ∉ fst (process_tarfile w path tmp_dir)) /\
  (forall loc x d,
      filename x = pth -> ExtractZip x d ∉ fst (archive_analyzer w loc)) /\
  (forall loc x d,
      name x = pth -> ExtractTar x d ∉ fst (archive_analyzer w loc)).
Proof.
  intros Hsus entry_type rule_name.
  apply suspicious_path_spec in Hsus.
  assert (forall loc, exists hit,
             is_suspicious w pth loc = Some hit /\
             cls hit = SuspiciousArchiveEntry /\
             extra hit = [("entry_type", PyStr entry_type);
                          ("entry_path", PyStr (normalize_path w pth))] /\
             score hit
             = Some (config.get_score_or_default (cfg w) rule_name 50))
    as Hhit.
  { intros loc. unfold is_suspicious, entry_type, rule_name.
    unfold suspicious_path in Hsus.
    destruct (startswith pth "/"); cbn [orb] in Hsus.
    - eexists. split; [reflexivity |]. repeat split.
    - rewrite Hsus. eexists. split; [reflexivity |]. repeat split. }
  split; [| repeat split].
  - intros loc. destruct (Hhit loc) as (hit & Hs & Hcls & Hextra & Hscore).
    exists hit. repeat split; try assumption.
    + intros Hnone. rewrite Hscore. unfold config.get_score_or_default.
      rewrite Hnone. reflexivity.
    + intros max_size x <-. unfold zip_entry. rewrite Hs. reflexivity.
    + intros max_size x <-. unfold tar_member. rewrite Hs. reflexivity.
  - intros path tmp_dir x d <- Hin.
    apply process_zipfile_extracts in Hin. congruence.
  - intros path tmp_dir x d <- Hin.
    apply process_tarfile_extracts in Hin. congruence.
  - intros loc x d <- Hin.
    apply archive_analyzer_extracts in Hin. congruence.
  - intros loc x d <- Hin.
    apply archive_analyzer_extracts in Hin. congruence.
Qed.

Lemma suspicious_entry_rejected_witness :
  ".." ∈ split "/" "../../etc/passwd" /\
  (exists hit,
      is_suspicious (world None [] []) "../../etc/passwd" "pkg.zip" = Some hit /\
      extra hit = [("entry_type", PyStr "parent_reference");
                   ("entry_path", PyStr "../../etc/passwd")] /\
      score hit = Some 50%Z) /\
  forall d,
    ExtractZip (mkZipInfo "../../etc/passwd" 42) d ∉
      fst (archive_analyzer
             (world None [mkZipInfo "../../etc/passwd" 42] [])
             (file_location "pkg.zip" "application/zip")).
Proof.
  assert (".." ∈ split "/" "../../etc/passwd") as Hin by (cbn; left).
  split; [exact Hin |]. split.
  - destruct (suspicious_entry_rejected (world None [] []) "../../etc/passwd"
                (or_intror Hin)) as [H _].
    destruct (H "pkg.zip") as (hit & Hs & _ & Hextra & _ & Hdefault & _).
    exists hit. repeat split; [exact Hs | exact Hextra |].
    apply Hdefault. reflexivity.
  - intros d.
    apply (suspicious_entry_rejected
             (world None [mkZipInfo "../../etc/passwd" 42] [])
             "../../etc/passwd" (or_intror Hin)).
    reflexivity.
Defined.

(** ** Size limits *)

(** [filter_zip] checks every entry that is not suspicious against the
    maximum in force: the explicit [max_size], or else the configured one. *)
Lemma filter_zip_size_limit (w : World) path max_size x :
  suspicious_path (filename x) = false ->
  let limit :=
    match max_size with
    | None => config.get_maximum_archive_size (cfg w)
    | Some m => Some m
    end in
  filter_zip w [x] path max_size
  = match limit with
    | Some m =>
        if (m <? file_size x)%Z
        then [inr (zip_size_hit path (filename x) (file_size x) m)]
        else [inl x]
    | None => [inl x]
    end.
Proof.
  intros Hs limit. unfold filter_zip. cbn [map concat]. unfold zip_entry.
  apply (is_suspicious_None w _ path) in Hs. rewrite Hs. fold limit.
  destruct limit as [m |]; [destruct (m <? file_size x)%Z |]; reflexivity.
Qed.

(** [filter_tar] checks a regular file against an explicit [max_size]. *)
Lemma filter_tar_explicit_limit (w : World) path m member :
  suspicious_path (name member) = false ->
  isfile member = true ->
  filter_tar w [member] path (Some m)
  = if (m <? size member)%Z
    then [inr (tar_size_hit w path (name member) (size member) m)]
    else [inl member].
Proof.
  intros Hs Hfile. unfold filter_tar. cbn [map concat]. unfold tar_member.
  apply (is_suspicious_None w _ path) in Hs. rewrite Hs.
  assert (isdir member = false /\ issym member = false
          /\ islnk member = false) as (-> & -> & ->).
  { unfold isfile, isdir, issym, islnk in *.
    destruct (type member); try discriminate; auto. }
  cbn [orb]. rewrite Hfile.
  destruct (m <? size member)%Z; reflexivity.
Qed.

(** Without an explicit [max_size], [filter_tar] hands over every regular
    file that is not suspicious, whatever its size and whatever maximum is
    configured. *)
Lemma filter_tar_without_limit (w : World) path member :
  suspicious_path (name member) = false ->
  isfile member = true ->
  filter_tar w [member] path None = [inl member].
Proof.
  intros Hs Hfile. unfold filter_tar. cbn [map concat]. unfold tar_member.
  apply (is_suspicious_None w _ path) in Hs. rewrite Hs.
  assert (isdir member = false /\ issym member = false
          /\ islnk member = false) as (-> & -> & ->).
  { unfold isfile, isdir, issym, islnk in *.
    destruct (type member); try discriminate; auto. }
  cbn [orb]. rewrite Hfile. reflexivity.
Qed.

(** C2 (the code departs from the claim).  With a configured maximum of 5
    and no override, a tar archive with one regular file of size 10:
    [filter_tar] reads the configured maximum, drops it, and hands the file
    over; the analyzer extracts it and reports nothing.  [filter_zip], on a
    zip archive with the same entry, assigns the configured maximum and
    reports the entry with [size = 10] and [limit = 5]. *)
Theorem filter_tar_drops_configured_maximum :
  config.get_maximum_archive_size (cfg limit_world) = Some 5%Z /\
  filter_tar limit_world [big_member] "pkg.tar.gz" None = [inl big_member] /\
  archive_analyzer limit_world tar_location
  = ([Mkdtemp (extraction_dir limit_world tar_location);
      Yield (Location (create_child limit_world tar_location
                         (extraction_dir limit_world tar_location) true));
      ExtractTar big_member (extraction_dir limit_world tar_location)], None) /\
  filter_zip limit_world [big_entry] "pkg.zip" None
  = [inr (zip_size_hit "pkg.zip" "data.bin" 10 5)] /\
  archive_analyzer limit_world zip_location
  = ([Mkdtemp (extraction_dir limit_world zip_location);
      Yield (Location (create_child limit_world zip_location
                         (extraction_dir limit_world zip_location) true));
      Yield (Hit (zip_size_hit "pkg.zip" "data.bin" 10 5))], None).
Proof.
  split; [reflexivity |]. split; [reflexivity |].
  split; [| split; [reflexivity |]].
  - rewrite (archive_analyzer_supported limit_world tar_location
               "application/gzip" (extraction_dir limit_world tar_location));
      [reflexivity | reflexivity | reflexivity | | reflexivity].
    repeat constructor.
  - rewrite (archive_analyzer_supported limit_world zip_location
               "application/zip" (extraction_dir limit_world zip_location));
      [reflexivity | reflexivity | reflexivity | | reflexivity].
    repeat constructor.
Qed.

(** The hits of [is_suspicious] carry no [reason]; the only hits with
    [reason = file_size_exceeded] are the two size hits. *)
Lemma is_suspicious_reason (w : World) pth loc hit :
  is_suspicious w pth loc = Some hit -> extra_get "reason" hit = None.
Proof.
  unfold is_suspicious.
  destruct (startswith pth "/"); [intros [= <-]; reflexivity |].
  destruct (existsb _ (parts pth)); [intros [= <-]; reflexivity | discriminate].
Qed.

Lemma filter_zip_hits (w : World) arch path max_size hit :
  inr hit ∈ filter_zip w arch path max_size ->
  extra_get "reason" hit = None \/
  exists x m, x ∈ arch /\ (m < file_size x)%Z /\
              hit = zip_size_hit path (filename x) (file_size x) m.
Proof.
  unfold filter_zip. intros Hin.
  apply list_elem_of_In, in_concat in Hin as (l & Hl & Hx).
  apply in_map_iff in Hl as (y & <- & Hy).
  apply list_elem_of_In in Hy, Hx. unfold zip_entry in Hx.
  destruct (is_suspicious w (filename y) path) eqn:Hs.
  - apply list_elem_of_singleton in Hx. injection Hx as ->.
    left. eapply is_suspicious_reason; exact Hs.
  - destruct (match max_size with
              | Some m => Some m
              | None => config.get_maximum_archive_size (cfg w)
              end) as [m |].
    + destruct (m <? file_size y)%Z eqn:Hlt;
        apply list_elem_of_singleton in Hx; [| discriminate].
      injection Hx as ->. right. exists y, m.
      apply Z.ltb_lt in Hlt. auto.
    + apply list_elem_of_singleton in Hx. discriminate.
Qed.

Lemma filter_tar_hits (w : World) arch path max_size hit :
  inr hit ∈ filter_tar w arch path max_size ->
  extra_get "reason" hit = None \/
  exists x m, x ∈ arch /\ isfile x = true /\ (m < size x)%Z /\
              hit = tar_size_hit w path (name x) (size x) m.
Proof.
  unfold filter_tar. intros Hin.
  apply list_elem_of_In, in_concat in Hin as (l & Hl & Hx).
  apply in_map_iff in Hl as (y & <- & Hy).
  apply list_elem_of_In in Hy, Hx. unfold tar_member in Hx.
  destruct (is_suspicious w (name y) path) eqn:Hs.
  - apply list_elem_of_singleton in Hx. injection Hx as ->.
    left. eapply is_suspicious_reason; exact Hs.
  - destruct (isdir y); [apply list_elem_of_singleton in Hx; discriminate |].
    destruct (issym y || islnk y); [apply elem_of_nil in Hx; destruct Hx |].
    destruct (isfile y) eqn:Hfile; [| apply elem_of_nil in Hx; destruct Hx].
    destruct max_size as [m |].
    + destruct (m <? size y)%Z eqn:Hlt;
        apply list_elem_of_singleton in Hx; [| discriminate].
      injection Hx as ->. right. exists y, m.
      apply Z.ltb_lt in Hlt. auto.
    + apply list_elem_of_singleton in Hx. discriminate.
Qed.

(** C8.  The hit for an oversized regular file in a tar archive has the
    score configured for ["archive-file-size-exceeded"], 100 by default.
    The hit for an oversized zip entry is built without a score and the
    configuration is not read for it: its severity is the default of a
    finding, 10, whatever is configured. *)
Theorem oversized_entry_scores (w : World) path max_size hit :
  extra_get "reason" hit = Some (PyStr "file_size_exceeded") ->
  (forall arch,
      inr hit ∈ filter_tar w arch path max_size ->
      severity hit
      = config.get_score_or_default (cfg w) "archive-file-size-exceeded" 100 /\
      (config.scores (cfg w) !! "archive-file-size-exceeded" = None ->
       severity hit = 100%Z)) /\
  (forall arch,
      inr hit ∈ filter_zip w arch path max_size ->
      score hit = None /\ severity hit = 10%Z).
Proof.
  intros Hreason. split.
  - intros arch Hin.
    apply filter_tar_hits in Hin as [Hnone | (x & m & _ & _ & _ & ->)];
      [congruence |].
    split; [reflexivity |].
    intros Hcfg. cbn [tar_size_hit score severity default].
    unfold severity. cbn [tar_size_hit score default].
    unfold config.get_score_or_default. rewrite Hcfg. reflexivity.
  - intros arch Hin.
    apply filter_zip_hits in Hin as [Hnone | (x & m & _ & _ & ->)];
      [congruence | split; reflexivity].
Qed.

Lemma oversized_entry_scores_witness :
  severity (tar_size_hit plain_world "pkg.tar" "data.bin" 10 5) = 100%Z /\
  severity (zip_size_hit "pkg.zip" "data.bin" 10 5) = 10%Z.
Proof.
  split.
  - apply (oversized_entry_scores plain_world "pkg.tar" (Some 5%Z)
             (tar_size_hit plain_world "pkg.tar" "data.bin" 10 5) eq_refl)
      with (arch := [big_member]); [| reflexivity].
    cbn. left.
  - apply (oversized_entry_scores plain_world "pkg.zip" (Some 5%Z)
             (zip_size_hit "pkg.zip" "data.bin" 10 5) eq_refl)
      with (arch := [big_entry]).
    cbn. left.
Defined.

(** ** Unreadable archives and the order of the analyzer's steps *)

(** C5 (as amended).  When the temporary directory has been created and
    the open of the archive of a supported location raises
    [tarfile.ReadError] or [zipfile.BadZipFile] with a message, the analyzer
    yields, after the child location, exactly one hit, with [reason =
    archive_read_error], the message, the class name of the error and the
    content type, and ends without an exception.  When the open raises an
    exception of another class, that exception leaves the analyzer and no
    hit is yielded for it. *)
Theorem unreadable_archive_reported (w : World) loc mime d e :
  is_dir w (location loc) = false ->
  metadata loc !! "mime" = Some (PyStr mime) ->
  mime ∈ SUPPORTED_MIME ->
  make_tmp_dir w loc = Ok d ->
  (mime = "application/zip" /\ ZipFile w (location loc) = Raise e) \/
  (mime <> "application/zip" /\ tarfile_open w (location loc) = Raise e) ->
  (exc_cls e = ReadError \/ exc_cls e = BadZipFile ->
   forall msg rest,
     exc_args e = msg :: rest ->
     archive_analyzer w loc
     = ([Mkdtemp d;
         Yield (Location (create_child w loc d true));
         Yield (Hit (mkRule ArchiveAnomaly
                       (Some (location loc))
                       (Some "Could not open the archive for analysis")
                       ("archive_anomaly#read_error#" +:+ location loc)
                       (Some (config.get_score_or_default (cfg w)
                                "corrupted-archive" 10))
                       [("reason", PyStr "archive_read_error");
                        ("exc_message", msg);
                        ("exc_type", PyStr (class_name (exc_cls e)));
                        ("mime", PyStr mime)]))],
        None)) /\
  (exc_cls e <> ReadError -> exc_cls e <> BadZipFile ->
   archive_analyzer w loc
   = ([Mkdtemp d; Yield (Location (create_child w loc d true))], Some e)).
Proof.
  intros Hdir Hmime Hsup Hd Hopen.
  rewrite (archive_analyzer_supported w loc mime d Hdir Hmime Hsup Hd).
  assert (unpack w loc (PyStr mime) d = fail e) as ->.
  { unfold unpack. cbn [py_eqb supported].
    destruct Hopen as [[-> Hopen] | [Hne Hopen]].
    - cbn. unfold process_zipfile. rewrite Hopen. reflexivity.
    - assert (String.eqb mime "application/zip" = false) as ->
        by (apply String.eqb_neq; assumption).
      rewrite bool_decide_eq_true_2 by exact Hsup.
      unfold process_tarfile. rewrite Hopen. reflexivity. }
  unfold except_read_error, fail. cbn [fst snd]. split.
  - intros Hcls msg rest Hargs.
    assert (is_read_error e = true) as ->.
    { unfold is_read_error. destruct Hcls as [-> | ->]; reflexivity. }
    unfold from_generic_exception, metadata_mime, getitem.
    rewrite Hargs, Hmime. reflexivity.
  - intros Hr Hb.
    assert (is_read_error e = false) as ->.
    { unfold is_read_error. destruct (exc_cls e); try reflexivity;
        congruence. }
    reflexivity.
Qed.

Lemma unreadable_archive_reported_witness :
  exists child hit,
    archive_analyzer corrupt_world zip_location
    = ([Mkdtemp "/tmp/aura_pkg__sandboxpkg.zip"; Yield (Location child);
        Yield (Hit hit)], None) /\
    extra hit = [("reason", PyStr "archive_read_error");
                 ("exc_message", PyStr "File is not a zip file");
                 ("exc_type", PyStr "BadZipFile");
                 ("mime", PyStr "application/zip")].
Proof.
  destruct (unreadable_archive_reported corrupt_world zip_location
              "application/zip" "/tmp/aura_pkg__sandboxpkg.zip"
              (Exn BadZipFile [PyStr "File is not a zip file"])
              eq_refl eq_refl) as [H _].
  - repeat constructor.
  - reflexivity.
  - left. split; reflexivity.
  - do 2 eexists. split.
    + apply (H (or_intror eq_refl) _ _ eq_refl).
    + reflexivity.
Defined.

(** C5 (counterexample to the claim as stated).  A tar archive whose
    compressed stream is truncated: the decompressor raises [EOFError],
    which is not a read error of [tarfile] or [zipfile]; the exception
    leaves the analyzer after the child location and no hit is yielded. *)
Lemma truncated_stream_not_reported :
  exists child e,
    archive_analyzer truncated_world tar_location
    = ([Mkdtemp "/tmp/aura_pkg__sandboxpkg.tar.gz"; Yield (Location child)],
       Some e) /\
    exc_cls e = EOFError /\
    forall hit, Yield (Hit hit) ∉ fst (archive_analyzer truncated_world tar_location).
Proof.
  assert (archive_analyzer truncated_world tar_location
          = ([Mkdtemp "/tmp/aura_pkg__sandboxpkg.tar.gz";
              Yield (Location (create_child truncated_world tar_location
                                 "/tmp/aura_pkg__sandboxpkg.tar.gz" true))],
             Some (Exn EOFError
                     [PyStr "Compressed file ended before the end-of-stream marker was reached"])))
    as Hrun.
  { rewrite (archive_analyzer_supported truncated_world tar_location
               "application/gzip" "/tmp/aura_pkg__sandboxpkg.tar.gz");
      [reflexivity | reflexivity | reflexivity | | reflexivity].
    repeat constructor. }
  do 2 eexists. split; [exact Hrun |]. split; [reflexivity |].
  intros hit Hin. rewrite Hrun in Hin. cbn [fst] in Hin.
  apply elem_of_cons in Hin as [Hin | Hin]; [discriminate |].
  apply elem_of_cons in Hin as [Hin | Hin]; [discriminate |].
  apply elem_of_nil in Hin. exact Hin.
Qed.

(** C6. On a file with a supported content type the analyzer first calls
    [mkdtemp].  When that raises, the analyzer raises the same exception
    and nothing is yielded or extracted.  When it returns a directory, the
    analyzer yields the child location that points at it, with [cleanup =
    True] and the scanned location as its parent; every call of [extract]
    and every hit comes later in the run, whether or not the run then ends
    with an exception. *)
Theorem child_location_yielded_first (w : World) loc mime :
  is_dir w (location loc) = false ->
  metadata loc !! "mime" = Some (PyStr mime) ->
  mime ∈ SUPPORTED_MIME ->
  match make_tmp_dir w loc with
  | Raise e => archive_analyzer w loc = ([], Some e)
  | Ok d =>
      let child := create_child w loc d true in
      location child = d /\
      cleanup child = true /\
      parent child = Some loc /\
      exists rest,
        fst (archive_analyzer w loc)
        = Mkdtemp d :: Yield (Location child) :: rest /\
        snd (archive_analyzer w loc)
        = snd (except_read_error w loc (unpack w loc (PyStr mime) d)) /\
        forall i ev,
          fst (archive_analyzer w loc) !! i = Some ev ->
          (exists x d', ev = ExtractZip x d')
          \/ (exists x d', ev = ExtractTar x d')
          \/ (exists hit, ev = Yield (Hit hit)) ->
          1 < i
  end.
Proof.
  intros Hdir Hmime Hsup.
  destruct (make_tmp_dir w loc) as [d | e] eqn:Hd.
  2: { exact (archive_analyzer_no_directory w loc mime e Hdir Hmime Hsup Hd). }
  intros child.
  split; [reflexivity |]. split; [reflexivity |]. split; [reflexivity |].
  rewrite (archive_analyzer_supported w loc mime d Hdir Hmime Hsup Hd).
  cbn [step fst snd]. eexists. split; [reflexivity |]. split; [reflexivity |].
  intros i ev Hi Hev.
  destruct i as [| [| i]]; [| | lia]; cbn in Hi; injection Hi as <-;
    destruct Hev as [(x & d' & H) | [(x & d' & H) | (hit & H)]]; discriminate.
Qed.

End Claims.

Lemma child_location_yielded_first_witness :
  (exists child rest,
      archive.archive_analyzer failing_world zip_location
      = (archive.Mkdtemp "/tmp/aura_pkg__sandboxpkg.zip"
           :: archive.Yield (archive.Location child) :: rest,
         Some (Exn OSError [PyStr "No space left on device"])) /\
      archive.location child = "/tmp/aura_pkg__sandboxpkg.zip" /\
      archive.cleanup child = true) /\
  archive.archive_analyzer no_directory_world zip_location
  = ([], Some (Exn OSError [PyInt 36; PyStr "File name too long"])).
Proof.
  split.
  - pose proof (child_location_yielded_first failing_world zip_location
                  "application/zip" eq_refl eq_refl) as H.
    change (archive.make_tmp_dir failing_world zip_location)
      with (@Ok string "/tmp/aura_pkg__sandboxpkg.zip") in H.
    destruct H as (Hloc & Hclean & _ & rest & Hfst & Hsnd & _).
    + repeat constructor.
    + do 2 eexists. split; [| split; [exact Hloc | exact Hclean]].
      rewrite (surjective_pairing
                 (archive.archive_analyzer failing_world zip_location)).
      rewrite Hfst, Hsnd. reflexivity.
  - apply (child_location_yielded_first no_directory_world zip_location
             "application/zip" eq_refl eq_refl).
    repeat constructor.
Defined.

(** ** End-to-end scenarios of the specification *)

(** A zip archive with the one entry [../../etc/passwd]: after the child
    location, exactly one hit, of type [parent_reference], and no call of
    [extract]. *)
Example zip_parent_reference_scenario :
  exists child hit,
    archive.archive_analyzer
      (world None [archive.mkZipInfo "../../etc/passwd" 42] []) zip_location
    = ([archive.Mkdtemp "/tmp/aura_pkg__sandboxpkg.zip";
        archive.Yield (archive.Location child);
        archive.Yield (archive.Hit hit)], None) /\
    rules.extra hit = [("entry_type", PyStr "parent_reference");
                       ("entry_path", PyStr "../../etc/passwd")] /\
    rules.score hit = Some 50%Z.
Proof.
  do 2 eexists. split; [| split].
  - rewrite (archive_analyzer_supported _ zip_location "application/zip"
               "/tmp/aura_pkg__sandboxpkg.zip");
      [reflexivity | reflexivity | reflexivity | repeat constructor
      | reflexivity].
  - reflexivity.
  - reflexivity.
Qed.

(** [generate_private_key(4096)], positional: one hit with the size and no
    raised score. *)
Example positional_4096_scenario :
  exists hit,
    crypto.node_Call
      (mkContext
         (Call post_init rsa_generate_private_key [Number post_init 4096]
            (PyDict []))
         (mkVisitor "setup.py") 0 false)
    = Ok [hit] /\
    rules.extra_get "key_size" hit = Some (PyInt 4096) /\
    rules.score hit = None.
Proof. eexists. split; [vm_compute; reflexivity |]. split; reflexivity. Qed.

(** * Further properties *)

(** ** Taints *)

(** X1. [Taints.__add__] is the maximum in the order of the enumeration
    values; it is idempotent and [SAFE] is its neutral element. *)
Theorem Taints_add_max a b :
  Taints_value (Taints_add a b) = Z.max (Taints_value a) (Taints_value b) /\
  Taints_add a a = a /\
  Taints_add SAFE a = a /\
  Taints_add a SAFE = a.
Proof. destruct a, b; repeat split. Qed.

(** ** Static nodes *)

(** X2. [is_static] is [True] exactly on the nodes built from [Dictionary]
    and [BinOp] alone whose dictionary entries are plain [str] or [int]
    values or such nodes again; a node that contains a [Number], a
    [String] or any other node class below such a structure is never
    static. *)
Theorem is_static_true_iff n : is_static n = Ok true <-> static_shape n = true.
Proof.
  induction n using NodeType_nested_ind;
    try (cbn; split; discriminate).
  - (* Dictionary *)
    cbn [is_static static_shape].
    set (all_static := fix all_static (l : list NodeType) : result bool :=
           match l with
           | [] => Ok true
           | x :: l' =>
               if is_basic x then all_static l'
               else let* b := is_static x in
                    if b then all_static l' else Ok false
           end).
    assert (forall l, Forall (fun n => is_static n = Ok true
                                       <-> static_shape n = true) l ->
                      all_static l = Ok true
                      <-> forallb (fun x => is_basic x || static_shape x) l
                          = true) as Hall.
    { induction 1 as [| x l Hx Hl IHl]; cbn [all_static forallb];
        [split; reflexivity |].
      destruct (is_basic x); cbn [orb andb]; [exact IHl |].
      destruct (is_static x) as [[|] | e]; cbn [bind].
      - assert (static_shape x = true) as -> by (apply Hx; reflexivity).
        exact IHl.
      - destruct (static_shape x); [| split; discriminate].
        destruct Hx as [_ Hx]. discriminate Hx. reflexivity.
      - destruct (static_shape x); [| split; discriminate].
        destruct Hx as [_ Hx]. discriminate Hx. reflexivity. }
    pose proof (Hall ks H) as Hks. pose proof (Hall vs H0) as Hvs.
    destruct (all_static ks) as [[|] | e]; cbn [bind].
    + assert (forallb (fun x => is_basic x || static_shape x) ks = true) as ->
        by (apply Hks; reflexivity).
      exact Hvs.
    + destruct (forallb _ ks); [| split; discriminate].
      destruct Hks as [_ Hks]. discriminate Hks. reflexivity.
    + destruct (forallb _ ks); [| split; discriminate].
      destruct Hks as [_ Hks]. discriminate Hks. reflexivity.
  - (* BinOp *)
    cbn [is_static static_shape].
    destruct (is_static n1) as [[|] | e]; cbn [bind].
    + assert (static_shape n1 = true) as -> by (apply IHn1; reflexivity).
      exact IHn2.
    + destruct (static_shape n1); [| split; discriminate].
      destruct IHn1 as [_ IH]. discriminate IH. reflexivity.
    + destruct (static_shape n1); [| split; discriminate].
      destruct IHn1 as [_ IH]. discriminate IH. reflexivity.
Qed.

(** ** The operators of [String] *)

Lemma str_append_assoc (a b c : string) : (a +:+ b) +:+ c = a +:+ (b +:+ c).
Proof.
  induction a as [| x a IH]; [reflexivity |].
  change (String.String x ((a +:+ b) +:+ c)
          = String.String x (a +:+ (b +:+ c))).
  f_equal. exact IH.
Qed.

Lemma str_append_length (a b : string) :
  String.length (a +:+ b) = String.length a + String.length b.
Proof.
  induction a as [| x a IH]; [reflexivity |].
  change (S (String.length (a +:+ b))
          = S (String.length a + String.length b)).
  f_equal. exact IH.
Qed.

Lemma str_repeat_add s m n :
  str_repeat s (m + n) = str_repeat s m +:+ str_repeat s n.
Proof.
  induction m as [| m IH]; cbn [str_repeat Nat.add]; [reflexivity |].
  rewrite IH. symmetry. apply str_append_assoc.
Qed.

Lemma str_repeat_mul s m n :
  str_repeat (str_repeat s m) n = str_repeat s (n * m).
Proof.
  induction n as [| n IH]; cbn [str_repeat Nat.mul]; [reflexivity |].
  rewrite IH, str_repeat_add. reflexivity.
Qed.

Lemma str_repeat_length s n :
  String.length (str_repeat s n) = n * String.length s.
Proof.
  induction n as [| n IH]; cbn [str_repeat Nat.mul]; [reflexivity |].
  rewrite str_append_length, IH. reflexivity.
Qed.

(** X3. [String.__add__] concatenates the values of two [String] nodes and
    is associative; the sum is a new node that keeps nothing of the line
    number, tags or taint of its operands; any other operand, a plain [str]
    included, raises [ASTNodeRewrite]. *)
Theorem String_add_concatenates a b c mb mc other :
  String_add a (String mb b) = Rewritten (String post_init (a +:+ b)) /\
  String_add (a +:+ b) (String mc c) = String_add a (String post_init (b +:+ c)) /\
  ((forall m v, other <> String m v) ->
   String_add a other = ASTNodeRewrite other) /\
  String_add a (PyStr b) = ASTNodeRewrite (PyStr b).
Proof.
  repeat split.
  - cbn. rewrite str_append_assoc. reflexivity.
  - intros Hother. destruct other; try reflexivity.
    exfalso. eapply Hother. reflexivity.
Qed.

Lemma str_append_nil_r (a : string) : a +:+ "" = a.
Proof.
  induction a as [| x a IH]; [reflexivity |].
  change (String.String x (a +:+ "") = String.String x a).
  f_equal. exact IH.
Qed.

(** A product that is a node is the repetition. *)
Lemma String_mul_Rewritten lim s n r :
  String_mul lim s (PyInt n) = Rewritten r ->
  r = String post_init (str_mul s n).
Proof.
  unfold String_mul.
  destruct ((n <? - maxsize lim - 1)%Z || (maxsize lim <? n)%Z);
    [discriminate |].
  destruct (Z.ltb_spec n 1) as [Hn | Hn].
  { intros [= <-]. unfold str_mul. rewrite Z2Nat.nonpos by lia. reflexivity. }
  destruct (Z.eqb_spec n 1) as [-> | Hn1].
  { intros [= <-]. unfold str_mul. change (Z.to_nat 1) with 1.
    cbn [str_repeat]. rewrite str_append_nil_r. reflexivity. }
  cbv zeta.
  destruct (maxsize lim / n <? Z.of_nat (String.length s))%Z;
    [discriminate |].
  destruct ((n * Z.of_nat (String.length s) =? 0)%Z
            || allocates lim (n * Z.of_nat (String.length s)));
    [| discriminate].
  intros [= <-]. reflexivity.
Qed.

(** X4. [String.__mul__] by an [int] [n].  A count outside the index range
    of the interpreter raises [OverflowError], in both directions; a count
    within it that is not positive gives the empty string; a count above
    one raises [OverflowError] when the repeated length exceeds
    [sys.maxsize] and [MemoryError] when the result cannot be allocated;
    otherwise the product is the value repeated [n] times.  Whenever the
    product is a node, it is a fresh [String] with the [n]-fold
    repetition, [n] times as long, and repeating it again multiplies the
    counts.  A [Number] node as the factor raises [ASTNodeRewrite]. *)
Theorem String_mul_repeats lim s (n : Z) :
  (0 < maxsize lim)%Z ->
  let total := (n * Z.of_nat (String.length s))%Z in
  ((n < - maxsize lim - 1 \/ maxsize lim < n)%Z ->
   String_mul lim s (PyInt n) = OverflowError) /\
  ((- maxsize lim - 1 <= n <= 0)%Z ->
   String_mul lim s (PyInt n) = Rewritten (String post_init "")) /\
  ((1 < n <= maxsize lim)%Z -> (maxsize lim < total)%Z ->
   String_mul lim s (PyInt n) = OverflowError) /\
  ((1 < n <= maxsize lim)%Z -> (0 < total <= maxsize lim)%Z ->
   allocates lim total = false ->
   String_mul lim s (PyInt n) = MemoryError) /\
  ((0 < n <= maxsize lim)%Z ->
   n = 1%Z \/
   ((total <= maxsize lim)%Z /\ (total = 0%Z \/ allocates lim total = true)) ->
   String_mul lim s (PyInt n) = Rewritten (String post_init (str_mul s n))) /\
  (forall r,
      String_mul lim s (PyInt n) = Rewritten r ->
      r = String post_init (str_mul s n) /\
      String.length (str_mul s n) = Z.to_nat n * String.length s /\
      forall m r',
        (0 <= n)%Z -> (0 <= m)%Z ->
        String_mul lim (str_mul s n) (PyInt m) = Rewritten r' ->
        r' = String post_init (str_mul s (n * m))) /\
  (forall mn v, String_mul lim s (Number mn v) = ASTNodeRewrite (Number mn v)).
Proof.
  intros Hmax total.
  assert (forall k, (0 < k <= maxsize lim)%Z ->
                    ((k <? - maxsize lim - 1)%Z || (maxsize lim <? k)%Z) = false)
    as Hrange.
  { intros k Hk. apply orb_false_intro; apply Z.ltb_ge; lia. }
  split; [| split; [| split; [| split; [| split; [| split]]]]].
  - intros Hout. unfold String_mul.
    assert (((n <? - maxsize lim - 1)%Z || (maxsize lim <? n)%Z) = true) as ->.
    { apply orb_true_iff. destruct Hout; [left | right]; apply Z.ltb_lt; lia. }
    reflexivity.
  - intros Hin. unfold String_mul.
    assert (((n <? - maxsize lim - 1)%Z || (maxsize lim <? n)%Z) = false) as ->.
    { apply orb_false_intro; apply Z.ltb_ge; lia. }
    assert ((n <? 1)%Z = true) as -> by (apply Z.ltb_lt; lia).
    reflexivity.
  - intros Hn Htotal. unfold String_mul. rewrite Hrange by lia.
    assert ((n <? 1)%Z = false) as -> by (apply Z.ltb_ge; lia).
    assert ((n =? 1)%Z = false) as -> by (apply Z.eqb_neq; lia).
    cbv zeta.
    assert ((maxsize lim / n <? Z.of_nat (String.length s))%Z = true) as ->.
    { apply Z.ltb_lt. apply Z.div_lt_upper_bound; [lia | exact Htotal]. }
    reflexivity.
  - intros Hn Htotal Halloc. unfold String_mul. rewrite Hrange by lia.
    assert ((n <? 1)%Z = false) as -> by (apply Z.ltb_ge; lia).
    assert ((n =? 1)%Z = false) as -> by (apply Z.eqb_neq; lia).
    cbv zeta.
    assert ((maxsize lim / n <? Z.of_nat (String.length s))%Z = false) as ->.
    { apply Z.ltb_ge. apply Z.div_le_lower_bound; [lia |]. unfold total in *.
      lia. }
    fold total. rewrite Halloc.
    assert ((total =? 0)%Z = false) as -> by (apply Z.eqb_neq; lia).
    reflexivity.
  - intros Hn Hok. unfold String_mul. rewrite Hrange by lia.
    assert ((n <? 1)%Z = false) as -> by (apply Z.ltb_ge; lia).
    destruct (Z.eqb_spec n 1) as [-> | Hn1].
    { unfold str_mul. change (Z.to_nat 1) with 1.
      cbn [Z.eqb Pos.eqb str_repeat]. rewrite str_append_nil_r.
      reflexivity. }
    destruct Hok as [-> | [Htotal Hok]]; [contradiction |].
    cbv zeta.
    assert ((maxsize lim / n <? Z.of_nat (String.length s))%Z = false) as ->.
    { apply Z.ltb_ge. apply Z.div_le_lower_bound; [lia |]. unfold total in *.
      lia. }
    fold total.
    assert (((total =? 0)%Z || allocates lim total) = true) as ->.
    { apply orb_true_iff. destruct Hok as [-> | ->]; auto. }
    reflexivity.
  - intros r Hr. apply String_mul_Rewritten in Hr. subst r.
    split; [reflexivity |]. split; [apply str_repeat_length |].
    intros m r' Hn Hm Hr'. apply String_mul_Rewritten in Hr'. subst r'.
    unfold str_mul. rewrite str_repeat_mul, Z2Nat.inj_mul by assumption.
    rewrite Nat.mul_comm. reflexivity.
  - reflexivity.
Qed.

Lemma String_mul_repeats_witness :
  String_mul limits_64 "ab" (PyInt (2 ^ 63)) = OverflowError /\
  String_mul limits_64 "ab" (PyInt (- 2 ^ 63 - 1)) = OverflowError /\
  String_mul limits_64 "ab" (PyInt 3) = Rewritten (String post_init "ababab").
Proof.
  destruct (String_mul_repeats limits_64 "ab" (2 ^ 63) eq_refl) as [H1 _].
  destruct (String_mul_repeats limits_64 "ab" (- 2 ^ 63 - 1) eq_refl)
    as [H2 _].
  destruct (String_mul_repeats limits_64 "ab" 3 eq_refl)
    as (_ & _ & _ & _ & H3 & _).
  split; [apply H1; right; reflexivity |].
  split; [apply H2; left; reflexivity |].
  apply H3; [split; [reflexivity | discriminate] |].
  right. split; [discriminate | right; reflexivity].
Defined.

(** ** Names resolved through a variable *)

(** X5. [Var.full_name] returns the bound value itself, not the name the
    value resolves to (no value has the attribute [fullname] that it tests
    for).  A call through a variable whose value is not a plain [str],
    with no name cached on the variable or on the call, therefore never
    matches the catalogue; when the value is a [str], that string is the
    call's resolved name. *)
Theorem Var_alias_not_resolved mc mv var_name value var_type args kwargs v d md :
  _full_name mc = None ->
  (_full_name mv = None \/ _full_name mv = Some "") ->
  full_name (Var mv var_name value var_type) = value /\
  ((forall s, value <> PyStr s) ->
   crypto.node_Call
     (mkContext (Call mc (Var mv var_name value var_type) args kwargs) v d md)
   = Ok []) /\
  (forall s, value = PyStr s ->
             full_name (Call mc (Var mv var_name value var_type) args kwargs)
             = PyStr s).
Proof.
  intros Hmc Hmv.
  assert (full_name (Var mv var_name value var_type) = value) as Hvar.
  { cbn. destruct Hmv as [-> | ->]; reflexivity. }
  split; [exact Hvar |]. split.
  - intros Hvalue. unfold crypto.node_Call. cbn [node is_ASTNode negb].
    assert (full_name (Call mc (Var mv var_name value var_type) args kwargs)
            = if is_None value then Var mv var_name value var_type else value)
      as ->.
    { cbn [full_name]. rewrite Hmc.
      change (match _full_name mv with
              | Some s => if String.eqb s "" then value else PyStr s
              | None => value
              end) with (full_name (Var mv var_name value var_type)).
      rewrite Hvar. reflexivity. }
    destruct value; try reflexivity.
    exfalso. eapply Hvalue. reflexivity.
  - intros s ->. cbn [full_name]. rewrite Hmc.
    destruct Hmv as [-> | ->]; reflexivity.
Qed.

Lemma Var_alias_not_resolved_witness :
  crypto.node_Call
    (mkContext
       (Call post_init (Var post_init "gen" rsa_generate_private_key "assign")
          [Number post_init 1024] (PyDict []))
       (mkVisitor "setup.py") 0 false)
  = Ok [].
Proof.
  apply (Var_alias_not_resolved post_init post_init "gen"
           rsa_generate_private_key "assign");
    [reflexivity | left; reflexivity | discriminate].
Defined.

(** ** Binding faults *)

Lemma dict_of_pairs_TypeError pairs acc e :
  dict_of_pairs pairs acc = Raise e -> exc_cls e = TypeError.
Proof.
  revert acc. induction pairs as [| [k v] pairs IH]; intros acc;
    cbn [dict_of_pairs]; [discriminate |].
  destruct (hashable k); [apply IH | intros [= <-]; reflexivity].
Qed.

Lemma keyword_items_TypeError items e :
  keyword_items items = Raise e -> exc_cls e = TypeError.
Proof.
  induction items as [| [k v] items IH]; cbn [keyword_items]; [discriminate |].
  destruct k; try (intros [= <-]; reflexivity).
  destruct (keyword_items items) as [r | e']; cbn [bind]; [discriminate |].
  intros [= <-]. apply IH. reflexivity.
Qed.

Lemma bind_keywords_TypeError params kwargs arguments kp e :
  inspect.bind_keywords params kwargs arguments kp = Raise e ->
  exc_cls e = TypeError.
Proof.
  revert kwargs arguments kp.
  induction params as [| param rest IH]; intros kwargs arguments kp;
    cbn [inspect.bind_keywords]; [discriminate |].
  destruct (inspect.kind_eqb (inspect.kind param) inspect.VAR_KEYWORD);
    [apply IH |].
  destruct (inspect.kind_eqb (inspect.kind param) inspect.VAR_POSITIONAL);
    [apply IH |].
  destruct (inspect.lookup_name (inspect.name param) kwargs).
  - destruct (inspect.kind_eqb (inspect.kind param) inspect.POSITIONAL_ONLY);
      [intros [= <-]; reflexivity | apply IH].
  - destruct (bool_decide (inspect.default param = None));
      [intros [= <-]; reflexivity | apply IH].
Qed.

Lemma Signature_bind_TypeError sig args kwargs e :
  inspect.Signature_bind sig args kwargs = Raise e -> exc_cls e = TypeError.
Proof.
  unfold inspect.Signature_bind.
  pose proof (bind_positional_inv (inspect.parameters sig) args kwargs []) as H1.
  destruct (inspect.bind_positional (inspect.parameters sig) args kwargs [])
    as [[arguments params] | e1]; cbn [bind]; [| intros [= <-]; exact H1].
  pose proof (bind_keywords_TypeError params kwargs arguments None) as H2.
  destruct (inspect.bind_keywords params kwargs arguments None)
    as [[[arguments' kwargs'] kp] | e2]; cbn [bind];
    [| intros [= <-]; apply H2; reflexivity].
  destruct kwargs' as [| [k v] kwargs']; [discriminate |].
  destruct kp; [discriminate | intros [= <-]; reflexivity].
Qed.

Lemma Call_bind_error_class m func args kwargs sig e :
  Call_bind (Call m func args kwargs) sig = Raise e -> exc_cls e = TypeError.
Proof.
  unfold Call_bind.
  assert (forall kw, match kwargs with
                     | Dictionary _ keys values => to_dict keys values
                     | _ => Ok kwargs
                     end = Raise kw -> exc_cls kw = TypeError) as Hkw.
  { intros kw. destruct kwargs; try discriminate. unfold to_dict.
    destruct (dict_of_pairs (zip keys values) []) eqn:Hd; cbn [bind];
      [discriminate |].
    intros [= <-]. eapply dict_of_pairs_TypeError; exact Hd. }
  destruct (match kwargs with
            | Dictionary _ keys values => to_dict keys values
            | _ => Ok kwargs
            end) as [kw | e1]; cbn [bind];
    [| intros [= <-]; apply Hkw; reflexivity].
  assert (forall e2, unpack_kwargs kw = Raise e2 -> exc_cls e2 = TypeError)
    as Hun.
  { intros e2. destruct kw; try (intros [= <-]; reflexivity).
    apply keyword_items_TypeError. }
  destruct (unpack_kwargs kw) as [kwd | e2]; cbn [bind];
    [| intros [= <-]; apply Hun; reflexivity].
  apply Signature_bind_TypeError.
Qed.

(** X6. Whatever the call and the signature, a failure of [Call.bind] is a
    [TypeError]: an unhashable key of a keyword [Dictionary], a keyword
    that is not a string, keyword arguments that are not a mapping, and
    every mismatch of arity or kind.  The [except TypeError] of the callers
    therefore catches every binding fault. *)
Theorem Call_bind_raises_TypeError m func args kwargs sig e :
  Call_bind (Call m func args kwargs) sig = Raise e -> exc_cls e = TypeError.
Proof. apply Call_bind_error_class. Qed.

Lemma Call_bind_raises_TypeError_witness :
  exc_cls (Exn TypeError [PyStr "unhashable type"]) = TypeError.
Proof.
  apply (Call_bind_raises_TypeError post_init PyNone []
           (Dictionary post_init [PyList []] [PyNone])
           (inspect.mkSignature [])).
  reflexivity.
Defined.

(** ** What a successful binding holds *)

Lemma lookup_set_name_eq d k v :
  inspect.lookup_name k (inspect.set_name d k v) = Some v.
Proof.
  unfold inspect.lookup_name.
  induction d as [| [k' v'] d IH]; cbn [inspect.set_name List.find fst].
  - rewrite String.eqb_refl. reflexivity.
  - destruct (String.eqb k' k) eqn:Hk; cbn [List.find fst]; rewrite Hk;
      [reflexivity | exact IH].
Qed.

Lemma lookup_set_name_ne d k k' v :
  k <> k' ->
  inspect.lookup_name k (inspect.set_name d k' v) = inspect.lookup_name k d.
Proof.
  intros Hne. unfold inspect.lookup_name.
  assert (String.eqb k' k = false) as Hk'
    by (apply String.eqb_neq; congruence).
  induction d as [| [k0 v0] d IH]; cbn [inspect.set_name List.find fst].
  - rewrite Hk'. reflexivity.
  - destruct (String.eqb k0 k') eqn:Hk0; cbn [List.find fst].
    + apply String.eqb_eq in Hk0. subst k0. rewrite Hk'. reflexivity.
    + destruct (String.eqb k0 k); [reflexivity | exact IH].
Qed.

Lemma bind_positional_keeps k a params args kwargs arguments r :
  (forall p, p ∈ params -> inspect.name p <> k) ->
  inspect.lookup_name k arguments = Some a ->
  inspect.bind_positional params args kwargs arguments = Ok r ->
  inspect.lookup_name k (fst r) = Some a.
Proof.
  revert params arguments.
  induction args as [| arg_val args IH]; intros [| param rest] arguments Hps Hk;
    cbn [inspect.bind_positional].
  - intros [= <-]. exact Hk.
  - unfold raise.
    destruct (inspect.kind_eqb (inspect.kind param) inspect.VAR_POSITIONAL);
      [intros [= <-]; exact Hk |].
    destruct (inspect.has_name (inspect.name param) kwargs).
    { destruct (inspect.kind_eqb (inspect.kind param) inspect.POSITIONAL_ONLY);
        [discriminate | intros [= <-]; exact Hk]. }
    destruct (inspect.kind_eqb (inspect.kind param) inspect.VAR_KEYWORD
              || bool_decide (inspect.default param <> None));
      [intros [= <-]; exact Hk | discriminate].
  - discriminate.
  - assert (inspect.name param <> k) as Hne by (apply Hps; left).
    destruct (inspect.kind_eqb (inspect.kind param) inspect.VAR_KEYWORD
              || inspect.kind_eqb (inspect.kind param) inspect.KEYWORD_ONLY);
      [discriminate |].
    destruct (inspect.kind_eqb (inspect.kind param) inspect.VAR_POSITIONAL).
    { intros [= <-]. cbn [fst].
      rewrite lookup_set_name_ne by congruence. exact Hk. }
    destruct (inspect.has_name (inspect.name param) kwargs); [discriminate |].
    apply IH.
    + intros p Hp. apply Hps. right. exact Hp.
    + rewrite lookup_set_name_ne by congruence. exact Hk.
Qed.

Lemma bind_keywords_keeps k a params kwargs arguments kp r :
  (forall p, p ∈ params -> inspect.name p <> k) ->
  (forall p, kp = Some p -> inspect.name p <> k) ->
  inspect.lookup_name k arguments = Some a ->
  inspect.bind_keywords params kwargs arguments kp = Ok r ->
  inspect.lookup_name k (fst (fst r)) = Some a /\
  (forall p, snd r = Some p -> inspect.name p <> k).
Proof.
  revert kwargs arguments kp.
  induction params as [| param rest IH]; intros kwargs arguments kp Hps Hkp Hk;
    cbn [inspect.bind_keywords].
  - intros [= <-]. cbn [fst snd]. auto.
  - assert (inspect.name param <> k) as Hne by (apply Hps; left).
    assert (forall p, p ∈ rest -> inspect.name p <> k) as Hrest
      by (intros p Hp; apply Hps; right; exact Hp).
    destruct (inspect.kind_eqb (inspect.kind param) inspect.VAR_KEYWORD).
    { apply IH; [exact Hrest | intros p [= <-]; exact Hne | exact Hk]. }
    destruct (inspect.kind_eqb (inspect.kind param) inspect.VAR_POSITIONAL);
      [apply IH; assumption |].
    destruct (inspect.lookup_name (inspect.name param) kwargs).
    + destruct (inspect.kind_eqb (inspect.kind param) inspect.POSITIONAL_ONLY);
        [discriminate |].
      apply IH; [assumption | assumption |].
      rewrite lookup_set_name_ne by congruence. exact Hk.
    + destruct (bool_decide (inspect.default param = None)); [discriminate |].
      apply IH; assumption.
Qed.

(** When the first parameter is positional-only and required, a binding
    succeeds only with a first positional argument, and that argument is
    the first of the bound [args]. *)
Lemma Signature_bind_first p0 rest args kwargs b :
  inspect.kind p0 = inspect.POSITIONAL_ONLY ->
  inspect.default p0 = None ->
  (forall p, p ∈ rest -> inspect.name p <> inspect.name p0) ->
  inspect.Signature_bind (inspect.mkSignature (p0 :: rest)) args kwargs = Ok b ->
  exists a args',
    args = a :: args' /\ getitem (inspect.BoundArguments_args b) 0 = Ok a.
Proof.
  intros Hkind Hdef Hrest. unfold inspect.Signature_bind.
  cbn [inspect.parameters].
  destruct args as [| a args'].
  { cbn [inspect.bind_positional]. rewrite Hkind, Hdef. cbn.
    destruct (inspect.has_name (inspect.name p0) kwargs); discriminate. }
  cbn [inspect.bind_positional]. rewrite Hkind.
  cbn [inspect.kind_eqb inspect.kind_value Nat.eqb orb].
  destruct (inspect.has_name (inspect.name p0) kwargs); [discriminate |].
  cbn [inspect.set_name].
  pose proof (bind_positional_inv rest args' kwargs [(inspect.name p0, a)])
    as Hinv.
  pose proof (bind_positional_keeps (inspect.name p0) a rest args' kwargs
                [(inspect.name p0, a)]) as Hkeep.
  destruct (inspect.bind_positional rest args' kwargs [(inspect.name p0, a)])
    as [[arguments params] | e]; cbn [bind]; [| discriminate].
  cbn [fst snd] in Hinv.
  assert (inspect.lookup_name (inspect.name p0) arguments = Some a) as Hk.
  { apply (Hkeep (arguments, params) Hrest); [| reflexivity].
    unfold inspect.lookup_name. cbn. rewrite String.eqb_refl. reflexivity. }
  clear Hkeep.
  pose proof (bind_keywords_keeps (inspect.name p0) a params kwargs arguments
                None) as Hkw.
  destruct (inspect.bind_keywords params kwargs arguments None)
    as [[[arguments' kwargs'] kp] | e]; cbn [bind]; [| discriminate].
  destruct (Hkw (arguments', kwargs', kp) (fun p Hp => Hrest p (Hinv p Hp))
                (fun p H => ltac:(discriminate)) Hk eq_refl) as [Hk' Hkp].
  cbn [fst snd] in Hk', Hkp.
  assert (forall arguments'',
             inspect.lookup_name (inspect.name p0) arguments'' = Some a ->
             getitem (inspect.BoundArguments_args
                        (inspect.mkBound (inspect.mkSignature (p0 :: rest))
                           arguments'')) 0 = Ok a) as Hget.
  { intros arguments'' Hl. unfold inspect.BoundArguments_args.
    cbn [inspect.signature inspect.parameters inspect.arguments
         inspect.args_loop].
    rewrite Hkind. cbn [inspect.kind_eqb inspect.kind_value Nat.eqb orb].
    rewrite Hl. reflexivity. }
  destruct kwargs' as [| [k0 v0] kwargs'].
  - intros [= <-]. exists a, args'. split; [reflexivity |]. apply Hget, Hk'.
  - destruct kp as [p |]; [| discriminate].
    intros [= <-]. exists a, args'. split; [reflexivity |]. apply Hget.
    rewrite lookup_set_name_ne; [exact Hk' |].
    intros Heq. eapply Hkp; [reflexivity | symmetry; exact Heq].
Qed.

(** ** The key-generation rule on arbitrary calls *)

Lemma CRYPTO_GEN_KEYS_min f info :
  crypto.CRYPTO_GEN_KEYS !! f = Some info ->
  crypto.MIN_KEY_SIZES !! crypto.type info = Some 2048%Z.
Proof.
  intros H. unfold crypto.CRYPTO_GEN_KEYS in H.
  apply elem_of_list_to_map_2 in H.
  repeat (apply elem_of_cons in H as [H | H];
          [injection H as -> ->; reflexivity |]).
  apply elem_of_nil in H. destruct H.
Qed.

Lemma _gen_hit_Call m func args kwargs v d md info k f_name :
  full_name (Call m func args kwargs) = PyStr f_name ->
  crypto.MIN_KEY_SIZES !! crypto.type info = Some 2048%Z ->
  exists hit,
    crypto._gen_hit (mkContext (Call m func args kwargs) v d md) info (Some k)
    = Ok hit /\
    rules.cls hit = rules.CryptoKeyGeneration /\
    rules.extra hit = [("function", PyStr f_name);
                       ("key_type", PyStr (crypto.type info));
                       ("key_size", PyInt k)] /\
    rules.score hit = if (k <? 2048)%Z then Some 100%Z else None.
Proof.
  intros Hname Hmin. unfold crypto._gen_hit.
  cbn [node node_meta]. rewrite Hmin, Hname. cbn [default id].
  destruct (k <? 2048)%Z; eexists; (split; [reflexivity |]); repeat split.
Qed.

Lemma Call_bind_Ok m func args kwargs sig b :
  Call_bind (Call m func args kwargs) sig = Ok b ->
  exists kwd, inspect.Signature_bind sig args kwd = Ok b.
Proof.
  unfold Call_bind.
  destruct (match kwargs with
            | Dictionary _ keys values => to_dict keys values
            | _ => Ok kwargs
            end) as [kw | e]; cbn [bind]; [| discriminate].
  destruct (unpack_kwargs kw) as [kwd | e]; cbn [bind]; [| discriminate].
  eauto.
Qed.

(** What a handler does once its signature is fixed: nothing, or one hit
    for the literal first positional argument. *)
Lemma handler_outcome m func args kwargs v d md info f_name sig :
  let context := mkContext (Call m func args kwargs) v d md in
  full_name (Call m func args kwargs) = PyStr f_name ->
  crypto.MIN_KEY_SIZES !! crypto.type info = Some 2048%Z ->
  (exists p0 rest,
      sig = inspect.mkSignature (p0 :: rest) /\
      inspect.kind p0 = inspect.POSITIONAL_ONLY /\
      inspect.default p0 = None /\
      forall p, p ∈ rest -> inspect.name p <> inspect.name p0) ->
  let outcome :=
    match Call_bind (Call m func args kwargs) sig with
    | Raise e =>
        if exc_class_eqb (exc_cls e) TypeError then Ok [] else Raise e
    | Ok signature =>
        let* key_size := getitem (inspect.BoundArguments_args signature) 0 in
        match key_size with
        | Number _ value =>
            let* hit := crypto._gen_hit context info (Some value) in Ok [hit]
        | PyInt z =>
            let* hit := crypto._gen_hit context info (Some z) in Ok [hit]
        | _ => Ok []
        end
    end in
  outcome = Ok [] \/
  exists a args' k hit,
    args = a :: args' /\ literal_size a = Some k /\
    outcome = Ok [hit] /\
    rules.cls hit = rules.CryptoKeyGeneration /\
    rules.extra hit = [("function", PyStr f_name);
                       ("key_type", PyStr (crypto.type info));
                       ("key_size", PyInt k)] /\
    rules.score hit = if (k <? 2048)%Z then Some 100%Z else None.
Proof.
  intros context Hname Hmin (p0 & rest & -> & Hkind & Hdef & Hrest) outcome.
  subst outcome.
  destruct (Call_bind (Call m func args kwargs) (inspect.mkSignature (p0 :: rest)))
    as [b | e] eqn:Hbind.
  2: { left. rewrite (Call_bind_error_class _ _ _ _ _ _ Hbind).
       reflexivity. }
  apply Call_bind_Ok in Hbind as [kwd Hbind].
  destruct (Signature_bind_first p0 rest args kwd b Hkind Hdef Hrest Hbind)
    as (a & args' & -> & Hget).
  rewrite Hget. cbn [bind].
  destruct a; try (left; reflexivity).
  - destruct (_gen_hit_Call m func (PyInt z :: args') kwargs v d md info z
                f_name Hname Hmin) as (hit & Hhit & Hcls & Hextra & Hscore).
    right. exists (PyInt z), args', z, hit. fold context in Hhit.
    rewrite Hhit. cbn [bind]. repeat split; assumption.
  - destruct (_gen_hit_Call m func (Number m0 value :: args') kwargs v d md info
                value f_name Hname Hmin)
      as (hit & Hhit & Hcls & Hextra & Hscore).
    right. exists (Number m0 value), args', value, hit. fold context in Hhit.
    rewrite Hhit. cbn [bind]. repeat split; assumption.
Qed.

(** X7. On a call node [node_Call] never raises.  It yields nothing, or
    exactly one hit; a hit is only ever produced for a call that resolves
    to a catalogue entry and whose first positional argument is an [int]
    or a [Number], and it reports the resolved name, the family of the
    entry and that argument, with score 100 exactly when the size is below
    2048 and no score otherwise. *)
Theorem node_Call_outcome m func args kwargs v d md :
  crypto.node_Call (mkContext (Call m func args kwargs) v d md) = Ok [] \/
  exists f_name info a args' k hit,
    full_name (Call m func args kwargs) = PyStr f_name /\
    crypto.CRYPTO_GEN_KEYS !! f_name = Some info /\
    args = a :: args' /\ literal_size a = Some k /\
    crypto.node_Call (mkContext (Call m func args kwargs) v d md) = Ok [hit] /\
    rules.cls hit = rules.CryptoKeyGeneration /\
    rules.extra hit = [("function", PyStr f_name);
                       ("key_type", PyStr (crypto.type info));
                       ("key_size", PyInt k)] /\
    rules.score hit = if (k <? 2048)%Z then Some 100%Z else None.
Proof.
  unfold crypto.node_Call. cbn [node is_ASTNode negb].
  destruct (full_name (Call m func args kwargs)) eqn:Hname; auto.
  destruct (crypto.CRYPTO_GEN_KEYS !! s) as [info |] eqn:Hcat; auto.
  pose proof (CRYPTO_GEN_KEYS_min s info Hcat) as Hmin.
  assert (forall sig outcome,
             (exists p0 rest,
                 sig = inspect.mkSignature (p0 :: rest) /\
                 inspect.kind p0 = inspect.POSITIONAL_ONLY /\
                 inspect.default p0 = None /\
                 forall p, p ∈ rest -> inspect.name p <> inspect.name p0) ->
             outcome
             = match Call_bind (Call m func args kwargs) sig with
               | Raise e =>
                   if exc_class_eqb (exc_cls e) TypeError then Ok []
                   else Raise e
               | Ok signature =>
                   let* key_size :=
                     getitem (inspect.BoundArguments_args signature) 0 in
                   match key_size with
                   | Number _ value =>
                       let* hit :=
                         crypto._gen_hit
                           (mkContext (Call m func args kwargs) v d md) info
                           (Some value) in Ok [hit]
                   | PyInt z =>
                       let* hit :=
                         crypto._gen_hit
                           (mkContext (Call m func args kwargs) v d md) info
                           (Some z) in Ok [hit]
                   | _ => Ok []
                   end
               end ->
             outcome = Ok [] \/
             exists f_name info0 a args' k hit,
               PyStr s = PyStr f_name /\
               crypto.CRYPTO_GEN_KEYS !! f_name = Some info0 /\
               args = a :: args' /\ literal_size a = Some k /\
               outcome = Ok [hit] /\
               rules.cls hit = rules.CryptoKeyGeneration /\
               rules.extra hit = [("function", PyStr f_name);
                                  ("key_type", PyStr (crypto.type info0));
                                  ("key_size", PyInt k)] /\
               rules.score hit = if (k <? 2048)%Z then Some 100%Z else None)
    as Hhandler.
  { intros sig outcome Hsig ->.
    destruct (handler_outcome m func args kwargs v d md info s sig Hname Hmin
                Hsig) as [H | (a & args' & k & hit & H)]; [left; exact H |].
    right. exists s, info, a, args', k, hit. tauto. }
  destruct (CRYPTO_GEN_KEYS_lib s info Hcat) as [-> | ->].
  - change (String.eqb "cryptography" "cryptography") with true. cbn iota.
    apply (Hhandler (shape_a_b "key_size" "backend" PyNone)).
    + do 2 eexists. split; [reflexivity |]. repeat split.
      intros p Hp. apply list_elem_of_singleton in Hp. subst p. discriminate.
    + reflexivity.
  - change (String.eqb "crypto" "cryptography") with false.
    change (String.eqb "crypto" "crypto") with true. cbn iota.
    apply (Hhandler
             (inspect.mkSignature
                [inspect.mkParam "bits" inspect.POSITIONAL_ONLY None;
                 inspect.mkParam "randfunc" inspect.POSITIONAL_OR_KEYWORD
                   (Some PyNone);
                 inspect.mkParam "domain" inspect.POSITIONAL_OR_KEYWORD
                   (Some PyNone)])).
    + do 2 eexists. split; [reflexivity |]. repeat split.
      intros p Hp.
      repeat (apply elem_of_cons in Hp as [-> | Hp]; [discriminate |]).
      apply elem_of_nil in Hp. destruct Hp.
    + reflexivity.
Qed.

(** X8. Every entry of the catalogue, of either family and either library:
    a call with the size as its one positional argument, an [int] or a
    [Number], gets exactly one hit, which has score 100 when the size is
    below 2048, zero and negative sizes included, and no score from 2048
    on. *)
Theorem positional_size_reported m func size_arg k v d md f_name info :
  full_name (Call m func [size_arg] (PyDict [])) = PyStr f_name ->
  crypto.CRYPTO_GEN_KEYS !! f_name = Some info ->
  literal_size size_arg = Some k ->
  exists hit,
    crypto.node_Call (mkContext (Call m func [size_arg] (PyDict [])) v d md)
    = Ok [hit] /\
    rules.extra hit = [("function", PyStr f_name);
                       ("key_type", PyStr (crypto.type info));
                       ("key_size", PyInt k)] /\
    rules.score hit = if (k <? 2048)%Z then Some 100%Z else None.
Proof.
  intros Hname Hcat Hsize.
  destruct (_gen_hit_Call m func [size_arg] (PyDict []) v d md info k f_name
              Hname (CRYPTO_GEN_KEYS_min f_name info Hcat))
    as (hit & Hhit & _ & Hextra & Hscore).
  exists hit. split; [| split; assumption].
  unfold crypto.node_Call. cbn [node is_ASTNode negb]. rewrite Hname, Hcat.
  destruct (CRYPTO_GEN_KEYS_lib f_name info Hcat) as [Hlib | Hlib];
    rewrite Hlib.
  - change (String.eqb "cryptography" "cryptography") with true. cbn iota.
    rewrite _lib_cryptography_positional.
    destruct size_arg; try discriminate; injection Hsize as ->;
      rewrite Hhit; reflexivity.
  - change (String.eqb "crypto" "cryptography") with false.
    change (String.eqb "crypto" "crypto") with true. cbn iota.
    rewrite _lib_crypto_positional.
    destruct size_arg; try discriminate; injection Hsize as ->;
      rewrite Hhit; reflexivity.
Qed.

Lemma positional_size_reported_witness :
  exists hit,
    crypto.node_Call
      (mkContext
         (Call post_init (PyStr "Cryptodome.PublicKey.DSA.generate")
            [PyInt 4096] (PyDict []))
         (mkVisitor "setup.py") 0 false)
    = Ok [hit] /\
    rules.extra hit = [("function", PyStr "Cryptodome.PublicKey.DSA.generate");
                       ("key_type", PyStr "dsa");
                       ("key_size", PyInt 4096)] /\
    rules.score hit = None.
Proof.
  apply (positional_size_reported post_init
           (PyStr "Cryptodome.PublicKey.DSA.generate") (PyInt 4096) 4096
           (mkVisitor "setup.py") 0 false "Cryptodome.PublicKey.DSA.generate"
           (crypto.mkInfo "dsa" "crypto")).
  - reflexivity.
  - vm_compute. reflexivity.
  - reflexivity.
Defined.

(** ** Positional arguments in excess *)

Lemma Parameter_init_kind name kind default p :
  inspect.Parameter_init name kind default = Ok p ->
  inspect.kind p = kind \/
  (kind = inspect.POSITIONAL_OR_KEYWORD /\
   inspect.kind p = inspect.POSITIONAL_ONLY).
Proof.
  unfold inspect.Parameter_init.
  destruct (bool_decide (default <> None)
            && (inspect.kind_eqb kind inspect.VAR_POSITIONAL
                || inspect.kind_eqb kind inspect.VAR_KEYWORD));
    [discriminate |].
  destruct name as [| c rest]; [discriminate |].
  destruct (Ascii.eqb c "." && inspect.isdigit rest).
  - destruct (inspect.kind_eqb kind inspect.POSITIONAL_OR_KEYWORD) eqn:Hk;
      cbn [negb]; [| discriminate].
    destruct (inspect.isidentifier ("implicit" +:+ rest)); [| discriminate].
    intros [= <-]. right. split; [| reflexivity].
    destruct kind; try discriminate. reflexivity.
  - destruct (inspect.isidentifier (String.String c rest)); [| discriminate].
    intros [= <-]. left. reflexivity.
Qed.

Lemma mapM_Forall2 {A B} (f : A -> result B) l r :
  mapM f l = Ok r -> Forall2 (fun x y => f x = Ok y) l r.
Proof.
  revert r. induction l as [| x l IH]; intros r; cbn [mapM].
  - intros [= <-]. constructor.
  - destruct (f x) as [y | e] eqn:Hx; cbn [bind]; [| discriminate].
    destruct (mapM f l) as [r' | e]; cbn [bind]; [| discriminate].
    intros [= <-]. constructor; [exact Hx | apply IH; reflexivity].
Qed.

Lemma validate_Ok ps top kind_defaults params r :
  inspect.validate ps top kind_defaults params = Ok r -> r = (params ++ ps)%list.
Proof.
  revert top kind_defaults params.
  induction ps as [| param rest IH]; intros top kd params;
    cbn [inspect.validate].
  - intros [= <-]. rewrite app_nil_r. reflexivity.
  - destruct (Nat.ltb (inspect.kind_value (inspect.kind param))
                (inspect.kind_value top)); [discriminate |].
    destruct (if Nat.ltb (inspect.kind_value top)
                   (inspect.kind_value (inspect.kind param))
              then (false, inspect.kind param) else (kd, top)) as [kd' top'].
    destruct (if inspect.kind_eqb (inspect.kind param) inspect.POSITIONAL_ONLY
                 || inspect.kind_eqb (inspect.kind param)
                      inspect.POSITIONAL_OR_KEYWORD
              then match inspect.default param with
                   | Some _ => Ok true
                   | None =>
                       if kd'
                       then raise ValueError
                              "non-default argument follows default argument"
                       else Ok kd'
                   end
              else Ok kd') as [kd'' | e]; cbn [bind]; [| discriminate].
    destruct (bool_decide (inspect.name param ∈ map inspect.name params));
      [discriminate |].
    intros H. apply IH in H. rewrite H, <- app_assoc. reflexivity.
Qed.

Lemma bind_positional_too_many ps vk args kwargs arguments :
  Forall positional ps ->
  Forall (fun p => inspect.kind p = inspect.VAR_KEYWORD) vk ->
  length ps < length args ->
  exists e,
    inspect.bind_positional (ps ++ vk) args kwargs arguments = Raise e.
Proof.
  intros Hps Hvk. revert args arguments.
  induction Hps as [| p ps Hp Hps IH]; intros args arguments Hlen.
  - destruct args as [| a args]; [cbn in Hlen; lia |].
    destruct Hvk as [| p vk Hp Hvk]; cbn [app inspect.bind_positional];
      [eexists; reflexivity |].
    rewrite Hp. eexists. reflexivity.
  - destruct args as [| a args]; [cbn in Hlen; lia |].
    cbn [app inspect.bind_positional].
    assert (inspect.kind_eqb (inspect.kind p) inspect.VAR_KEYWORD
            || inspect.kind_eqb (inspect.kind p) inspect.KEYWORD_ONLY = false
            /\ inspect.kind_eqb (inspect.kind p) inspect.VAR_POSITIONAL = false)
      as [-> ->] by (destruct Hp as [-> | ->]; split; reflexivity).
    destruct (inspect.has_name (inspect.name p) kwargs);
      [eexists; reflexivity |].
    apply IH. cbn in Hlen. lia.
Qed.

Lemma get_signature_structure sig_args capture_args capture_kwargs sig_kwargs
    sig :
  get_signature sig_args capture_args capture_kwargs sig_kwargs = Ok sig ->
  exists ps vk,
    inspect.parameters sig = (ps ++ vk)%list /\
    Forall positional ps /\
    length ps = length sig_args + length sig_kwargs /\
    Forall (fun p => inspect.kind p = inspect.VAR_KEYWORD) vk.
Proof.
  unfold get_signature.
  destruct (mapM _ sig_args) as [p1 |] eqn:H1; cbn [bind]; [| discriminate].
  destruct (mapM _ sig_kwargs) as [p2 |] eqn:H2; cbn [bind]; [| discriminate].
  apply mapM_Forall2 in H1, H2.
  assert (exists p3,
             match capture_kwargs with
             | Some n =>
                 if String.eqb n "" then Ok []
                 else let* p := inspect.Parameter_init n inspect.VAR_KEYWORD
                                  None in Ok [p]
             | None => Ok []
             end = Ok p3 /\
             Forall (fun p => inspect.kind p = inspect.VAR_KEYWORD) p3 \/
             exists e,
               match capture_kwargs with
               | Some n =>
                   if String.eqb n "" then Ok []
                   else let* p := inspect.Parameter_init n inspect.VAR_KEYWORD
                                    None in Ok [p]
               | None => Ok []
               end = Raise e) as H3.
  { destruct capture_kwargs as [n |]; [| exists []; left; split; constructor].
    destruct (String.eqb n ""); [exists []; left; split; constructor |].
    destruct (inspect.Parameter_init n inspect.VAR_KEYWORD None) as [p | e]
      eqn:Hp; cbn [bind].
    - exists [p]. left. split; [reflexivity |]. constructor; [| constructor].
      apply Parameter_init_kind in Hp as [Hp | [Hp _]];
        [exact Hp | discriminate].
    - exists []. right. eexists. reflexivity. }
  destruct H3 as (p3 & [[-> Hp3] | [e ->]]); cbn [bind]; [| discriminate].
  unfold inspect.Signature_init.
  destruct (inspect.validate (p1 ++ p2 ++ p3) inspect.POSITIONAL_ONLY false [])
    as [ps |] eqn:Hv; cbn [bind]; [| discriminate].
  intros [= <-]. apply validate_Ok in Hv. cbn [app] in Hv. subst ps.
  exists (p1 ++ p2)%list, p3. cbn [inspect.parameters].
  split; [rewrite app_assoc; reflexivity |]. split; [| split; [| exact Hp3]].
  - apply Forall_app. split.
    + clear -H1. induction H1 as [| x y l r Hxy _ IH]; constructor; [| exact IH].
      apply Parameter_init_kind in Hxy as [Hk | [Hk _]];
        [left; exact Hk | discriminate].
    + clear -H2. induction H2 as [| x y l r Hxy _ IH]; constructor; [| exact IH].
      apply Parameter_init_kind in Hxy as [Hk | [_ Hk]];
        [right; exact Hk | left; exact Hk].
  - rewrite length_app. apply Forall2_length in H1, H2. lia.
Qed.

Lemma excess_positional sig_args capture_args capture_kwargs sig_kwargs
    sig m func args kwargs :
  get_signature sig_args capture_args capture_kwargs sig_kwargs = Ok sig ->
  length sig_args + length sig_kwargs < length args ->
  exists e,
    Call_bind (Call m func args kwargs) sig = Raise e /\ exc_cls e = TypeError.
Proof.
  intros Hsig Hlen.
  destruct (Call_bind (Call m func args kwargs) sig) as [b | e] eqn:Hbind.
  - exfalso. apply Call_bind_Ok in Hbind as [kwd Hbind].
    apply get_signature_structure in Hsig as (ps & vk & Hps & Hpos & Hn & Hvk).
    unfold inspect.Signature_bind in Hbind. rewrite Hps in Hbind.
    destruct (bind_positional_too_many ps vk args kwd [] Hpos Hvk) as [e He];
      [lia |].
    rewrite He in Hbind. discriminate.
  - exists e. split; [reflexivity |].
    eapply Call_bind_error_class. exact Hbind.
Qed.

(** X9. [get_signature] never declares a var-positional parameter, with or
    without [aura_capture_args]: a call with more positional arguments
    than the shape has names always fails to bind, with a [TypeError]. *)
Theorem excess_positional_fails sig_args capture_args capture_kwargs sig_kwargs
    sig m func args kwargs :
  get_signature sig_args capture_args capture_kwargs sig_kwargs = Ok sig ->
  length sig_args + length sig_kwargs < length args ->
  exists e,
    Call_bind (Call m func args kwargs) sig = Raise e /\ exc_cls e = TypeError.
Proof. apply excess_positional. Qed.

Lemma excess_positional_fails_witness :
  exists e,
    Call_bind
      (Call post_init (PyStr "f") [PyInt 1; PyInt 2; PyInt 3] (PyDict []))
      (shape_a_b "a" "b" PyNone)
    = Raise e /\ exc_cls e = TypeError.
Proof.
  apply (excess_positional_fails ["a"] (Some "rest") None [("b", PyNone)]).
  - reflexivity.
  - cbn. lia.
Defined.

(** X10. A call with more than three positional arguments is never
    reported, and for the entries of the library [cryptography] more than
    two are enough: the call form
    [generate_private_key(public_exponent, key_size, backend)] gets no
    hit. *)
Theorem too_many_arguments_no_hit m func args kwargs v d md :
  2 < length args ->
  (3 < length args ->
   crypto.node_Call (mkContext (Call m func args kwargs) v d md) = Ok []) /\
  (forall f_name info,
      full_name (Call m func args kwargs) = PyStr f_name ->
      crypto.CRYPTO_GEN_KEYS !! f_name = Some info ->
      crypto.lib info = "cryptography" ->
      crypto.node_Call (mkContext (Call m func args kwargs) v d md) = Ok []).
Proof.
  intros Hlen.
  assert (forall info,
             crypto._lib_cryptography
               (mkContext (Call m func args kwargs) v d md) info = Ok [])
    as Hcryptography.
  { intros info. unfold crypto._lib_cryptography, apply_signature.
    cbn [node].
    destruct (excess_positional ["key_size"] None None
                [("backend", PyNone)] (shape_a_b "key_size" "backend" PyNone)
                m func args kwargs eq_refl Hlen) as (e & He & Hcls).
    change (get_signature ["key_size"] None None [("backend", PyNone)])
      with (Ok (shape_a_b "key_size" "backend" PyNone)).
    cbn [bind]. rewrite He, Hcls. reflexivity. }
  split.
  - intros Hlen3. unfold crypto.node_Call. cbn [node is_ASTNode negb].
    destruct (full_name (Call m func args kwargs)); try reflexivity.
    destruct (crypto.CRYPTO_GEN_KEYS !! s) as [info |] eqn:Hcat;
      [| reflexivity].
    destruct (CRYPTO_GEN_KEYS_lib s info Hcat) as [-> | ->].
    + apply Hcryptography.
    + change (String.eqb "crypto" "cryptography") with false.
      change (String.eqb "crypto" "crypto") with true. cbn iota.
      unfold crypto._lib_crypto, apply_signature. cbn [node].
      destruct (get_signature ["bits"] None None
                  [("randfunc", PyNone); ("domain", PyNone)])
        as [sig |] eqn:Hsig; [| discriminate Hsig].
      destruct (excess_positional _ _ _ _ sig m func args kwargs Hsig
                  Hlen3) as (e & He & Hcls).
      cbn [bind]. rewrite He, Hcls. reflexivity.
  - intros f_name info Hname Hcat Hlib.
    unfold crypto.node_Call. cbn [node is_ASTNode negb].
    rewrite Hname, Hcat, Hlib. apply Hcryptography.
Qed.

Lemma too_many_arguments_no_hit_witness :
  crypto.node_Call
    (mkContext
       (Call post_init rsa_generate_private_key
          [Number post_init 65537; Number post_init 1024;
           Call post_init (PyStr "default_backend") [] (PyDict [])]
          (PyDict []))
       (mkVisitor "setup.py") 0 false)
  = Ok [].
Proof.
  eapply (proj2 (too_many_arguments_no_hit post_init rsa_generate_private_key
                   _ (PyDict []) (mkVisitor "setup.py") 0 false _)).
  - reflexivity.
  - vm_compute. reflexivity.
  - reflexivity.
  Unshelve. cbn. lia.
Defined.

(** ** The signature that [get_signature] declares *)

Lemma mapM_Parameter_init {A} (f : A -> string) kind (g : A -> option NodeType)
    (l : list A) :
  Forall (fun x => inspect.isidentifier (f x) = true) l ->
  (forall x, g x = None \/
             (kind <> inspect.VAR_POSITIONAL /\ kind <> inspect.VAR_KEYWORD)) ->
  mapM (fun x => inspect.Parameter_init (f x) kind (g x)) l
  = Ok (map (fun x => inspect.mkParam (f x) kind (g x)) l).
Proof.
  intros Hl Hg. induction Hl as [| x l Hx Hl IH]; [reflexivity |].
  cbn [mapM map]. rewrite Parameter_init_identifier by auto.
  cbn [bind]. rewrite IH. reflexivity.
Qed.

Lemma validate_positional_only names rest params :
  NoDup names ->
  (forall n, n ∈ names -> n ∉ map inspect.name params) ->
  inspect.validate
    (map (fun n => inspect.mkParam n inspect.POSITIONAL_ONLY None) names
     ++ rest) inspect.POSITIONAL_ONLY false params
  = inspect.validate rest inspect.POSITIONAL_ONLY false
      (params
       ++ map (fun n => inspect.mkParam n inspect.POSITIONAL_ONLY None) names).
Proof.
  intros Hnd. revert params.
  induction Hnd as [| n names Hn Hnd IH]; intros params Hfresh.
  - cbn [map app]. rewrite app_nil_r. reflexivity.
  - cbn [map app inspect.validate inspect.kind inspect.default inspect.name].
    cbn [inspect.kind_value Nat.ltb Nat.leb inspect.kind_eqb Nat.eqb orb bind].
    rewrite bool_decide_eq_false_2 by (apply Hfresh; left).
    rewrite IH.
    + rewrite <- app_assoc. reflexivity.
    + intros n' Hn'. rewrite map_app. cbn [map inspect.name].
      intros Hin. apply elem_of_app in Hin as [Hin | Hin].
      * eapply Hfresh; [right; exact Hn' | exact Hin].
      * apply list_elem_of_singleton in Hin. subst n'. contradiction.
Qed.

Lemma validate_with_defaults kvs rest top kind_defaults params :
  inspect.kind_value top <= 1 ->
  NoDup (map fst kvs) ->
  (forall n, n ∈ map fst kvs -> n ∉ map inspect.name params) ->
  exists top' kind_defaults',
    inspect.kind_value top' <= 1 /\
    inspect.validate
      (map (fun kv => inspect.mkParam (fst kv) inspect.POSITIONAL_OR_KEYWORD
                        (Some (snd kv))) kvs ++ rest) top kind_defaults params
    = inspect.validate rest top' kind_defaults'
        (params
         ++ map (fun kv => inspect.mkParam (fst kv)
                             inspect.POSITIONAL_OR_KEYWORD (Some (snd kv)))
              kvs).
Proof.
  revert top kind_defaults params.
  induction kvs as [| [k v] kvs IH]; intros top kd params Htop Hnd Hfresh.
  - exists top, kd. cbn [map app]. rewrite app_nil_r. auto.
  - cbn [map fst] in Hnd. apply NoDup_cons in Hnd as [Hk Hnd].
    cbn [map app inspect.validate inspect.kind inspect.default inspect.name
         fst snd].
    assert (Nat.ltb (inspect.kind_value inspect.POSITIONAL_OR_KEYWORD)
              (inspect.kind_value top) = false) as ->.
    { apply Nat.ltb_ge. cbn. lia. }
    destruct (if Nat.ltb (inspect.kind_value top)
                   (inspect.kind_value inspect.POSITIONAL_OR_KEYWORD)
              then (false, inspect.POSITIONAL_OR_KEYWORD) else (kd, top))
      as [kd1 top1] eqn:Hstate.
    assert (inspect.kind_value top1 <= 1) as Htop1.
    { destruct (Nat.ltb (inspect.kind_value top)
                  (inspect.kind_value inspect.POSITIONAL_OR_KEYWORD));
        injection Hstate as <- <-; [cbn; lia | exact Htop]. }
    cbn [inspect.kind_eqb inspect.kind_value Nat.eqb orb bind].
    rewrite bool_decide_eq_false_2 by (apply Hfresh; left).
    destruct (IH top1 true
                (params ++ [inspect.mkParam k inspect.POSITIONAL_OR_KEYWORD
                              (Some v)])%list Htop1 Hnd)
      as (top' & kd' & Htop' & Heq).
    + intros n' Hn'. rewrite map_app. cbn [map inspect.name].
      intros Hin. apply elem_of_app in Hin as [Hin | Hin].
      * eapply Hfresh; [right; exact Hn' | exact Hin].
      * apply list_elem_of_singleton in Hin. subst n'. contradiction.
    + exists top', kd'. split; [exact Htop' |].
      rewrite Heq, <- app_assoc. reflexivity.
Qed.

Lemma validate_var_keyword names top kind_defaults params :
  NoDup names ->
  (forall n, n ∈ names -> n ∉ map inspect.name params) ->
  length names <= 1 ->
  inspect.validate
    (map (fun n => inspect.mkParam n inspect.VAR_KEYWORD None) names)
    top kind_defaults params
  = Ok (params
        ++ map (fun n => inspect.mkParam n inspect.VAR_KEYWORD None) names)%list.
Proof.
  intros Hnd Hfresh Hlen.
  destruct names as [| n [| n' names]]; [| | cbn in Hlen; lia].
  - cbn. rewrite app_nil_r. reflexivity.
  - cbn [map inspect.validate inspect.kind inspect.default inspect.name].
    assert (Nat.ltb (inspect.kind_value inspect.VAR_KEYWORD)
              (inspect.kind_value top) = false) as ->.
    { apply Nat.ltb_ge. destruct top; cbn; lia. }
    destruct (if Nat.ltb (inspect.kind_value top)
                   (inspect.kind_value inspect.VAR_KEYWORD)
              then (false, inspect.VAR_KEYWORD) else (kind_defaults, top))
      as [kd1 top1].
    cbn [inspect.kind_eqb inspect.kind_value Nat.eqb orb bind].
    rewrite bool_decide_eq_false_2 by (apply Hfresh; left).
    reflexivity.
Qed.

Lemma get_signature_declared sig_args capture_args capture_kwargs sig_kwargs :
  Forall (fun n => inspect.isidentifier n = true)
    (sig_args ++ map fst sig_kwargs ++ capture_names capture_kwargs) ->
  NoDup (sig_args ++ map fst sig_kwargs ++ capture_names capture_kwargs) ->
  get_signature sig_args capture_args capture_kwargs sig_kwargs
  = Ok (inspect.mkSignature
          (declared_parameters sig_args capture_kwargs sig_kwargs)).
Proof.
  intros Hid Hnd.
  apply Forall_app in Hid as [Hid1 Hid]. apply Forall_app in Hid as [Hid2 Hid3].
  apply NoDup_app in Hnd as (Hnd1 & H12 & Hnd).
  apply NoDup_app in Hnd as (Hnd2 & H23 & Hnd3).
  unfold get_signature.
  rewrite (mapM_Parameter_init (fun n => n) inspect.POSITIONAL_ONLY
             (fun _ => None)) by auto.
  cbn [bind].
  rewrite (mapM_Parameter_init fst inspect.POSITIONAL_OR_KEYWORD
             (fun kv => Some (snd kv))).
  2: { apply Forall_map in Hid2. exact Hid2. }
  2: { intros x. right. split; discriminate. }
  cbn [bind].
  assert (match capture_kwargs with
          | Some n =>
              if String.eqb n "" then Ok []
              else let* p := inspect.Parameter_init n inspect.VAR_KEYWORD None
                   in Ok [p]
          | None => Ok []
          end
          = Ok (map (fun n => inspect.mkParam n inspect.VAR_KEYWORD None)
                  (capture_names capture_kwargs))) as ->.
  { unfold capture_names in *. destruct capture_kwargs as [n |]; [| reflexivity].
    destruct (String.eqb n ""); [reflexivity |].
    apply Forall_cons in Hid3 as [Hn _].
    rewrite Parameter_init_identifier by auto. reflexivity. }
  cbn [bind]. unfold inspect.Signature_init, declared_parameters.
  rewrite validate_positional_only; [| exact Hnd1 |].
  2: { intros n _. cbn. apply not_elem_of_nil. }
  cbn [app].
  destruct (validate_with_defaults sig_kwargs
              (map (fun n => inspect.mkParam n inspect.VAR_KEYWORD None)
                 (capture_names capture_kwargs))
              inspect.POSITIONAL_ONLY false
              (map (fun n => inspect.mkParam n inspect.POSITIONAL_ONLY None)
                 sig_args))
    as (top & kd & _ & ->); [cbn; lia | exact Hnd2 | |].
  { intros n Hn Hin. rewrite map_map in Hin. cbn [inspect.name] in Hin.
    rewrite map_id in Hin. eapply H12; [exact Hin |].
    apply elem_of_app. left. exact Hn. }
  rewrite validate_var_keyword.
  - cbn [bind]. rewrite <- app_assoc. reflexivity.
  - exact Hnd3.
  - intros n Hn Hin. rewrite map_app, !map_map in Hin.
    cbn [inspect.name] in Hin. rewrite map_id in Hin.
    apply elem_of_app in Hin as [Hin | Hin].
    + eapply H12; [exact Hin |]. apply elem_of_app. right. exact Hn.
    + eapply H23; [| exact Hn]. exact Hin.
  - unfold capture_names. destruct capture_kwargs as [n |]; [| cbn; lia].
    destruct (String.eqb n ""); cbn; lia.
Qed.

(** X11. When the names of a shape are identifiers and pairwise distinct,
    [get_signature] succeeds: the positional names become required
    positional-only parameters, the keyword names positional-or-keyword
    parameters with their defaults, in call order, and a non-empty
    [aura_capture_kwargs] a final var-keyword parameter; [aura_capture_args]
    adds nothing. *)
Theorem get_signature_declares sig_args capture_args capture_kwargs sig_kwargs :
  Forall (fun n => inspect.isidentifier n = true)
    (sig_args ++ map fst sig_kwargs ++ capture_names capture_kwargs) ->
  NoDup (sig_args ++ map fst sig_kwargs ++ capture_names capture_kwargs) ->
  get_signature sig_args capture_args capture_kwargs sig_kwargs
  = Ok (inspect.mkSignature
          (declared_parameters sig_args capture_kwargs sig_kwargs)).
Proof. apply get_signature_declared. Qed.

Lemma get_signature_declares_witness :
  get_signature ["bits"] (Some "rest") (Some "extra")
    [("randfunc", PyNone); ("domain", PyNone)]
  = Ok (inspect.mkSignature
          [inspect.mkParam "bits" inspect.POSITIONAL_ONLY None;
           inspect.mkParam "randfunc" inspect.POSITIONAL_OR_KEYWORD (Some PyNone);
           inspect.mkParam "domain" inspect.POSITIONAL_OR_KEYWORD (Some PyNone);
           inspect.mkParam "extra" inspect.VAR_KEYWORD None]).
Proof.
  apply (get_signature_declares ["bits"] (Some "rest") (Some "extra")
           [("randfunc", PyNone); ("domain", PyNone)]).
  - repeat constructor.
  - apply (bool_decide_unpack _). vm_compute. exact I.
Defined.

(** ** Captured keywords *)

Lemma dict_of_kwargs_keyword_items items kwd :
  keyword_items items = Ok kwd -> inspect.dict_of_kwargs kwd = PyDict items.
Proof.
  unfold inspect.dict_of_kwargs. revert kwd.
  induction items as [| [k v] items IH]; intros kwd; cbn [keyword_items].
  - intros [= <-]. reflexivity.
  - destruct k; try discriminate.
    destruct (keyword_items items) as [r |]; cbn [bind]; [| discriminate].
    intros [= <-]. cbn [map fst snd].
    specialize (IH r eq_refl). injection IH as ->. reflexivity.
Qed.

(** X12. With [aura_capture_kwargs] the keywords that name no parameter
    are captured: for the shape of one positional name [a] and the capture
    name [kw], a call [f(x, **items)] whose keywords do not name [a] binds
    [a] to [x] and, when there are keywords at all, [kw] to the very
    mapping that was passed; without keywords [kw] is not bound. *)
Theorem unknown_keywords_captured a kw x m func items kwd capture_args :
  inspect.isidentifier a = true ->
  inspect.isidentifier kw = true ->
  a <> kw ->
  keyword_items items = Ok kwd ->
  inspect.has_name a kwd = false ->
  exists sig,
    get_signature [a] capture_args (Some kw) [] = Ok sig /\
    apply_signature (Call m func [x] (PyDict items)) [a] capture_args (Some kw) []
    = Ok (inspect.mkBound sig
            match items with
            | [] => [(a, x)]
            | _ => [(a, x); (kw, PyDict items)]
            end).
Proof.
  intros Ha Hkw Hne Hitems Hfree.
  assert (String.eqb kw "" = false) as Hkw_nonempty.
  { destruct kw; [discriminate | reflexivity]. }
  assert (get_signature [a] capture_args (Some kw) []
          = Ok (inspect.mkSignature
                  [inspect.mkParam a inspect.POSITIONAL_ONLY None;
                   inspect.mkParam kw inspect.VAR_KEYWORD None])) as Hsig.
  { rewrite get_signature_declared.
    - unfold declared_parameters, capture_names. rewrite Hkw_nonempty.
      reflexivity.
    - unfold capture_names. rewrite Hkw_nonempty. repeat constructor; assumption.
    - unfold capture_names. rewrite Hkw_nonempty. cbn [map app].
      apply NoDup_cons. split; [| apply NoDup_singleton].
      intros Hin. apply list_elem_of_singleton in Hin. contradiction. }
  eexists. split; [exact Hsig |].
  unfold apply_signature. rewrite Hsig. cbn [bind Call_bind unpack_kwargs].
  rewrite Hitems. cbn [bind]. unfold inspect.Signature_bind.
  cbn [inspect.parameters inspect.bind_positional inspect.kind inspect.name
       inspect.default inspect.kind_eqb inspect.kind_value Nat.eqb orb].
  rewrite Hfree. cbn [inspect.set_name].
  rewrite <- (dict_of_kwargs_keyword_items items kwd Hitems).
  assert (String.eqb a kw = false) as Hakw
    by (apply String.eqb_neq; assumption).
  destruct (inspect.has_name kw kwd);
    cbn [bind inspect.bind_keywords inspect.kind inspect.kind_eqb
         inspect.kind_value Nat.eqb orb];
    (destruct items as [| [k v] items];
     [ injection Hitems as <-; reflexivity
     | destruct kwd as [| [k0 v0] kwd];
       [ cbn [keyword_items] in Hitems; destruct k; try discriminate;
         destruct (keyword_items items); discriminate
       | cbn [inspect.set_name inspect.name]; rewrite Hakw; reflexivity ] ]).
Qed.

Lemma unknown_keywords_captured_witness :
  exists sig,
    get_signature ["a"] None (Some "kw") [] = Ok sig /\
    apply_signature
      (Call post_init (PyStr "f") [PyInt 1] (PyDict [(PyStr "b", PyInt 2)]))
      ["a"] None (Some "kw") []
    = Ok (inspect.mkBound sig
            [("a", PyInt 1); ("kw", PyDict [(PyStr "b", PyInt 2)])]).
Proof.
  apply (unknown_keywords_captured "a" "kw" (PyInt 1) post_init (PyStr "f")
           [(PyStr "b", PyInt 2)] [("b", PyInt 2)] None);
    [reflexivity | reflexivity | discriminate | reflexivity | reflexivity].
Defined.

(** ** [Dictionary.to_dict] *)

Lemma dict_setitem_distinct d k v :
  distinct_keys d -> distinct_keys (dict_setitem d k v).
Proof.
  induction d as [| [k' v'] d IH]; cbn [dict_setitem distinct_keys].
  - intros _. split; [constructor | exact I].
  - intros [Hk' Hd]. destruct (py_eqb k' k) eqn:Hk; cbn [distinct_keys].
    + split; assumption.
    + split; [| apply IH; exact Hd].
      clear IH Hd. induction d as [| [k0 v0] d IH]; cbn [dict_setitem].
      * constructor; [exact Hk | constructor].
      * apply Forall_cons in Hk' as [Hk0 Hk'].
        destruct (py_eqb k0 k); constructor; auto.
Qed.

Lemma dict_of_pairs_distinct pairs acc d :
  distinct_keys acc -> dict_of_pairs pairs acc = Ok d -> distinct_keys d.
Proof.
  revert acc. induction pairs as [| [k v] pairs IH]; intros acc Hacc;
    cbn [dict_of_pairs].
  - intros [= <-]. exact Hacc.
  - destruct (hashable k); [| discriminate].
    apply IH, dict_setitem_distinct, Hacc.
Qed.

Lemma dict_of_pairs_hashable pairs acc d :
  dict_of_pairs pairs acc = Ok d -> Forall (fun kv => hashable (fst kv) = true) pairs.
Proof.
  revert acc. induction pairs as [| [k v] pairs IH]; intros acc;
    cbn [dict_of_pairs]; [constructor |].
  destruct (hashable k) eqn:Hk; [| discriminate].
  intros H. constructor; [exact Hk | eapply IH; exact H].
Qed.

Lemma dict_setitem_length d k v :
  length d <= length (dict_setitem d k v) <= S (length d).
Proof.
  induction d as [| [k' v'] d IH]; cbn [dict_setitem length]; [lia |].
  destruct (py_eqb k' k); cbn [length]; lia.
Qed.

Lemma dict_of_pairs_length pairs acc d :
  dict_of_pairs pairs acc = Ok d -> length d <= length acc + length pairs.
Proof.
  revert acc. induction pairs as [| [k v] pairs IH]; intros acc;
    cbn [dict_of_pairs length].
  - intros [= <-]. lia.
  - destruct (hashable k); [| discriminate].
    intros H. apply IH in H. pose proof (dict_setitem_length acc k v). lia.
Qed.

(** X13. [Dictionary.to_dict] pairs keys and values up to the shorter of
    the two lists.  It fails, with a [TypeError], exactly when one of the
    paired keys is unhashable (any node but a [Var], a list, a dict); when
    it succeeds the result is a dict with pairwise different keys and at
    most as many entries as pairs. *)
Theorem to_dict_builds_a_dict keys values :
  (Forall (fun kv => hashable (fst kv) = true) (zip keys values) ->
   exists d,
     to_dict keys values = Ok (PyDict d) /\
     distinct_keys d /\
     length d <= Nat.min (length keys) (length values)) /\
  (~ Forall (fun kv => hashable (fst kv) = true) (zip keys values) ->
   exists e, to_dict keys values = Raise e /\ exc_cls e = TypeError).
Proof.
  unfold to_dict.
  destruct (dict_of_pairs (zip keys values) []) as [d | e] eqn:Hd; cbn [bind].
  - split.
    + intros _. exists d. split; [reflexivity |]. split.
      * apply (dict_of_pairs_distinct _ [] d I Hd).
      * apply dict_of_pairs_length in Hd. cbn [length] in Hd.
        rewrite length_zip_with in Hd. lia.
    + intros Hnot. exfalso. apply Hnot.
      eapply dict_of_pairs_hashable. exact Hd.
  - split.
    + intros Hall. exfalso. clear -Hall Hd.
      revert Hd. generalize (@nil (NodeType * NodeType)).
      induction Hall as [| [k v] pairs Hk _ IH]; intros acc;
        cbn [dict_of_pairs]; [discriminate |].
      cbn [fst] in Hk. rewrite Hk. apply IH.
    + intros _. exists e. split; [reflexivity |].
      eapply dict_of_pairs_TypeError. exact Hd.
Qed.

(** ** The child enumeration *)

Section Traversal.

Import traversal.

Lemma visit_list_spec self queue slot idx l :
  visit_list self queue slot idx l
  = (queue ++ imap (fun i x => entry_for self x (Replace (slot (idx + i)))) l)%list.
Proof.
  revert queue idx. induction l as [| x l IH]; intros queue idx;
    cbn [visit_list imap].
  - rewrite app_nil_r. reflexivity.
  - rewrite IH. unfold visit_child, entry_for. rewrite <- app_assoc.
    cbn [app]. rewrite Nat.add_0_r. do 2 f_equal.
    apply imap_ext. intros i y _. cbn. rewrite Nat.add_succ_r. reflexivity.
Qed.

Lemma visit_kwargs_spec self queue kwargs keys :
  exists new,
    fst (visit_kwargs self queue kwargs keys) = (queue ++ new)%list /\
    Forall (fun e => exists key v,
                getitem_kwargs kwargs key = Ok v /\
                e = entry_for self v (Replace (Kwarg key))) new.
Proof.
  revert queue. induction keys as [| key keys IH]; intros queue;
    cbn [visit_kwargs].
  - exists []. rewrite app_nil_r. split; [reflexivity | constructor].
  - destruct (getitem_kwargs kwargs key) as [v | e] eqn:Hget.
    + destruct (IH (visit_child self queue v (Replace (Kwarg key))))
        as (new & Heq & Hnew).
      exists (entry_for self v (Replace (Kwarg key)) :: new).
      split.
      * rewrite Heq. unfold visit_child, entry_for. rewrite <- app_assoc.
        reflexivity.
      * constructor; [eauto | exact Hnew].
    + exists []. rewrite app_nil_r. split; [reflexivity | constructor].
Qed.

Lemma py_eqb_PyStr k s : py_eqb k (PyStr s) = true -> k = PyStr s.
Proof.
  destruct k; cbn; try discriminate.
  intros H. apply String.eqb_eq in H. congruence.
Qed.

Lemma visit_kwargs_ok self queue kwargs keys q :
  visit_kwargs self queue kwargs keys = (q, None) ->
  exists vals,
    Forall2 (fun key v => getitem_kwargs kwargs key = Ok v) keys vals /\
    q = (queue ++ zip_with (fun key v => entry_for self v (Replace (Kwarg key)))
                    keys vals)%list.
Proof.
  revert queue. induction keys as [| key keys IH]; intros queue;
    cbn [visit_kwargs].
  - intros [= <-]. exists []. split; [constructor |].
    rewrite app_nil_r. reflexivity.
  - destruct (getitem_kwargs kwargs key) as [v | e] eqn:Hget; [| discriminate].
    intros Hrun. apply IH in Hrun as (vals & Hall & ->).
    exists (v :: vals). split; [constructor; assumption |].
    unfold visit_child, entry_for. rewrite <- app_assoc. reflexivity.
Qed.

Lemma dict_getitem_key items k c :
  dict_getitem items (PyStr k) = Ok c -> PyStr k ∈ map fst items.
Proof.
  induction items as [| [k0 v0] items IH]; cbn [dict_getitem map fst].
  - discriminate.
  - destruct (py_eqb k0 (PyStr k)) eqn:Hk.
    + intros _. apply py_eqb_PyStr in Hk. subst k0. left.
    + intros H. right. apply IH. exact H.
Qed.

Lemma zip_with_entry {A B C} (P : A -> B -> Prop) (f : A -> B -> C)
    keys vals key :
  Forall2 P keys vals -> key ∈ keys ->
  exists v, P key v /\ f key v ∈ zip_with f keys vals.
Proof.
  intros Hall. induction Hall as [| k v keys vals Hkv Hall IH]; intros Hin.
  - apply elem_of_nil in Hin. destruct Hin.
  - apply elem_of_cons in Hin as [-> | Hin].
    + exists v. split; [exact Hkv | left].
    + destruct (IH Hin) as (v' & Hv' & Hin'). exists v'.
      split; [exact Hv' | right; exact Hin'].
Qed.

Lemma imap_entry (f : nat -> NodeType -> Entry) l i x :
  l !! i = Some x -> f i x ∈ imap f l.
Proof.
  intros H. apply elem_of_lookup_imap. eauto.
Qed.

(** X14. What [_visit_node] appends to the queue, when it returns: exactly
    one entry per child.  There are as many new entries as the node has
    children; each has the visited context as its parent, the same visitor,
    a depth one greater and [modified] unset, and its capability points at
    the slot that holds the enqueued child, or is the name capability of a
    [Var] with the name as the child; and every slot that holds a child
    (keyword slots with string keys) has its entry, as has the name of a
    [Var]. *)
Theorem enumerated_children context queue queue' :
  _visit_node context queue = (queue', None) ->
  exists new,
    queue' = (queue ++ new)%list /\
    length new = child_count (node context) /\
    Forall (fun e =>
              parent e = context /\
              traversal.context e
              = mkContext (node (traversal.context e)) (visitor context)
                  (depth context + 1) false /\
              match replace_ e with
              | ReplaceName =>
                  exists m var_name value var_type,
                    node context = Var m var_name value var_type /\
                    node (traversal.context e) = PyStr var_name
              | Replace s =>
                  child (node context) s = Some (node (traversal.context e))
              end) new /\
    (forall s c,
        string_key s ->
        child (node context) s = Some c ->
        exists e, e ∈ new /\ replace_ e = Replace s /\
                  node (traversal.context e) = c) /\
    (forall m var_name value var_type,
        node context = Var m var_name value var_type ->
        exists e, e ∈ new /\ replace_ e = ReplaceName /\
                  node (traversal.context e) = PyStr var_name).
Proof.
  unfold _visit_node.
  destruct (node context) as [ | z | s | l | items | m ks vs | m v | m v
                             | m n v t | m s a c | m l ops cs | m n a b d r
                             | m f a k | m a va ko kw d kd | m a b c
                             | m op l r | m vs d ] eqn:Hnode;
    try discriminate;
    try (intros [= <-]; exists []; rewrite app_nil_r;
         split; [reflexivity |]; split; [reflexivity |];
         split; [constructor |]; split;
         [intros s0 c0 _ Hc; destruct s0; discriminate Hc
         | intros ? ? ? ? [=]]).
  - (* Var *)
    intros [= <-]. unfold visit_child. rewrite <- app_assoc. cbn [app].
    eexists. split; [reflexivity |]. split; [reflexivity |].
    split; [repeat constructor; cbn; eauto 10 |]. split.
    + intros s0 c0 _ Hc. destruct s0; try discriminate Hc.
      cbn [child] in Hc. injection Hc as <-.
      eexists. split; [right; left | split; reflexivity].
    + intros m' n' v' t' [= -> -> -> ->].
      eexists. split; [left | split; reflexivity].
  - (* Attribute *)
    intros [= <-]. unfold visit_child. eexists. split; [reflexivity |].
    split; [reflexivity |]. split; [repeat constructor |]. split.
    + intros s0 c0 _ Hc. destruct s0; try discriminate Hc.
      cbn [child] in Hc. injection Hc as <-.
      eexists. split; [left | split; reflexivity].
    + intros ? ? ? ? [=].
  - (* FunctionDef *)
    intros [= <-]. rewrite !visit_list_spec, <- !app_assoc.
    eexists. split; [reflexivity |]. split.
    { rewrite !length_app, !length_imap. cbn [child_count]. lia. }
    split.
    { rewrite !Forall_app. repeat split; apply Forall_forall; intros e He;
        apply elem_of_lookup_imap in He as (i & x & -> & Hx);
        cbn; repeat split; exact Hx. }
    split.
    + intros s0 c0 _ Hc. destruct s0; try discriminate Hc; cbn [child] in Hc.
      * exists (entry_for context c0 (Replace (Args idx))).
        split; [| split; reflexivity].
        rewrite !elem_of_app. left.
        apply (imap_entry (fun i x => entry_for context x (Replace (Args (0 + i)))) a idx c0 Hc).
      * exists (entry_for context c0 (Replace (Body idx))).
        split; [| split; reflexivity].
        rewrite !elem_of_app. right. left.
        apply (imap_entry (fun i x => entry_for context x (Replace (Body (0 + i)))) b idx c0 Hc).
      * exists (entry_for context c0 (Replace (Decorator idx))).
        split; [| split; reflexivity].
        rewrite !elem_of_app. right. right.
        apply (imap_entry (fun i x => entry_for context x (Replace (Decorator (0 + i)))) d idx c0 Hc).
    + intros ? ? ? ? [=].
  - (* Call *)
    rewrite visit_list_spec.
    destruct k as [ | | | | items | | | | | | | | | | | | ];
      try discriminate.
    cbn [dict_keys].
    destruct (visit_kwargs context _ (PyDict items) (map fst items))
      as [q [e |]] eqn:Hkw; [discriminate |].
    apply visit_kwargs_ok in Hkw as (vals & Hall & ->).
    intros [= <-]. unfold visit_child. rewrite <- !app_assoc.
    eexists. split; [reflexivity |]. split.
    { rewrite !length_app, length_imap, length_zip_with_l_eq.
      - rewrite length_map. cbn [child_count length]. lia.
      - apply Forall2_length in Hall. exact Hall. }
    split.
    { rewrite !Forall_app. repeat split.
      - apply Forall_forall. intros e He.
        apply elem_of_lookup_imap in He as (i & x & -> & Hx).
        cbn. repeat split. exact Hx.
      - clear -Hall. induction Hall as [| key v keys vals Hkv Hall IH];
          [constructor |].
        cbn [zip_with]. constructor; [| exact IH].
        cbn. repeat split. cbn [getitem_kwargs] in Hkv. rewrite Hkv.
        reflexivity.
      - repeat constructor. }
    split.
    + intros s0 c0 Hs Hc. destruct s0; try discriminate Hc; cbn [child] in Hc.
      * exists (entry_for context c0 (Replace (Arg idx))).
        split; [| split; reflexivity].
        rewrite !elem_of_app. left.
        apply (imap_entry (fun i x => entry_for context x (Replace (Arg (0 + i)))) a idx c0 Hc).
      * destruct key; try (destruct Hs).
        destruct (dict_getitem items (PyStr s)) as [v |] eqn:Hget;
          [| discriminate].
        injection Hc as <-.
        destruct (zip_with_entry _
                    (fun key v => entry_for context v (Replace (Kwarg key)))
                    _ _ (PyStr s) Hall (dict_getitem_key _ _ _ Hget))
          as (v' & Hv' & Hin).
        cbn [getitem_kwargs] in Hv'. rewrite Hget in Hv'.
        injection Hv' as <-.
        exists (entry_for context v (Replace (Kwarg (PyStr s)))).
        split; [| split; reflexivity].
        rewrite !elem_of_app. right. left. exact Hin.
      * injection Hc as <-.
        exists (entry_for context f (Replace Func)).
        split; [| split; reflexivity].
        rewrite !elem_of_app. right. right. left.
    + intros ? ? ? ? [=].
Qed.

(** X15. The children of a call whose keyword arguments are a [dict] with
    string keys, in the order in which they enter the queue: the
    positional arguments by index, then the keyword values in the order of
    the dict, then the callee, last. *)
Theorem Call_children_order m func args items v d md queue :
  Forall (fun kv => exists s, fst kv = PyStr s) items ->
  distinct_keys items ->
  let context := mkContext (Call m func args (PyDict items)) v d md in
  _visit_node context queue
  = ((queue
      ++ imap (fun i x => entry_for context x (Replace (Arg i))) args
      ++ map (fun kv => entry_for context (snd kv) (Replace (Kwarg (fst kv))))
           items
      ++ [entry_for context func (Replace Func)])%list, None).
Proof.
  intros Hstr Hdist context. unfold _visit_node.
  cbn [node context dict_keys]. rewrite visit_list_spec.
  cbn [Nat.add].
  set (q := (queue ++ imap _ args)%list).
  assert (forall sub q0,
             (forall kv, kv ∈ sub -> dict_getitem items (fst kv) = Ok (snd kv)) ->
             visit_kwargs context q0 (PyDict items) (map fst sub)
             = ((q0 ++ map (fun kv => entry_for context (snd kv)
                                        (Replace (Kwarg (fst kv)))) sub)%list,
                None)) as Hsub.
  { induction sub as [| [k0 v0] sub IH]; intros q0 Hget;
      cbn [map visit_kwargs fst snd].
    - rewrite app_nil_r. reflexivity.
    - cbn [getitem_kwargs].
      pose proof (Hget (k0, v0) ltac:(left)) as H0. cbn [fst snd] in H0.
      rewrite H0.
      rewrite IH by (intros kv Hkv; apply Hget; right; exact Hkv).
      unfold visit_child, entry_for. rewrite <- app_assoc. reflexivity. }
  rewrite Hsub.
  - unfold visit_child, q, entry_for. rewrite <- !app_assoc. reflexivity.
  - clear Hsub q. induction items as [| [k0 v0] items IH];
      intros kv Hkv; [apply elem_of_nil in Hkv; destruct Hkv |].
    apply Forall_cons in Hstr as [[s Hs] Hstr]. cbn [fst] in Hs. subst k0.
    destruct Hdist as [Hk0 Hdist]. cbn [dict_getitem].
    apply elem_of_cons in Hkv as [-> | Hkv]; cbn [fst snd].
    + cbn [py_eqb]. rewrite String.eqb_refl. reflexivity.
    + rewrite Forall_forall in Hk0. rewrite (Hk0 kv Hkv).
      apply IH; assumption.
Qed.

Lemma Call_children_order_witness :
  length
    (fst (_visit_node
            (mkContext
               (Call post_init (PyStr "f") [PyInt 1; PyInt 2]
                  (PyDict [(PyStr "k", PyInt 3)]))
               (mkVisitor "setup.py") 0 false) []))
  = 4.
Proof.
  rewrite (Call_children_order post_init (PyStr "f") [PyInt 1; PyInt 2]
             [(PyStr "k", PyInt 3)] (mkVisitor "setup.py") 0 false []).
  - reflexivity.
  - repeat constructor. eexists. reflexivity.
  - split; [constructor | exact I].
Defined.

(** X16. A call whose keyword arguments are a [Dictionary] node cannot be
    traversed: [_visit_node] enqueues the positional arguments and then
    raises [TypeError], because [keys] of a [Dictionary] is its list field
    and not a method; the keyword values and the callee never enter the
    queue.  [Call.bind] accepts the same call: it binds the dict that
    [to_dict] builds. *)
Theorem Call_Dictionary_not_traversable m func args mk keys values v d md queue :
  let context :=
    mkContext (Call m func args (Dictionary mk keys values)) v d md in
  exists e,
    _visit_node context queue
    = ((queue ++ imap (fun i x => entry_for context x (Replace (Arg i))) args)%list,
       Some e) /\
    exc_cls e = TypeError /\
    forall sig,
      Call_bind (Call m func args (Dictionary mk keys values)) sig
      = let* kw := to_dict keys values in Call_bind (Call m func args kw) sig.
Proof.
  intros context. unfold _visit_node. cbn [node context dict_keys].
  rewrite visit_list_spec. unfold raise.
  eexists. split; [reflexivity |]. split; [reflexivity |].
  intros sig. apply Call_bind_Dictionary.
Qed.

Lemma enumerated_children_witness :
  exists new,
    fst (_visit_node
           (mkContext (Var post_init "x" (PyInt 1) "assign")
              (mkVisitor "setup.py") 0 false) [])
    = ([] ++ new)%list /\ length new = 2.
Proof.
  destruct (enumerated_children
              (mkContext (Var post_init "x" (PyInt 1) "assign")
                 (mkVisitor "setup.py") 0 false) []
              _ eq_refl) as (new & Heq & Hlen & _).
  exists new. split; [exact Heq | exact Hlen].
Defined.

Lemma dict_getitem_setitem_eq items k v :
  dict_getitem (dict_setitem items (PyStr k) v) (PyStr k) = Ok v.
Proof.
  induction items as [| [k0 v0] items IH]; cbn [dict_setitem].
  - cbn. rewrite String.eqb_refl. reflexivity.
  - destruct (py_eqb k0 (PyStr k)) eqn:Hk; cbn [dict_getitem]; rewrite Hk.
    + reflexivity.
    + exact IH.
Qed.

Lemma dict_getitem_setitem_ne items k k' v :
  k <> k' ->
  dict_getitem (dict_setitem items (PyStr k) v) (PyStr k')
  = dict_getitem items (PyStr k').
Proof.
  intros Hne. induction items as [| [k0 v0] items IH]; cbn [dict_setitem].
  - cbn. apply String.eqb_neq in Hne. rewrite Hne. reflexivity.
  - destruct (py_eqb k0 (PyStr k)) eqn:Hk; cbn [dict_getitem].
    + apply py_eqb_PyStr in Hk. subst k0. cbn.
      apply String.eqb_neq in Hne. rewrite Hne. reflexivity.
    + rewrite IH. reflexivity.
Qed.

Lemma list_setitem_lookup l idx value c :
  l !! idx = Some c ->
  list_setitem l idx value = Ok (<[idx := value]> l) /\
  <[idx := value]> l !! idx = Some value /\
  forall idx', idx' <> idx -> <[idx := value]> l !! idx' = l !! idx'.
Proof.
  intros Hc. apply lookup_lt_Some in Hc as Hlt.
  unfold list_setitem. apply Nat.ltb_lt in Hlt as Hb. rewrite Hb.
  split; [reflexivity | split].
  - apply list_lookup_insert_eq. exact Hlt.
  - intros idx' Hne. apply list_lookup_insert_ne. congruence.
Qed.

(** X17. Calling the capability that came with a child overwrites the slot
    of that child and nothing else: for a slot that holds a child (keyword
    slots with string keys), [replace] sets the modified flag and succeeds,
    the slot then holds the new value, every other slot holds what it held
    before, and the metadata of the node is unchanged. *)
Theorem replace_overwrites_its_slot self s value c :
  string_key s ->
  child self s = Some c ->
  exists self',
    replace self s value = (true, Ok self') /\
    child self' s = Some value /\
    node_meta self' = node_meta self /\
    forall s', string_key s' -> s' <> s -> child self' s' = child self s'.
Proof.
  intros Hs Hc. unfold replace.
  destruct s as [ | | idx | idx | idx | idx | key | ];
    destruct self as [ | z | s0 | l | items | m ks vs | m v | m v
                     | m n v t | m s0 a c0 | m l ops cs | m n a b d r
                     | m f a k | m a va ko kw d kd | m a b c0
                     | m op l r | m vs d ];
    cbn [child] in Hc; try discriminate.
  - (* Value *)
    eexists. split; [reflexivity |]. split; [reflexivity |].
    split; [reflexivity |].
    intros s' _ Hne. destruct s'; try reflexivity. congruence.
  - (* Source *)
    eexists. split; [reflexivity |]. split; [reflexivity |].
    split; [reflexivity |].
    intros s' _ Hne. destruct s'; try reflexivity. congruence.
  - (* Args *)
    destruct (list_setitem_lookup a idx value c Hc) as (Hset & Heq & Hother).
    cbn [assign]. rewrite Hset. eexists. split; [reflexivity |].
    split; [exact Heq |]. split; [reflexivity |].
    intros s' _ Hne. destruct s'; try reflexivity.
    cbn [child]. apply Hother. congruence.
  - (* Body *)
    destruct (list_setitem_lookup b idx value c Hc) as (Hset & Heq & Hother).
    cbn [assign]. rewrite Hset. eexists. split; [reflexivity |].
    split; [exact Heq |]. split; [reflexivity |].
    intros s' _ Hne. destruct s'; try reflexivity.
    cbn [child]. apply Hother. congruence.
  - (* Decorator *)
    destruct (list_setitem_lookup d idx value c Hc) as (Hset & Heq & Hother).
    cbn [assign]. rewrite Hset. eexists. split; [reflexivity |].
    split; [exact Heq |]. split; [reflexivity |].
    intros s' _ Hne. destruct s'; try reflexivity.
    cbn [child]. apply Hother. congruence.
  - (* Arg *)
    destruct (list_setitem_lookup a idx value c Hc) as (Hset & Heq & Hother).
    cbn [assign]. rewrite Hset. eexists. split; [reflexivity |].
    split; [exact Heq |]. split; [reflexivity |].
    intros s' _ Hne. destruct s'; try reflexivity.
    cbn [child]. apply Hother. congruence.
  - (* Kwarg *)
    destruct k; try discriminate.
    destruct key; try (destruct Hs).
    cbn [assign setitem hashable bind]. eexists. split; [reflexivity |].
    cbn [child]. rewrite dict_getitem_setitem_eq.
    split; [reflexivity |]. split; [reflexivity |].
    intros s' Hs' Hne. destruct s' as [ | | | | | | key' | ]; try reflexivity.
    destruct key'; try (destruct Hs').
    cbn [child]. rewrite dict_getitem_setitem_ne by congruence. reflexivity.
  - (* Func *)
    eexists. split; [reflexivity |]. split; [reflexivity |].
    split; [reflexivity |].
    intros s' _ Hne. destruct s'; try reflexivity. congruence.
Qed.

Lemma replace_overwrites_its_slot_witness :
  exists self',
    replace (Call post_init (PyStr "f") [PyInt 1; PyInt 2]
               (PyDict [(PyStr "k", PyInt 3)]))
      (Kwarg (PyStr "k")) (PyInt 4) = (true, Ok self') /\
    child self' (Kwarg (PyStr "k")) = Some (PyInt 4) /\
    child self' (Arg 1) = Some (PyInt 2).
Proof.
  destruct (replace_overwrites_its_slot
              (Call post_init (PyStr "f") [PyInt 1; PyInt 2]
                 (PyDict [(PyStr "k", PyInt 3)]))
              (Kwarg (PyStr "k")) (PyInt 4) (PyInt 3) I eq_refl)
    as (self' & Hr & Hs & _ & Hother).
  exists self'. split; [exact Hr |]. split; [exact Hs |].
  rewrite (Hother (Arg 1) I) by discriminate. reflexivity.
Defined.

End Traversal.

(** ** What the analyzer extracts, and where *)

Section Extraction.

Import rules archive.

Variable w : World.

Lemma extract_zip_dir tmp_dir items x d :
  ExtractZip x d ∈ fst (extract_zip w tmp_dir items) -> d = tmp_dir.
Proof.
  induction items as [| [y | h] items IH]; cbn [extract_zip step done fst].
  - intros H. apply elem_of_nil in H. destruct H.
  - intros H. apply elem_of_cons in H as [H | H]; [congruence |].
    destruct (zip_extract w y tmp_dir); [| auto].
    apply elem_of_nil in H. destruct H.
  - intros H. apply elem_of_cons in H as [H | H]; [discriminate | auto].
Qed.

Lemma extract_tar_dir tmp_dir items x d :
  ExtractTar x d ∈ fst (extract_tar w tmp_dir items) -> d = tmp_dir.
Proof.
  induction items as [| [y | h] items IH]; cbn [extract_tar step done fst].
  - intros H. apply elem_of_nil in H. destruct H.
  - intros H. apply elem_of_cons in H as [H | H]; [congruence |].
    destruct (tar_extract w y tmp_dir); [| auto].
    apply elem_of_nil in H. destruct H.
  - intros H. apply elem_of_cons in H as [H | H]; [discriminate | auto].
Qed.

Lemma zip_entry_approved path x :
  zip_entry w path (config.get_maximum_archive_size (cfg w)) x
  = if approved_zip w x then [inl x]
    else zip_entry w path (config.get_maximum_archive_size (cfg w)) x.
Proof.
  unfold approved_zip, zip_entry.
  destruct (suspicious_path (filename x)) eqn:Hs; cbn [negb andb];
    [reflexivity |].
  apply (is_suspicious_None w _ path) in Hs. rewrite Hs.
  destruct (config.get_maximum_archive_size (cfg w)) as [m |]; [| reflexivity].
  destruct (Z.leb_spec (file_size x) m) as [Hle | Hlt]; [| reflexivity].
  apply Z.ltb_ge in Hle. rewrite Hle. reflexivity.
Qed.

Lemma zip_entry_rejected path x :
  approved_zip w x = false ->
  exists hit,
    zip_entry w path (config.get_maximum_archive_size (cfg w)) x = [inr hit].
Proof.
  unfold approved_zip, zip_entry.
  destruct (is_suspicious w (filename x) path) as [hit |] eqn:Hs; [eauto |].
  apply (is_suspicious_None w) in Hs. rewrite Hs. cbn [negb andb].
  destruct (config.get_maximum_archive_size (cfg w)) as [m |]; [| discriminate].
  intros Hle. apply Z.leb_gt in Hle. apply Z.ltb_lt in Hle. rewrite Hle. eauto.
Qed.

Lemma filter_zip_configured arch path :
  filter_zip w arch path None
  = concat (map (zip_entry w path (config.get_maximum_archive_size (cfg w)))
              arch).
Proof. reflexivity. Qed.

Lemma filter_zip_within_limit arch path x :
  inl x ∈ filter_zip w arch path None -> approved_zip w x = true.
Proof.
  rewrite filter_zip_configured. intros Hin.
  apply list_elem_of_In, in_concat in Hin as (l & Hl & Hx).
  apply in_map_iff in Hl as (y & <- & Hy).
  apply list_elem_of_In in Hx.
  destruct (approved_zip w y) eqn:Ha.
  - rewrite zip_entry_approved, Ha in Hx.
    apply list_elem_of_singleton in Hx. congruence.
  - destruct (zip_entry_rejected path y Ha) as (hit & Hhit).
    rewrite Hhit in Hx. apply list_elem_of_singleton in Hx. discriminate.
Qed.

Lemma filter_tar_kind arch path max_size x :
  inl x ∈ filter_tar w arch path max_size ->
  isdir x = true \/ isfile x = true.
Proof.
  unfold filter_tar. intros Hin.
  apply list_elem_of_In, in_concat in Hin as (l & Hl & Hx).
  apply in_map_iff in Hl as (y & <- & Hy).
  apply list_elem_of_In in Hx. unfold tar_member in Hx.
  destruct (is_suspicious w (name y) path).
  { apply list_elem_of_singleton in Hx. discriminate. }
  destruct (isdir y) eqn:Hdir.
  { apply list_elem_of_singleton in Hx. left. congruence. }
  destruct (issym y || islnk y); [apply elem_of_nil in Hx; destruct Hx |].
  destruct (isfile y) eqn:Hfile; [| apply elem_of_nil in Hx; destruct Hx].
  right.
  destruct max_size as [m |]; [destruct (m <? size y)%Z |];
    apply list_elem_of_singleton in Hx; congruence.
Qed.

Lemma supported_inv mime :
  supported mime = true -> exists s, mime = PyStr s /\ s ∈ SUPPORTED_MIME.
Proof.
  destruct mime; try discriminate. cbn [supported].
  intros H. apply bool_decide_eq_true_1 in H. eauto.
Qed.

(** The three shapes of a run of the analyzer: nothing to unpack; no
    temporary directory; or the directory, the child location and the
    unpacking. *)
Lemma archive_analyzer_run loc :
  (unpacked w loc = false /\ fst (archive_analyzer w loc) = []) \/
  (unpacked w loc = true /\
   exists e, make_tmp_dir w loc = Raise e /\ archive_analyzer w loc = fail e) \/
  (unpacked w loc = true /\
   exists mime,
     is_dir w (location loc) = false /\
     metadata loc !! "mime" = Some (PyStr mime) /\
     mime ∈ SUPPORTED_MIME /\
     make_tmp_dir w loc = Ok (extraction_dir w loc) /\
     archive_analyzer w loc
     = step (Mkdtemp (extraction_dir w loc))
         (step (Yield (Location (create_child w loc (extraction_dir w loc) true)))
            (except_read_error w loc
               (unpack w loc (PyStr mime) (extraction_dir w loc))))).
Proof.
  unfold archive_analyzer, unpacked, extraction_dir, metadata_mime.
  destruct (is_dir w (location loc)); cbn [negb andb]; [left; auto |].
  destruct (metadata loc !! "mime") as [mime |]; [| left; auto].
  destruct (supported mime) eqn:Hsup; cbn [negb]; [| left; auto].
  right. destruct (make_tmp_dir w loc) as [d | e]; [right | left; eauto].
  split; [reflexivity |].
  destruct (supported_inv mime Hsup) as (s & -> & Hs).
  exists s. repeat split; auto.
Qed.

Lemma unpack_zip loc mime tmp_dir x d :
  ExtractZip x d ∈ fst (unpack w loc (PyStr mime) tmp_dir) ->
  mime = "application/zip" /\
  ExtractZip x d ∈ fst (process_zipfile w (location loc) tmp_dir).
Proof.
  unfold unpack. cbn [py_eqb].
  destruct (String.eqb_spec mime "application/zip") as [-> | Hne]; [auto |].
  destruct (supported (PyStr mime)).
  - unfold process_tarfile. destruct (tarfile_open w (location loc)).
    + intros H. exfalso. eapply extract_tar_no_zip; exact H.
    + intros H. apply elem_of_nil in H. destruct H.
  - intros H. apply elem_of_nil in H. destruct H.
Qed.

Lemma unpack_tar loc mime tmp_dir x d :
  ExtractTar x d ∈ fst (unpack w loc (PyStr mime) tmp_dir) ->
  mime <> "application/zip" /\
  ExtractTar x d ∈ fst (process_tarfile w (location loc) tmp_dir).
Proof.
  unfold unpack. cbn [py_eqb].
  destruct (String.eqb_spec mime "application/zip") as [-> | Hne].
  - unfold process_zipfile. destruct (ZipFile w (location loc)).
    + intros H. exfalso. eapply extract_zip_no_tar; exact H.
    + intros H. apply elem_of_nil in H. destruct H.
  - destruct (supported (PyStr mime)); [auto |].
    intros H. apply elem_of_nil in H. destruct H.
Qed.

(** X18. Every call of [extract] on a zip entry that the analyzer makes
    is for a file whose content type is [application/zip], has the
    temporary directory of this run as its target, and is for an entry of
    the archive at the scanned location whose path is not suspicious and
    whose size is within the configured maximum. *)
Theorem zip_extraction_confined loc x d :
  ExtractZip x d ∈ fst (archive_analyzer w loc) ->
  d = extraction_dir w loc /\
  make_tmp_dir w loc = Ok d /\
  is_dir w (location loc) = false /\
  metadata loc !! "mime" = Some (PyStr "application/zip") /\
  (exists fd, ZipFile w (location loc) = Ok fd /\ x ∈ fd) /\
  suspicious_path (filename x) = false /\
  forall m, config.get_maximum_archive_size (cfg w) = Some m ->
            (file_size x <= m)%Z.
Proof.
  intros Hin.
  destruct (archive_analyzer_run loc)
    as [[_ Hnil] | [(_ & e & _ & Hfail)
                   | (_ & mime & Hdir & Hmime & Hsup & Hd & Hrun)]].
  { rewrite Hnil in Hin. apply elem_of_nil in Hin. destruct Hin. }
  { rewrite Hfail in Hin. apply elem_of_nil in Hin. destruct Hin. }
  rewrite Hrun in Hin. cbn [step fst] in Hin.
  apply elem_of_cons in Hin as [Hin | Hin]; [discriminate |].
  apply elem_of_cons in Hin as [Hin | Hin]; [discriminate |].
  apply except_read_error_events in Hin as [Hin | [hit Hin]];
    [| discriminate].
  apply unpack_zip in Hin as [-> Hin].
  unfold process_zipfile in Hin.
  destruct (ZipFile w (location loc)) as [fd | e] eqn:Hopen;
    [| apply elem_of_nil in Hin; destruct Hin].
  pose proof (extract_zip_dir _ _ _ _ Hin) as ->.
  apply extract_zip_called in Hin.
  pose proof (filter_zip_within_limit _ _ _ Hin) as Happ.
  apply filter_zip_approved in Hin as [Hfd Hs].
  repeat split; try assumption; [eauto |].
  intros m Hm. unfold approved_zip in Happ. rewrite Hs, Hm in Happ.
  cbn [negb andb] in Happ. apply Z.leb_le in Happ. exact Happ.
Qed.

(** X19. Every call of [extract] on a tar member that the analyzer makes
    is for a file with a supported content type other than
    [application/zip], has the temporary directory of this run as its
    target, and is for a member of the archive at the scanned location
    that is a directory or a regular file: a symbolic link, a hard link, a
    device or a FIFO is never extracted. *)
Theorem tar_extraction_confined loc x d :
  ExtractTar x d ∈ fst (archive_analyzer w loc) ->
  d = extraction_dir w loc /\
  make_tmp_dir w loc = Ok d /\
  is_dir w (location loc) = false /\
  (exists mime, metadata loc !! "mime" = Some (PyStr mime) /\
                mime ∈ SUPPORTED_MIME /\ mime <> "application/zip") /\
  (exists fd, tarfile_open w (location loc) = Ok fd /\ x ∈ fd) /\
  suspicious_path (name x) = false /\
  (isdir x = true \/ isfile x = true) /\
  issym x = false /\ islnk x = false.
Proof.
  intros Hin.
  destruct (archive_analyzer_run loc)
    as [[_ Hnil] | [(_ & e & _ & Hfail)
                   | (_ & mime & Hdir & Hmime & Hsup & Hd & Hrun)]].
  { rewrite Hnil in Hin. apply elem_of_nil in Hin. destruct Hin. }
  { rewrite Hfail in Hin. apply elem_of_nil in Hin. destruct Hin. }
  rewrite Hrun in Hin. cbn [step fst] in Hin.
  apply elem_of_cons in Hin as [Hin | Hin]; [discriminate |].
  apply elem_of_cons in Hin as [Hin | Hin]; [discriminate |].
  apply except_read_error_events in Hin as [Hin | [hit Hin]];
    [| discriminate].
  apply unpack_tar in Hin as [Hne Hin].
  unfold process_tarfile in Hin.
  destruct (tarfile_open w (location loc)) as [fd | e] eqn:Hopen;
    [| apply elem_of_nil in Hin; destruct Hin].
  pose proof (extract_tar_dir _ _ _ _ Hin) as ->.
  apply extract_tar_called in Hin.
  pose proof (filter_tar_kind _ _ _ _ Hin) as Hkind.
  apply filter_tar_approved in Hin as [Hfd Hs].
  repeat split; try assumption; eauto.
  - unfold issym, isdir, isfile in *.
    destruct (type x); destruct Hkind; try discriminate; reflexivity.
  - unfold islnk, isdir, isfile in *.
    destruct (type x); destruct Hkind; try discriminate; reflexivity.
Qed.

End Extraction.

Lemma zip_extraction_confined_witness :
  archive.ExtractZip (archive.mkZipInfo "a.txt" 1) "/tmp/aura_pkg__sandboxpkg.zip"
    ∈ fst (archive.archive_analyzer crc_world zip_location) /\
  (archive.file_size (archive.mkZipInfo "a.txt" 1) <= 5)%Z.
Proof.
  assert (archive.ExtractZip (archive.mkZipInfo "a.txt" 1)
            "/tmp/aura_pkg__sandboxpkg.zip"
            ∈ fst (archive.archive_analyzer crc_world zip_location)) as Hin.
  { rewrite (archive_analyzer_supported crc_world zip_location
               "application/zip" "/tmp/aura_pkg__sandboxpkg.zip");
      [| reflexivity | reflexivity | repeat constructor | reflexivity].
    vm_compute. repeat constructor. }
  split; [exact Hin |].
  apply (zip_extraction_confined crc_world zip_location _ _ Hin).
  reflexivity.
Defined.

Lemma tar_extraction_confined_witness :
  archive.ExtractTar (archive.mkTarInfo "d" 0 archive.DIRTYPE)
    "/tmp/aura_pkg__sandboxpkg.tar.gz"
    ∈ fst (archive.archive_analyzer crc_world tar_location) /\
  archive.issym (archive.mkTarInfo "d" 0 archive.DIRTYPE) = false.
Proof.
  assert (archive.ExtractTar (archive.mkTarInfo "d" 0 archive.DIRTYPE)
            "/tmp/aura_pkg__sandboxpkg.tar.gz"
            ∈ fst (archive.archive_analyzer crc_world tar_location)) as Hin.
  { rewrite (archive_analyzer_supported crc_world tar_location
               "application/gzip" "/tmp/aura_pkg__sandboxpkg.tar.gz");
      [| reflexivity | reflexivity | repeat constructor | reflexivity].
    vm_compute. repeat constructor. }
  split; [exact Hin |].
  apply (tar_extraction_confined crc_world tar_location _ _ Hin).
Defined.

(** ** Runs of the extraction *)

Section Runs.

Import rules archive.

Variable w : World.

Lemma extract_zip_app tmp_dir l1 l2 :
  extract_zip w tmp_dir (l1 ++ l2)
  = match snd (extract_zip w tmp_dir l1) with
    | Some e => extract_zip w tmp_dir l1
    | None =>
        ((fst (extract_zip w tmp_dir l1) ++ fst (extract_zip w tmp_dir l2))%list,
         snd (extract_zip w tmp_dir l2))
    end.
Proof.
  induction l1 as [| [y | h] l1 IH]; cbn [app extract_zip].
  - cbn. destruct (extract_zip w tmp_dir l2). reflexivity.
  - destruct (zip_extract w y tmp_dir) as [e |]; [reflexivity |].
    rewrite IH. destruct (extract_zip w tmp_dir l1) as [ev1 [e1 |]];
      reflexivity.
  - rewrite IH. destruct (extract_zip w tmp_dir l1) as [ev1 [e1 |]];
      reflexivity.
Qed.

Lemma extract_zip_succeeds tmp_dir items :
  (forall y, inl y ∈ items -> zip_extract w y tmp_dir = None) ->
  snd (extract_zip w tmp_dir items) = None.
Proof.
  induction items as [| [y | h] items IH]; intros Hok;
    cbn [extract_zip step done snd].
  - reflexivity.
  - rewrite (Hok y) by left. apply IH. intros z Hz. apply Hok. right. exact Hz.
  - apply IH. intros z Hz. apply Hok. right. exact Hz.
Qed.

Lemma filter_zip_app arch1 arch2 path max_size :
  filter_zip w (arch1 ++ arch2) path max_size
  = (filter_zip w arch1 path max_size ++ filter_zip w arch2 path max_size)%list.
Proof. unfold filter_zip. rewrite map_app, concat_app. reflexivity. Qed.

Lemma filter_zip_cons x arch path :
  filter_zip w (x :: arch) path None
  = (zip_entry w path (config.get_maximum_archive_size (cfg w)) x
     ++ filter_zip w arch path None)%list.
Proof. reflexivity. Qed.

(** The run of [process_zipfile] up to an approved entry whose extraction
    fails: the entries after it have no part in it. *)
Lemma process_zipfile_failure path tmp_dir pre x post e :
  ZipFile w path = Ok (pre ++ x :: post)%list ->
  approved_zip w x = true ->
  (forall y, y ∈ pre -> zip_extract w y tmp_dir = None) ->
  zip_extract w x tmp_dir = Some e ->
  process_zipfile w path tmp_dir
  = ((fst (extract_zip w tmp_dir (filter_zip w pre path None))
      ++ [ExtractZip x tmp_dir])%list, Some e).
Proof.
  intros Hopen Happ Hpre Hx. unfold process_zipfile. rewrite Hopen.
  rewrite filter_zip_app, extract_zip_app.
  rewrite extract_zip_succeeds.
  2: { intros y Hy. apply Hpre. apply filter_zip_approved in Hy. tauto. }
  rewrite filter_zip_cons, zip_entry_approved, Happ.
  cbn [app extract_zip]. rewrite Hx. reflexivity.
Qed.

(** X20. When the temporary directory has been created and the
    extraction of a zip entry fails, the run of the analyzer
    ends there: the entries after it are neither extracted nor checked,
    so that a suspicious entry among them is not reported.  An exception
    that is not a read error leaves the analyzer; a [BadZipFile] or
    [ReadError] raised by [extract] is caught like a failure to open, and
    reported by a hit that says the archive could not be opened. *)
Theorem extraction_failure_ends_run loc d pre x post e :
  is_dir w (location loc) = false ->
  metadata loc !! "mime" = Some (PyStr "application/zip") ->
  make_tmp_dir w loc = Ok d ->
  ZipFile w (location loc) = Ok (pre ++ x :: post)%list ->
  approved_zip w x = true ->
  (forall y, y ∈ pre -> zip_extract w y d = None) ->
  zip_extract w x d = Some e ->
  let before :=
    Mkdtemp d :: Yield (Location (create_child w loc d true))
      :: fst (extract_zip w d (filter_zip w pre (location loc) None)) in
  (is_read_error e = false ->
   archive_analyzer w loc = ((before ++ [ExtractZip x d])%list, Some e)) /\
  (is_read_error e = true ->
   forall msg rest, exc_args e = msg :: rest ->
   exists hit,
     archive_analyzer w loc
     = ((before ++ [ExtractZip x d; Yield (Hit hit)])%list, None) /\
     message hit = Some "Could not open the archive for analysis" /\
     extra_get "reason" hit = Some (PyStr "archive_read_error") /\
     extra_get "exc_message" hit = Some msg).
Proof.
  intros Hdir Hmime Hd Hopen Happ Hpre Hx before.
  rewrite (archive_analyzer_supported w loc "application/zip" d Hdir Hmime)
    by (repeat constructor || exact Hd).
  unfold unpack. cbn [py_eqb String.eqb Ascii.eqb Bool.eqb].
  rewrite (process_zipfile_failure _ _ pre x post e Hopen Happ Hpre Hx).
  unfold except_read_error. cbn [fst snd]. split.
  - intros ->. unfold step. cbn [fst snd]. reflexivity.
  - intros -> msg rest Hargs.
    assert (from_generic_exception w loc e
            = Ok (mkRule ArchiveAnomaly
                    (Some (location loc))
                    (Some "Could not open the archive for analysis")
                    ("archive_anomaly#read_error#" +:+ location loc)
                    (Some (config.get_score_or_default (cfg w)
                             "corrupted-archive" 10))
                    [("reason", PyStr "archive_read_error");
                     ("exc_message", msg);
                     ("exc_type", PyStr (class_name (exc_cls e)));
                     ("mime", PyStr "application/zip")])) as ->.
    { unfold from_generic_exception, metadata_mime, getitem.
      rewrite Hargs, Hmime. reflexivity. }
    eexists. split.
    + unfold step. cbn [fst snd]. unfold before.
      rewrite <- app_assoc. reflexivity.
    + repeat split.
Qed.

(** X21. When the archive opens and no extraction fails, [process_zipfile]
    accounts for every entry, in the order of the archive: an approved
    entry is extracted into the given directory, every other entry is
    reported by a hit, and the run ends without an exception. *)
Theorem zip_entries_accounted path tmp_dir fd :
  ZipFile w path = Ok fd ->
  (forall x, x ∈ fd -> approved_zip w x = true ->
             zip_extract w x tmp_dir = None) ->
  exists evs,
    process_zipfile w path tmp_dir = (evs, None) /\
    Forall2 (fun x ev =>
               if approved_zip w x then ev = ExtractZip x tmp_dir
               else exists hit, ev = Yield (Hit hit)) fd evs.
Proof.
  intros Hopen Hok. unfold process_zipfile. rewrite Hopen. clear Hopen.
  induction fd as [| x fd IH].
  - exists []. split; [reflexivity | constructor].
  - destruct IH as (evs & Hrun & Hall).
    { intros y Hy. apply Hok. right. exact Hy. }
    rewrite filter_zip_cons.
    destruct (approved_zip w x) eqn:Ha.
    + rewrite zip_entry_approved, Ha. cbn [app extract_zip].
      rewrite (Hok x) by (left || exact Ha). rewrite Hrun.
      exists (ExtractZip x tmp_dir :: evs). split; [reflexivity |].
      constructor; [rewrite Ha; reflexivity | exact Hall].
    + destruct (zip_entry_rejected w (path) x Ha) as (hit & ->).
      cbn [app extract_zip]. rewrite Hrun.
      exists (Yield (Hit hit) :: evs). split; [reflexivity |].
      constructor; [rewrite Ha; eauto | exact Hall].
Qed.

(** X22. A tar member that is a link, a device or a FIFO, and whose path
    is not suspicious, has no part in the run: [process_tarfile] on an
    archive with such a member does what it does on the archive without
    it, so that the member is neither extracted nor reported. *)
Theorem tar_special_member_ignored path tmp_dir pre x post :
  tarfile_open w path = Ok (pre ++ x :: post)%list ->
  suspicious_path (name x) = false ->
  isdir x = false -> isfile x = false ->
  process_tarfile w path tmp_dir
  = extract_tar w tmp_dir (filter_tar w (pre ++ post) path None) /\
  forall hit, Yield (Hit hit) ∈ fst (process_tarfile w path tmp_dir) ->
              inr hit ∈ filter_tar w (pre ++ post) path None.
Proof.
  intros Hopen Hs Hdir Hfile.
  assert (process_tarfile w path tmp_dir
          = extract_tar w tmp_dir (filter_tar w (pre ++ post) path None))
    as Heq.
  { unfold process_tarfile. rewrite Hopen. f_equal.
    unfold filter_tar. rewrite !map_app, !concat_app. f_equal.
    cbn [map concat]. unfold tar_member at 1.
    apply (is_suspicious_None w _ path) in Hs. rewrite Hs, Hdir, Hfile.
    destruct (issym x || islnk x); reflexivity. }
  split; [exact Heq |].
  rewrite Heq. clear.
  induction (filter_tar w (pre ++ post) path None) as [| [y | h] items IH];
    cbn [extract_tar step done fst]; intros hit Hin.
  - apply elem_of_nil in Hin. destruct Hin.
  - apply elem_of_cons in Hin as [Hin | Hin]; [discriminate |].
    right. destruct (tar_extract w y tmp_dir).
    + apply elem_of_nil in Hin. destruct Hin.
    + apply IH. exact Hin.
  - apply elem_of_cons in Hin as [Hin | Hin].
    + injection Hin as ->. left.
    + right. apply IH. exact Hin.
Qed.

End Runs.

Lemma extraction_failure_ends_run_witness :
  exists child hit,
    archive.archive_analyzer crc_world zip_location
    = ([archive.Mkdtemp "/tmp/aura_pkg__sandboxpkg.zip";
        archive.Yield (archive.Location child);
        archive.ExtractZip (archive.mkZipInfo "a.txt" 1)
          "/tmp/aura_pkg__sandboxpkg.zip";
        archive.ExtractZip (archive.mkZipInfo "b.txt" 2)
          "/tmp/aura_pkg__sandboxpkg.zip";
        archive.Yield (archive.Hit hit)], None) /\
    rules.extra_get "reason" hit = Some (PyStr "archive_read_error").
Proof.
  destruct (extraction_failure_ends_run crc_world zip_location
              "/tmp/aura_pkg__sandboxpkg.zip"
              [archive.mkZipInfo "a.txt" 1] (archive.mkZipInfo "b.txt" 2)
              [archive.mkZipInfo "../c.txt" 3]
              (Exn BadZipFile [PyStr "Bad CRC-32 for file 'b.txt'"])
              eq_refl eq_refl eq_refl eq_refl eq_refl) as [_ H].
  - intros y Hy. apply list_elem_of_singleton in Hy. subst y. reflexivity.
  - reflexivity.
  - destruct (H eq_refl _ _ eq_refl) as (hit & Hrun & _ & Hreason & _).
    eexists _, hit. split; [exact Hrun | exact Hreason].
Defined.

Lemma zip_entries_accounted_witness :
  exists evs,
    archive.process_zipfile limit_world "pkg.zip" "/tmp/x" = (evs, None) /\
    length evs = 1.
Proof.
  destruct (zip_entries_accounted limit_world "pkg.zip" "/tmp/x" [big_entry]
              eq_refl) as (evs & Hrun & Hall).
  - intros x _ _. reflexivity.
  - exists evs. split; [exact Hrun |].
    apply Forall2_length in Hall. rewrite <- Hall. reflexivity.
Defined.

Lemma tar_special_member_ignored_witness :
  archive.process_tarfile crc_world "pkg.tar.gz" "/tmp/x"
  = archive.extract_tar crc_world "/tmp/x"
      (archive.filter_tar crc_world
         ([archive.mkTarInfo "d" 0 archive.DIRTYPE]
          ++ [archive.mkTarInfo "d/dev" 0 archive.CHRTYPE])
         "pkg.tar.gz" None).
Proof.
  apply (tar_special_member_ignored crc_world "pkg.tar.gz" "/tmp/x"
           [archive.mkTarInfo "d" 0 archive.DIRTYPE]
           (archive.mkTarInfo "d/link" 0 archive.SYMTYPE)
           [archive.mkTarInfo "d/dev" 0 archive.CHRTYPE]);
    reflexivity.
Defined.

(** ** [diff_archive] *)

Section DiffArchive.

Import rules archive.

Variable w : World.

Lemma locations_app l1 l2 :
  diff.locations (l1 ++ l2) = (diff.locations l1 ++ diff.locations l2)%list.
Proof.
  induction l1 as [| [dir | [l | r] | x d | x d] l1 IH]; cbn [app diff.locations];
    rewrite ?IH; reflexivity.
Qed.

Lemma locations_extract_zip tmp_dir items :
  diff.locations (fst (extract_zip w tmp_dir items)) = [].
Proof.
  induction items as [| [y | h] items IH];
    cbn [extract_zip step done fst diff.locations]; [reflexivity | | exact IH].
  destruct (zip_extract w y tmp_dir); [reflexivity | exact IH].
Qed.

Lemma locations_extract_tar tmp_dir items :
  diff.locations (fst (extract_tar w tmp_dir items)) = [].
Proof.
  induction items as [| [y | h] items IH];
    cbn [extract_tar step done fst diff.locations]; [reflexivity | | exact IH].
  destruct (tar_extract w y tmp_dir); [reflexivity | exact IH].
Qed.

Lemma locations_unpack loc mime tmp_dir :
  diff.locations (fst (except_read_error w loc (unpack w loc mime tmp_dir)))
  = [].
Proof.
  assert (diff.locations (fst (unpack w loc mime tmp_dir)) = []) as Hbody.
  { unfold unpack, process_zipfile, process_tarfile.
    destruct (py_eqb mime (PyStr "application/zip")).
    - destruct (ZipFile w (location loc));
        [apply locations_extract_zip | reflexivity].
    - destruct (supported mime); [| reflexivity].
      destruct (tarfile_open w (location loc));
        [apply locations_extract_tar | reflexivity]. }
  unfold except_read_error.
  destruct (snd (unpack w loc mime tmp_dir)) as [exc |]; [| exact Hbody].
  destruct (is_read_error exc); [| exact Hbody].
  destruct (from_generic_exception w loc exc); cbn [fst]; [| exact Hbody].
  rewrite locations_app, Hbody. reflexivity.
Qed.

(** A run of the analyzer that ends without an exception yields one
    location, the child for the temporary directory, when it unpacks, and
    none otherwise. *)
Lemma locations_archive_analyzer loc :
  snd (archive_analyzer w loc) = None ->
  diff.locations (fst (archive_analyzer w loc))
  = if unpacked w loc
    then [create_child w loc (extraction_dir w loc) true]
    else [].
Proof.
  destruct (archive_analyzer_run w loc)
    as [[-> ->] | [(_ & e & _ & ->) | (-> & mime & _ & _ & _ & _ & ->)]];
    [reflexivity | discriminate |].
  intros _. cbn [step fst diff.locations]. rewrite locations_unpack.
  reflexivity.
Qed.

Lemma effects_are_no_yields r :
  Forall (fun ev => is_yield ev = false) (diff.effects r).
Proof.
  apply Forall_forall. intros ev Hev.
  apply list_elem_of_fmap in Hev as (x & -> & _). reflexivity.
Qed.

Lemma contains_RM op :
  diff.contains op "RM" = true <-> op ∈ [""; "R"; "M"; "RM"].
Proof.
  split.
  - destruct op as [| c1 [| c2 [| c3 op]]].
    + intros _. repeat constructor.
    + cbn. destruct (ascii_dec c1 "R") as [-> | _];
        [intros _; repeat constructor |].
      destruct (ascii_dec c1 "M") as [-> | _];
        [intros _; repeat constructor | discriminate].
    + cbn. destruct (ascii_dec c1 "R") as [-> | _].
      * destruct (ascii_dec c2 "M") as [-> | _];
          [intros _; repeat constructor |].
        cbn. discriminate.
      * destruct (ascii_dec c1 "M") as [-> | _]; cbn; discriminate.
    + cbn. destruct (ascii_dec c1 "R") as [-> | _].
      * destruct (ascii_dec c2 "M") as [-> | _]; cbn; discriminate.
      * destruct (ascii_dec c1 "M") as [-> | _]; cbn; discriminate.
  - intros H. repeat (apply elem_of_cons in H as [-> | H]; [reflexivity |]).
    apply elem_of_nil in H. destruct H.
Qed.

End DiffArchive.

Section DiffArchiveRuns.

Import rules archive.

Variables wa wb : World.

(** X23. [diff_archive] does nothing, not even create a child location,
    unless the operation is a substring of ["RM"] (which the empty string
    is, as are [R], [M] and [RM]) and the two checksums differ. *)
Theorem diff_archive_skips cleanup d :
  diff.operation d ∉ [""; "R"; "M"; "RM"] \/ diff.a_md5 d = diff.b_md5 d ->
  diff.diff_archive cleanup wa wb d = ([], None).
Proof.
  unfold diff.diff_archive. intros [Hop | Hmd5].
  - destruct (diff.contains (diff.operation d) "RM") eqn:Hc; [| reflexivity].
    apply contains_RM in Hc. contradiction.
  - destruct (negb (diff.contains (diff.operation d) "RM")); [reflexivity |].
    rewrite bool_decide_eq_true_2 by exact Hmd5. reflexivity.
Qed.

(** X24. When the operation is a rename or a modification, the checksums
    differ and both analyses end without an exception, [diff_archive]
    yields the hits of the first version, then the hits of the second,
    then, if at least one version was unpacked, one location: the pair of
    the two versions, each given by its unpacked directory if it was
    unpacked and by the file itself otherwise.  All extraction comes before
    the first yield. *)
Theorem diff_archive_yields cleanup d :
  diff.operation d ∈ [""; "R"; "M"; "RM"] ->
  diff.a_md5 d <> diff.b_md5 d ->
  let a := create_child wa (diff.a_scan d) (diff.a_path d) cleanup in
  let b := create_child wb (diff.b_scan d) (diff.b_path d) cleanup in
  snd (archive_analyzer wa a) = None ->
  snd (archive_analyzer wb b) = None ->
  diff.diff_archive cleanup wa wb d
  = ((diff.effects (archive_analyzer wa a)
      ++ diff.effects (archive_analyzer wb b)
      ++ map diff.YieldHit (diff.hits (fst (archive_analyzer wa a)))
      ++ map diff.YieldHit (diff.hits (fst (archive_analyzer wb b)))
      ++ if unpacked wa a || unpacked wb b
         then [diff.YieldLocation
                 (if unpacked wa a
                  then create_child wa a (extraction_dir wa a) true else a)
                 (if unpacked wb b
                  then create_child wb b (extraction_dir wb b) true else b)]
         else [])%list, None).
Proof.
  intros Hop Hmd5 a b Ha Hb. unfold diff.diff_archive.
  apply contains_RM in Hop. rewrite Hop. cbn [negb].
  rewrite bool_decide_eq_false_2 by exact Hmd5.
  fold a. fold b. rewrite Ha, Hb.
  rewrite (locations_archive_analyzer wa a Ha).
  rewrite (locations_archive_analyzer wb b Hb).
  destruct (unpacked wa a), (unpacked wb b); reflexivity.
Qed.

(** X25. [diff_archive] runs both analyses to the end before it yields
    anything.  When the analysis of the first version raises,
    [diff_archive] raises the same exception: it has made the steps of that
    analysis, the second version is not analysed and nothing is yielded.
    When the analysis of the second version raises, [diff_archive] raises
    that exception after the steps of both analyses, and yields nothing:
    the hits found before the error are lost.  It ends without an exception
    exactly when both analyses do. *)
Theorem diff_archive_all_or_nothing cleanup d :
  diff.operation d ∈ [""; "R"; "M"; "RM"] ->
  diff.a_md5 d <> diff.b_md5 d ->
  let a := create_child wa (diff.a_scan d) (diff.a_path d) cleanup in
  let b := create_child wb (diff.b_scan d) (diff.b_path d) cleanup in
  (forall e,
      snd (archive_analyzer wa a) = Some e ->
      diff.diff_archive cleanup wa wb d
      = (diff.effects (archive_analyzer wa a), Some e)) /\
  (forall e,
      snd (archive_analyzer wa a) = None ->
      snd (archive_analyzer wb b) = Some e ->
      diff.diff_archive cleanup wa wb d
      = ((diff.effects (archive_analyzer wa a)
          ++ diff.effects (archive_analyzer wb b))%list, Some e)) /\
  (snd (diff.diff_archive cleanup wa wb d) = None <->
   snd (archive_analyzer wa a) = None /\ snd (archive_analyzer wb b) = None) /\
  (snd (diff.diff_archive cleanup wa wb d) <> None ->
   Forall (fun ev => is_yield ev = false)
     (fst (diff.diff_archive cleanup wa wb d))) /\
  exists effs ys,
    fst (diff.diff_archive cleanup wa wb d)
    = (map diff.Effect effs ++ ys)%list /\
    Forall (fun ev => is_yield ev = true) ys.
Proof.
  intros Hop Hmd5 a b. unfold diff.diff_archive.
  apply contains_RM in Hop. rewrite Hop. cbn [negb].
  rewrite bool_decide_eq_false_2 by exact Hmd5.
  fold a. fold b.
  destruct (snd (archive_analyzer wa a)) as [ea |] eqn:Ha.
  { cbn [fst snd]. repeat split; try congruence.
    - intros [H _]. discriminate.
    - intros _. apply effects_are_no_yields.
    - exists (List.filter diff.is_effect (fst (archive_analyzer wa a))), [].
      rewrite app_nil_r. split; [reflexivity | constructor]. }
  destruct (snd (archive_analyzer wb b)) as [eb |] eqn:Hb.
  { cbn [fst snd]. repeat split; try congruence.
    - intros [_ H]. discriminate.
    - intros _. apply Forall_app. split; apply effects_are_no_yields.
    - exists (List.filter diff.is_effect (fst (archive_analyzer wa a))
              ++ List.filter diff.is_effect (fst (archive_analyzer wb b)))%list,
        [].
      rewrite app_nil_r, map_app. split; [reflexivity | constructor]. }
  cbn [fst snd]. repeat split; try congruence.
  eexists (List.filter diff.is_effect (fst (archive_analyzer wa a))
           ++ List.filter diff.is_effect (fst (archive_analyzer wb b)))%list, _.
  rewrite map_app, <- app_assoc. split; [reflexivity |].
  rewrite !Forall_app. repeat split.
  - apply Forall_forall. intros ev Hev.
    apply list_elem_of_fmap in Hev as (r & -> & _). reflexivity.
  - apply Forall_forall. intros ev Hev.
    apply list_elem_of_fmap in Hev as (r & -> & _). reflexivity.
  - destruct (diff.locations (fst (archive_analyzer wa a))),
      (diff.locations (fst (archive_analyzer wb b)));
      repeat constructor.
Qed.

End DiffArchiveRuns.

Lemma diff_archive_skips_witness :
  diff.diff_archive false plain_world plain_world
    (diff.mkDiff "A" None (Some "92eb") zip_location zip_location "a" "b")
  = ([], None).
Proof.
  apply (diff_archive_skips plain_world plain_world false).
  left. cbn [diff.operation]. intros H.
  repeat (apply elem_of_cons in H as [H | H]; [discriminate |]).
  apply elem_of_nil in H. exact H.
Defined.

Lemma diff_archive_yields_witness :
  exists a b,
    filter (fun ev => is_yield ev)
      (fst (diff.diff_archive false limit_world second_world modified_zip))
    = [diff.YieldHit (archive.zip_size_hit "a/pkg.zip" "data.bin" 10 5);
       diff.YieldHit (archive.zip_size_hit "b/pkg.zip" "data.bin" 10 5);
       diff.YieldLocation a b] /\
    archive.location a = "/tmp/aura_pkg__sandboxpkg.zip" /\
    archive.location b = "/tmp/aura_pkg__sandbox_1pkg.zip".
Proof.
  do 2 eexists.
  rewrite (diff_archive_yields limit_world second_world false modified_zip).
  - repeat split; vm_compute; reflexivity.
  - repeat constructor.
  - discriminate.
  - vm_compute. reflexivity.
  - vm_compute. reflexivity.
Defined.

Lemma diff_archive_all_or_nothing_witness :
  diff.diff_archive false failing_world failing_world modified_zip
  = ([diff.Effect (archive.Mkdtemp "/tmp/aura_pkg__sandboxpkg.zip");
      diff.Effect (archive.ExtractZip (archive.mkZipInfo "a.txt" 1)
                     "/tmp/aura_pkg__sandboxpkg.zip")],
     Some (Exn OSError [PyStr "No space left on device"])).
Proof.
  destruct (diff_archive_all_or_nothing failing_world failing_world false
              modified_zip) as [H _].
  - repeat constructor.
  - discriminate.
  - rewrite (H (Exn OSError [PyStr "No space left on device"]));
      vm_compute; reflexivity.
Defined.

(** ** [Arguments.to_signature] *)

Lemma zip_with_zip {A B C} (f : A -> B -> C) (l : list A) (k : list B) :
  zip_with f l k = map (fun p => f (fst p) (snd p)) (zip l k).
Proof.
  revert k. induction l as [| a l IH]; intros [| b k]; cbn; [reflexivity .. |].
  rewrite IH. reflexivity.
Qed.

Lemma Parameter_of_identifier a default :
  inspect.isidentifier a = true ->
  Parameter_of (PyStr a) inspect.POSITIONAL_OR_KEYWORD default
  = Ok (inspect.mkParam a inspect.POSITIONAL_OR_KEYWORD default).
Proof.
  intros Hid. unfold Parameter_of.
  cbn [inspect.kind_eqb inspect.kind_value Nat.eqb orb].
  rewrite andb_false_r.
  apply Parameter_init_identifier; [exact Hid |].
  right. split; discriminate.
Qed.

(** Below the offset a parameter has no default. *)
Lemma parameters_from_plain l1 l2 defaults n idx :
  (l1 <> [] -> idx + length l1 + length defaults <= n) ->
  Forall (fun a => inspect.isidentifier a = true) l1 ->
  parameters_from (map PyStr (l1 ++ l2)) defaults n idx
    inspect.POSITIONAL_OR_KEYWORD
  = let* ps := parameters_from (map PyStr l2) defaults n (idx + length l1)
                 inspect.POSITIONAL_OR_KEYWORD in
    Ok (map (fun a => inspect.mkParam a inspect.POSITIONAL_OR_KEYWORD None) l1
        ++ ps)%list.
Proof.
  revert idx. induction l1 as [| a l1 IH]; intros idx Hle Hid.
  - cbn [app length map]. rewrite Nat.add_0_r.
    destruct (parameters_from _ _ _ _ _); reflexivity.
  - apply Forall_cons in Hid as [Ha Hid].
    specialize (Hle ltac:(discriminate)). cbn [length] in Hle.
    cbn [app map parameters_from]. unfold default_at.
    assert ((Z.of_nat n - Z.of_nat (length defaults) <=? Z.of_nat idx)%Z
            = false) as -> by (apply Z.leb_gt; lia).
    cbn [bind]. rewrite (Parameter_of_identifier a None Ha). cbn [bind].
    rewrite IH by (assumption || (intros _; lia)).
    cbn [length]. replace (S idx + length l1) with (idx + S (length l1)) by lia.
    destruct (parameters_from _ _ _ _ _); reflexivity.
Qed.

(** From the offset on, the parameters take the defaults in turn. *)
Lemma parameters_from_defaults l defaults n idx :
  n <= idx + length defaults ->
  idx + length l = n ->
  Forall (fun a => inspect.isidentifier a = true) l ->
  parameters_from (map PyStr l) defaults n idx inspect.POSITIONAL_OR_KEYWORD
  = Ok (zip_with (fun a d => inspect.mkParam a inspect.POSITIONAL_OR_KEYWORD
                               (Some d))
          l (drop (idx + length defaults - n) defaults)).
Proof.
  revert idx. induction l as [| a l IH]; intros idx Hle Hlen Hid.
  - reflexivity.
  - apply Forall_cons in Hid as [Ha Hid]. cbn [length] in Hlen.
    cbn [map parameters_from]. unfold default_at.
    assert ((Z.of_nat n - Z.of_nat (length defaults) <=? Z.of_nat idx)%Z
            = true) as -> by (apply Z.leb_le; lia).
    replace (Z.to_nat (Z.of_nat idx
                       - (Z.of_nat n - Z.of_nat (length defaults))))
      with (idx + length defaults - n) by lia.
    destruct (lookup_lt_is_Some_2 defaults (idx + length defaults - n))
      as [d Hd]; [lia |].
    rewrite Hd. cbn [bind].
    rewrite (Parameter_of_identifier a (Some d) Ha). cbn [bind].
    rewrite IH by (assumption || lia). cbn [bind].
    rewrite (drop_S _ _ _ Hd). cbn [zip_with].
    replace (S idx + length defaults - n)
      with (S (idx + length defaults - n)) by lia.
    reflexivity.
Qed.

Lemma validate_plain names rest top params :
  inspect.kind_value top <= 1 ->
  NoDup names ->
  (forall n, n ∈ names -> n ∉ map inspect.name params) ->
  exists top',
    inspect.kind_value top' <= 1 /\
    inspect.validate
      (map (fun n => inspect.mkParam n inspect.POSITIONAL_OR_KEYWORD None) names
       ++ rest) top false params
    = inspect.validate rest top' false
        (params
         ++ map (fun n => inspect.mkParam n inspect.POSITIONAL_OR_KEYWORD None)
              names).
Proof.
  intros Htop Hnd. revert top params Htop.
  induction Hnd as [| n names Hn Hnd IH]; intros top params Htop Hfresh.
  - exists top. cbn [map app]. rewrite app_nil_r. auto.
  - cbn [map app inspect.validate inspect.kind inspect.default inspect.name].
    assert (Nat.ltb (inspect.kind_value inspect.POSITIONAL_OR_KEYWORD)
              (inspect.kind_value top) = false) as ->
      by (apply Nat.ltb_ge; cbn; lia).
    destruct (IH (if Nat.ltb (inspect.kind_value top)
                       (inspect.kind_value inspect.POSITIONAL_OR_KEYWORD)
                  then inspect.POSITIONAL_OR_KEYWORD else top)
                (params ++ [inspect.mkParam n inspect.POSITIONAL_OR_KEYWORD None])%list)
      as (top' & Htop' & Heq).
    + destruct (Nat.ltb _ _); [cbn; lia | exact Htop].
    + intros n' Hn'. rewrite map_app, elem_of_app. cbn [map inspect.name].
      intros [H | H].
      * apply (Hfresh n'); [right; exact Hn' | exact H].
      * apply list_elem_of_singleton in H. subst n'. contradiction.
    + exists top'. split; [exact Htop' |].
      rewrite <- app_assoc in Heq. cbn [app] in Heq. rewrite <- Heq.
      rewrite bool_decide_eq_false_2 by (apply Hfresh; left).
      destruct (Nat.ltb (inspect.kind_value top)
                  (inspect.kind_value inspect.POSITIONAL_OR_KEYWORD));
        reflexivity.
Qed.

(** X26. [to_signature] of positional arguments with defaults: for names
    that are identifiers and pairwise different it always succeeds, for
    any number of defaults.  The defaults go to the last names; when there
    are more defaults than names, the surplus at the front is ignored and
    no index error occurs. *)
Theorem to_signature_right_aligned m args defaults :
  Forall (fun a => inspect.isidentifier a = true) args ->
  NoDup args ->
  to_signature (Arguments m args PyNone [] PyNone defaults [])
  = Ok (inspect.mkSignature (right_aligned args defaults)).
Proof.
  intros Hid Hnd. unfold to_signature, to_parameters, var_parameter.
  cbn [is_None parameters_from bind].
  set (n := length args). set (k := length defaults).
  assert (parameters_from (map PyStr args) defaults n 0
            inspect.POSITIONAL_OR_KEYWORD
          = Ok (right_aligned args defaults)) as ->.
  { rewrite <- (take_drop (n - k) args) at 1.
    rewrite parameters_from_plain.
    - rewrite parameters_from_defaults.
      + cbn [bind]. unfold right_aligned. fold n k. do 3 f_equal.
        rewrite length_take. fold n. f_equal. lia.
      + rewrite length_take. fold n k. lia.
      + rewrite length_take, length_drop. fold n. lia.
      + apply Forall_drop. exact Hid.
    - intros Hne. rewrite length_take. fold n k.
      destruct (decide (n <= k)) as [Hnk | Hnk]; [| lia].
      exfalso. apply Hne. replace (n - k) with 0 by lia. reflexivity.
    - apply Forall_take. exact Hid. }
  cbn [bind app]. rewrite !app_nil_r.
  unfold inspect.Signature_init, right_aligned. fold n k.
  assert (NoDup (take (n - k) args ++ drop (n - k) args)) as Hsplit
    by (rewrite take_drop; exact Hnd).
  apply NoDup_app in Hsplit as (Hnd1 & Hdisj & Hnd2).
  destruct (validate_plain (take (n - k) args)
              (zip_with (fun a d => inspect.mkParam a
                                      inspect.POSITIONAL_OR_KEYWORD (Some d))
                 (drop (n - k) args) (drop (k - n) defaults))
              inspect.POSITIONAL_ONLY []) as (top' & Htop' & ->).
  - cbn. lia.
  - exact Hnd1.
  - intros a _. cbn. apply not_elem_of_nil.
  - assert (length (drop (n - k) args) = length (drop (k - n) defaults))
      as Hlen by (rewrite !length_drop; fold n k; lia).
    rewrite zip_with_zip.
    rewrite <- (app_nil_r (map _ (zip _ _))).
    destruct (validate_with_defaults
                (zip (drop (n - k) args) (drop (k - n) defaults)) []
                top' false
                ([] ++ map (fun a => inspect.mkParam a
                                       inspect.POSITIONAL_OR_KEYWORD None)
                         (take (n - k) args))%list)
      as (top'' & kd & _ & ->).
    + exact Htop'.
    + rewrite fst_zip by lia. exact Hnd2.
    + rewrite fst_zip by lia. intros a Ha. cbn [app].
      rewrite map_map. cbn [inspect.name]. rewrite map_id.
      intros Hin. exact (Hdisj a Hin Ha).
    + cbn [inspect.validate bind app]. rewrite app_nil_r. reflexivity.
Qed.

Lemma to_signature_right_aligned_witness :
  to_signature
    (Arguments post_init ["self"; "a"; "b"] PyNone [] PyNone [PyInt 1] [])
  = Ok (inspect.mkSignature
          [inspect.mkParam "self" inspect.POSITIONAL_OR_KEYWORD None;
           inspect.mkParam "a" inspect.POSITIONAL_OR_KEYWORD None;
           inspect.mkParam "b" inspect.POSITIONAL_OR_KEYWORD (Some (PyInt 1))]).
Proof.
  apply (to_signature_right_aligned post_init ["self"; "a"; "b"] [PyInt 1]).
  - repeat constructor.
  - apply (bool_decide_unpack _). vm_compute. exact I.
Defined.
